(** * Reflex Tile: the run engine of the GameBoard component

    A shallow embedding of [GameBoard] (the React component that owns the
    run): the difficulty table, the target selector [pickCell], the two
    clocks, the scoring rules of [registerHit] and [registerMiss], and the
    one-shot [endRun].

    Conventions of the embedding.
    - A JavaScript number that holds a time or a coefficient is an exact
      rational ([Q]); equalities between such values are stated with [==].
      The doubles of the code differ from it by their rounding errors;
      [Binary64] repeats the time reward in IEEE doubles where a number is
      evaluated.
      Counters and tile indices are integers ([Z]); [null] is [None].
    - A React state variable and the ref that mirrors it are two fields
      ([timeLeft] and [timeLeftRef], [misses] and [missesRef], ...), as in
      the source.
    - [Math.random()] is a stream [random : nat -> Q] read at the position
      [rngPos]; [performance.now()] is an argument of the handler that
      reads it; [onFinish] is the list [finished] of the summaries it was
      called with.
    - Handlers run one at a time, each to completion (the host's event
      loop).  The values a handler closes over (status, streak, activeCell,
      hazardCell of the render that created it) are its [Render] argument.
      The props are fixed over a run of events; [propsChange] is a change
      of the profile or of the grid, after which the [keydown] listener
      may still be the one of an earlier render ([keyListener]).
    - Flash, combo and audio state has no effect on the run and is left
      out; so is the effect that copies [score] into [scoreRef], since
      every write of the score already writes both ([Synced] below).  An
      updater that React runs only when the component renders is applied
      after the rest of its handler ([hazardScore]).  The score pop-ups
      are a state of their own ([PopState]).
    - [App] is the part of the application that receives the summaries:
      the personal best it keeps in [localStorage] and passes back to the
      component as the prop [personalBest]. *)

From Stdlib Require Import ZArith QArith Qround Qminmax Lqa Lia List Bool String Ascii.
From Stdlib Require Import Morphisms Setoid Sorted.
From Corelib Require PrimFloat.
Import ListNotations.
Local Open Scope Z_scope.
Local Open Scope Q_scope.

(** ** JavaScript arithmetic used by the component *)

Module JS.

(** [Math.max] and [Math.min] on numbers. *)
Definition Math_max (a b : Q) : Q := Qmax a b.
Definition Math_min (a b : Q) : Q := Qmin a b.

(** [Math.floor]. *)
Definition Math_floor (x : Q) : Z := Qfloor x.

(** [Math.round]: the nearest integer, a tie going to the larger one. *)
Definition Math_round (x : Q) : Z := Qfloor (x + (1 # 2)).

(** [+(x).toFixed(2)]: the nearest multiple of 1/100; [toFixed] rounds
    the magnitude (a tie going away from zero) and puts the sign back. *)
Definition toFixed2 (x : Q) : Q :=
  if Qle_bool 0 x
  then inject_Z (Qfloor (x * 100 + (1 # 2))) / 100
  else - (inject_Z (Qfloor (- x * 100 + (1 # 2))) / 100).

(** A string is its sequence of UTF-16 code units. *)
Definition JsString := list N.

Definition ofAscii (s : string) : JsString :=
  List.map N_of_ascii (list_ascii_of_string s).

(** White space and line terminators, the code units [trim] strips. *)
Definition isWhiteSpace (c : N) : bool :=
  (((9 <=? c) && (c <=? 13)) || (c =? 32) || (c =? 160) || (c =? 5760)
   || ((8192 <=? c) && (c <=? 8202)) || (c =? 8232) || (c =? 8233)
   || (c =? 8239) || (c =? 8287) || (c =? 12288) || (c =? 65279))%N.

Fixpoint trimStart (s : JsString) : JsString :=
  match s with
  | c :: rest => if isWhiteSpace c then trimStart rest else s
  | [] => []
  end.

Definition trim (s : JsString) : JsString :=
  rev (trimStart (rev (trimStart s))).

End JS.
Import JS.

(** The time reward in binary64 arithmetic, operation for operation as
    [registerHit] computes it, to evaluate it on given numbers next to
    the rational model. *)
Module Binary64.
Import PrimFloat.

Definition Math_max (a b : float) : float := if ltb a b then b else a.
Definition Math_min (a b : float) : float := if ltb b a then b else a.

Definition newTime (timeLeft reaction streak rewardFloor rewardSlope
    rewardStreakFactor rewardBonus minGain timeRewardCap : float) : float :=
  let timeReward :=
    Math_max rewardFloor
      (sub (sub 1.25%float (div reaction rewardSlope))
         (mul streak rewardStreakFactor)) in
  let gain := Math_max minGain (add timeReward rewardBonus) in
  Math_min (Math_max (add timeLeft gain) 0%float) timeRewardCap.

(** The normal profile, [timeLeft = 30], reaction 300 ms, streak 0. *)
#[warnings="-inexact-float"]
Definition normalFirstTap : float :=
  newTime 30%float 300%float 0%float 0.55%float 940%float 0.012%float
    0.8%float 1.1%float 50%float.

#[warnings="-inexact-float"]
Definition exceeds_31_73 (x : float) : bool := ltb 31.73%float x.

End Binary64.

(** ** Difficulty profiles *)

(** The key [wrongClickPenalty] is optional in the source (it is read
    through [?? 2.5]): [None] is a profile that leaves it out. *)
Record Settings := {
  startTime : Q;
  missPenalty : Q;
  hazardChance : Q;
  timeRewardCap : Q;
  paceBase : Q;
  paceFloor : Q;
  paceScoreFactor : Q;
  paceStreakFactor : Q;
  rewardBonus : Q;
  rewardFloor : Q;
  rewardSlope : Q;
  rewardStreakFactor : Q;
  minGain : Q;
  wrongClickPenalty : option Q
}.

Module DIFFICULTY.

Definition normal : Settings := {|
  startTime := 30; missPenalty := 4; hazardChance := 0;
  timeRewardCap := 50; paceBase := 1900; paceFloor := 900;
  paceScoreFactor := 45 # 10; paceStreakFactor := 9;
  rewardBonus := 8 # 10; rewardFloor := 55 # 100; rewardSlope := 940;
  rewardStreakFactor := 12 # 1000; minGain := 11 # 10;
  wrongClickPenalty := Some (14 # 10) |}.

Definition hard : Settings := {|
  startTime := 25; missPenalty := 45 # 10; hazardChance := 8 # 100;
  timeRewardCap := 40; paceBase := 1500; paceFloor := 700;
  paceScoreFactor := 65 # 10; paceStreakFactor := 12;
  rewardBonus := 65 # 100; rewardFloor := 38 # 100; rewardSlope := 900;
  rewardStreakFactor := 18 # 1000; minGain := 85 # 100;
  wrongClickPenalty := Some (16 # 10) |}.

Definition extreme : Settings := {|
  startTime := 20; missPenalty := 5; hazardChance := 14 # 100;
  timeRewardCap := 34; paceBase := 1250; paceFloor := 550;
  paceScoreFactor := 85 # 10; paceStreakFactor := 15;
  rewardBonus := 55 # 100; rewardFloor := 32 # 100; rewardSlope := 860;
  rewardStreakFactor := 23 # 1000; minGain := 75 # 100;
  wrongClickPenalty := Some (19 # 10) |}.

(** [DIFFICULTY[name]]: the three keys of the table (the names an object
    inherits from its prototype are not modelled). *)
Definition lookup (name : string) : option Settings :=
  if String.eqb name "normal" then Some normal
  else if String.eqb name "hard" then Some hard
  else if String.eqb name "extreme" then Some extreme
  else None.

End DIFFICULTY.

(** [useMemo(() => DIFFICULTY[difficulty] ?? DIFFICULTY.normal)]. *)
Definition settingsFor (difficulty : string) : Settings :=
  match DIFFICULTY.lookup difficulty with
  | Some s => s
  | None => DIFFICULTY.normal
  end.

(** [clamp(value, min, max)]. *)
Definition clamp (value min max : Q) : Q := Math_min (Math_max value min) max.

(** ** Target selector *)

Section Selector.

(** The successive results of [Math.random()]. *)
Variable random : nat -> Q.

(** [disallow.has(next)]. *)
Definition has (disallow : list Z) (next : Z) : bool :=
  existsb (Z.eqb next) disallow.

(** The [while] loop of [pickCell]; [budget] is [40 - attempts].  It
    returns the last value of [next] and the stream position reached. *)
Fixpoint pickCell_while (budget : nat) (disallow : list Z) (count : Z)
    (next : Z) (pos : nat) : Z * nat :=
  match budget with
  | O => (next, pos)
  | S budget' =>
      if has disallow next
      then pickCell_while budget' disallow count
             (Math_floor (random pos * inject_Z count)) (S pos)
      else (next, pos)
  end.

Definition pickCell (previous : Z) (banned : list Z) (count : Z)
    (pos : nat) : Z * nat :=
  pickCell_while 40 (previous :: banned) count previous pos.

End Selector.

(** ** Run state *)

Inductive Status := idle | playing | paused | done.

Definition Status_eqb (a b : Status) : bool :=
  match a, b with
  | idle, idle | playing, playing | paused, paused | done, done => true
  | _, _ => false
  end.

(** The [useState] variables of the component. *)
Record View := {
  status : Status;
  timeLeft : Q;
  score : Z;
  streak : Z;
  misses : Z;
  hits : Z;
  activeCell : Z;
  hazardCell : option Z;
  fastestHit : option Z;
  totalReactionMs : Q
}.

(** The [useRef] cells of the component. *)
Record Refs := {
  spawnTimeRef : Q;
  finishedRef : bool;
  scoreRef : Z;
  timeLeftRef : Q;
  hitsRef : Z;
  missesRef : Z;
  fastestHitRef : option Z;
  totalReactionRef : Q;
  maxStreakRef : Z
}.

(** The object [endRun] passes to [onFinish]. *)
Record RunSummary := {
  sum_score : Z;
  sum_playerName : JsString;
  sum_mode : JsString;
  sum_hits : Z;
  sum_misses : Z;
  sum_accuracy : option Z;
  sum_fastestHit : option Z;
  sum_avgReaction : option Z;
  sum_maxStreak : Z
}.

(** What the [reset] of a render closes over besides the player name:
    the profile and the number of tiles of that render. *)
Record Listener := {
  l_settings : Settings;
  l_cellCount : Z
}.

(** The component instance: its state, its refs, how much of the random
    stream was read, the calls of [onFinish] so far (latest first), and
    the [keydown] listener in place while the status is [idle].

    The effect that registers the listener has the dependencies [status]
    and [playerName] only: the listener keeps the [reset] of the render
    that registered it.  Every change of the status registers it again,
    so that it is the listener of the current render in every status but
    [idle], where the profile or the grid can change and leave the status
    as it is.  [keyListener] is what the [reset] of the listener closes
    over when the status is [idle]: the props of the render in which the
    status last became [idle] (or of the first render). *)
Record World := {
  view : View;
  refs : Refs;
  rngPos : nat;
  finished : list RunSummary;
  keyListener : Listener
}.

Definition onView (f : View -> View) (w : World) : World :=
  {| view := f (view w); refs := refs w; rngPos := rngPos w;
     finished := finished w; keyListener := keyListener w |}.

Definition onRefs (f : Refs -> Refs) (w : World) : World :=
  {| view := view w; refs := f (refs w); rngPos := rngPos w;
     finished := finished w; keyListener := keyListener w |}.

Definition withRng (p : nat) (w : World) : World :=
  {| view := view w; refs := refs w; rngPos := p; finished := finished w;
     keyListener := keyListener w |}.

Definition emit (r : RunSummary) (w : World) : World :=
  {| view := view w; refs := refs w; rngPos := rngPos w;
     finished := r :: finished w; keyListener := keyListener w |}.

Definition listen (l : Listener) (w : World) : World :=
  {| view := view w; refs := refs w; rngPos := rngPos w;
     finished := finished w; keyListener := l |}.

(** The setters of the [useState] variables. *)

Definition setStatus v (w : World) : World :=
  onView (fun s =>
    {| status := v; timeLeft := timeLeft s; score := score s;
       streak := streak s; misses := misses s; hits := hits s;
       activeCell := activeCell s; hazardCell := hazardCell s;
       fastestHit := fastestHit s; totalReactionMs := totalReactionMs s |}) w.

Definition setTimeLeft v (w : World) : World :=
  onView (fun s =>
    {| status := status s; timeLeft := v; score := score s;
       streak := streak s; misses := misses s; hits := hits s;
       activeCell := activeCell s; hazardCell := hazardCell s;
       fastestHit := fastestHit s; totalReactionMs := totalReactionMs s |}) w.

Definition setScore v (w : World) : World :=
  onView (fun s =>
    {| status := status s; timeLeft := timeLeft s; score := v;
       streak := streak s; misses := misses s; hits := hits s;
       activeCell := activeCell s; hazardCell := hazardCell s;
       fastestHit := fastestHit s; totalReactionMs := totalReactionMs s |}) w.

Definition setStreak v (w : World) : World :=
  onView (fun s =>
    {| status := status s; timeLeft := timeLeft s; score := score s;
       streak := v; misses := misses s; hits := hits s;
       activeCell := activeCell s; hazardCell := hazardCell s;
       fastestHit := fastestHit s; totalReactionMs := totalReactionMs s |}) w.

Definition setMisses v (w : World) : World :=
  onView (fun s =>
    {| status := status s; timeLeft := timeLeft s; score := score s;
       streak := streak s; misses := v; hits := hits s;
       activeCell := activeCell s; hazardCell := hazardCell s;
       fastestHit := fastestHit s; totalReactionMs := totalReactionMs s |}) w.

Definition setHits v (w : World) : World :=
  onView (fun s =>
    {| status := status s; timeLeft := timeLeft s; score := score s;
       streak := streak s; misses := misses s; hits := v;
       activeCell := activeCell s; hazardCell := hazardCell s;
       fastestHit := fastestHit s; totalReactionMs := totalReactionMs s |}) w.

Definition setActiveCell v (w : World) : World :=
  onView (fun s =>
    {| status := status s; timeLeft := timeLeft s; score := score s;
       streak := streak s; misses := misses s; hits := hits s;
       activeCell := v; hazardCell := hazardCell s;
       fastestHit := fastestHit s; totalReactionMs := totalReactionMs s |}) w.

Definition setHazardCell v (w : World) : World :=
  onView (fun s =>
    {| status := status s; timeLeft := timeLeft s; score := score s;
       streak := streak s; misses := misses s; hits := hits s;
       activeCell := activeCell s; hazardCell := v;
       fastestHit := fastestHit s; totalReactionMs := totalReactionMs s |}) w.

Definition setFastestHit v (w : World) : World :=
  onView (fun s =>
    {| status := status s; timeLeft := timeLeft s; score := score s;
       streak := streak s; misses := misses s; hits := hits s;
       activeCell := activeCell s; hazardCell := hazardCell s;
       fastestHit := v; totalReactionMs := totalReactionMs s |}) w.

Definition setTotalReactionMs v (w : World) : World :=
  onView (fun s =>
    {| status := status s; timeLeft := timeLeft s; score := score s;
       streak := streak s; misses := misses s; hits := hits s;
       activeCell := activeCell s; hazardCell := hazardCell s;
       fastestHit := fastestHit s; totalReactionMs := v |}) w.

(** Assignments to the [current] field of the refs. *)

Definition spawnTimeRef_set v (w : World) : World :=
  onRefs (fun r =>
    {| spawnTimeRef := v; finishedRef := finishedRef r;
       scoreRef := scoreRef r; timeLeftRef := timeLeftRef r;
       hitsRef := hitsRef r; missesRef := missesRef r;
       fastestHitRef := fastestHitRef r;
       totalReactionRef := totalReactionRef r;
       maxStreakRef := maxStreakRef r |}) w.

Definition finishedRef_set v (w : World) : World :=
  onRefs (fun r =>
    {| spawnTimeRef := spawnTimeRef r; finishedRef := v;
       scoreRef := scoreRef r; timeLeftRef := timeLeftRef r;
       hitsRef := hitsRef r; missesRef := missesRef r;
       fastestHitRef := fastestHitRef r;
       totalReactionRef := totalReactionRef r;
       maxStreakRef := maxStreakRef r |}) w.

Definition scoreRef_set v (w : World) : World :=
  onRefs (fun r =>
    {| spawnTimeRef := spawnTimeRef r; finishedRef := finishedRef r;
       scoreRef := v; timeLeftRef := timeLeftRef r; hitsRef := hitsRef r;
       missesRef := missesRef r; fastestHitRef := fastestHitRef r;
       totalReactionRef := totalReactionRef r;
       maxStreakRef := maxStreakRef r |}) w.

Definition timeLeftRef_set v (w : World) : World :=
  onRefs (fun r =>
    {| spawnTimeRef := spawnTimeRef r; finishedRef := finishedRef r;
       scoreRef := scoreRef r; timeLeftRef := v; hitsRef := hitsRef r;
       missesRef := missesRef r; fastestHitRef := fastestHitRef r;
       totalReactionRef := totalReactionRef r;
       maxStreakRef := maxStreakRef r |}) w.

Definition hitsRef_set v (w : World) : World :=
  onRefs (fun r =>
    {| spawnTimeRef := spawnTimeRef r; finishedRef := finishedRef r;
       scoreRef := scoreRef r; timeLeftRef := timeLeftRef r; hitsRef := v;
       missesRef := missesRef r; fastestHitRef := fastestHitRef r;
       totalReactionRef := totalReactionRef r;
       maxStreakRef := maxStreakRef r |}) w.

Definition missesRef_set v (w : World) : World :=
  onRefs (fun r =>
    {| spawnTimeRef := spawnTimeRef r; finishedRef := finishedRef r;
       scoreRef := scoreRef r; timeLeftRef := timeLeftRef r;
       hitsRef := hitsRef r; missesRef := v;
       fastestHitRef := fastestHitRef r;
       totalReactionRef := totalReactionRef r;
       maxStreakRef := maxStreakRef r |}) w.

Definition fastestHitRef_set v (w : World) : World :=
  onRefs (fun r =>
    {| spawnTimeRef := spawnTimeRef r; finishedRef := finishedRef r;
       scoreRef := scoreRef r; timeLeftRef := timeLeftRef r;
       hitsRef := hitsRef r; missesRef := missesRef r; fastestHitRef := v;
       totalReactionRef := totalReactionRef r;
       maxStreakRef := maxStreakRef r |}) w.

Definition totalReactionRef_set v (w : World) : World :=
  onRefs (fun r =>
    {| spawnTimeRef := spawnTimeRef r; finishedRef := finishedRef r;
       scoreRef := scoreRef r; timeLeftRef := timeLeftRef r;
       hitsRef := hitsRef r; missesRef := missesRef r;
       fastestHitRef := fastestHitRef r; totalReactionRef := v;
       maxStreakRef := maxStreakRef r |}) w.

Definition maxStreakRef_set v (w : World) : World :=
  onRefs (fun r =>
    {| spawnTimeRef := spawnTimeRef r; finishedRef := finishedRef r;
       scoreRef := scoreRef r; timeLeftRef := timeLeftRef r;
       hitsRef := hitsRef r; missesRef := missesRef r;
       fastestHitRef := fastestHitRef r;
       totalReactionRef := totalReactionRef r; maxStreakRef := v |}) w.

(** ** Sample inputs, for the places where a property is evaluated *)

Module Sample.

(** A stream whose every draw is 0.5, and one whose every draw is 0. *)
Definition random (n : nat) : Q := 1 # 2.
Definition zeros (n : nat) : Q := 0.

(** A stream that puts a hazard on the board at the second spawn. *)
Definition script (n : nat) : Q :=
  nth n [1 # 2; 1 # 2; 1 # 2; 3 # 10; 1 # 5; 0; 2 # 5] (3 # 10).

(** A stream whose seventh draw passes the hazard test of [hard]. *)
Definition seventh (n : nat) : Q :=
  nth n [1 # 2; 1 # 2; 1 # 2; 1 # 2; 1 # 2; 1 # 2; 1 # 20; 3 # 10] (1 # 2).

Definition playerName : JsString := ofAscii "Al".
Definition mode : JsString := ofAscii "solo".

End Sample.

(** ** The personal best kept by the application

    [App] passes [handleFinish] to the component as [onFinish] and its
    state [personalBest] as a prop.  The best score is kept as text under
    one key of [localStorage]; writes are taken to succeed. *)

Module App.

(** [Number.MAX_SAFE_INTEGER], 2^53 - 1: up to this magnitude every
    integer is a number and its decimal text is exact. *)
Definition MAX_SAFE_INTEGER : Z := 9007199254740991.

Definition isSafe (n : Z) : bool := (Z.abs n <=? MAX_SAFE_INTEGER)%Z.

(** A number, as far as it is followed here: [NaN], an integer of
    magnitude at most [MAX_SAFE_INTEGER], or a number of magnitude 2^53
    or more, of which only the sign is kept. *)
Inductive Number :=
| NaN
| Int (n : Z)
| Huge (negative : bool).

(** The number the engine makes of an integer it read: the integer
    itself up to [MAX_SAFE_INTEGER]; beyond, the nearest double, whose
    magnitude is at least 2^53. *)
Definition ofInteger (v : Z) : Number :=
  if isSafe v then Int v else Huge (v <? 0)%Z.

(** [a > z], [a < z] and [a === z] for a number [a] and a safe integer
    [z]; a comparison with [NaN] is false. *)
Definition above (a : Number) (z : Z) : bool :=
  match a with
  | NaN => false
  | Int x => (z <? x)%Z
  | Huge negative => negb negative
  end.

Definition below (a : Number) (z : Z) : bool :=
  match a with
  | NaN => false
  | Int x => (x <? z)%Z
  | Huge negative => negative
  end.

Definition strictEq (a : Number) (z : Z) : bool :=
  match a with
  | Int x => (x =? z)%Z
  | _ => false
  end.

(** The decimal digits, code units 48 to 57. *)
Definition isDigit (c : N) : bool := ((48 <=? c) && (c <=? 57))%N.

Definition digitOf (d : Z) : N := (48 + Z.to_N d)%N.

Fixpoint digitPrefix (s : JsString) : JsString :=
  match s with
  | c :: rest => if isDigit c then c :: digitPrefix rest else []
  | [] => []
  end.

(** The integer a sequence of digits denotes. *)
Definition valueOf (digits : JsString) : Z :=
  fold_left (fun acc c => (acc * 10 + (Z.of_N c - 48))%Z) digits 0%Z.

(** [parseInt(s, 10)]: leading white space is skipped, then an optional
    sign, then the longest run of digits; [NaN] when that run is empty,
    and otherwise the number nearest to the integer read (-0 is 0). *)
Definition parseInt10 (s : JsString) : Number :=
  let input := trimStart s in
  let sign := match input with
              | 45%N :: _ => (-1)%Z
              | _ => 1%Z
              end in
  let body := match input with
              | c :: rest =>
                  if ((c =? 43) || (c =? 45))%N then rest else input
              | [] => input
              end in
  match digitPrefix body with
  | [] => NaN
  | numeral => ofInteger (sign * valueOf numeral)%Z
  end.

(** The decimal digits of a natural number; [fuel] bounds their
    number. *)
Fixpoint digits (fuel : nat) (n : Z) : JsString :=
  match fuel with
  | O => []
  | S fuel =>
      if (n <? 10)%Z then [digitOf n]
      else digits fuel (n / 10)%Z ++ [digitOf (n mod 10)%Z]
  end.

(** [String(n)] for a safe integer: its decimal digits, after [-] when
    it is negative.  [None] beyond [MAX_SAFE_INTEGER], where not every
    integer is a number and, from 10^21 on, the text is in exponent
    notation: such numbers are not followed. *)
Definition Number_toString (n : Z) : option JsString :=
  if isSafe n then
    let m := Z.abs n in
    let text := digits (S (Z.to_nat (Z.log2 m))) m in
    Some (if (n <? 0)%Z then 45%N :: text else text)
  else None.

(** [localStorage], of which [getItem] gives [null] for a missing key. *)
Definition Storage := JsString -> option JsString.

Definition getItem (key : JsString) (storage : Storage) : option JsString :=
  storage key.

Definition setItem (key value : JsString) (storage : Storage) : Storage :=
  fun k => if list_eq_dec N.eq_dec k key then Some value else storage k.

Definition PB_KEY : JsString := ofAscii "arcade_arena_pb".

(** [value || fallback] on a string or [null]: the empty string is
    falsy too. *)
Definition orElse (value : option JsString) (fallback : JsString)
    : JsString :=
  match value with
  | Some (c :: rest) => c :: rest
  | _ => fallback
  end.

Definition readPersonalBest (storage : Storage) : Number :=
  parseInt10 (orElse (getItem PB_KEY storage) (ofAscii "0")).

(** [updatePersonalBest(score)] for a score that is a safe integer: the
    best it returns and the storage it leaves ([None] for another
    score). *)
Definition updatePersonalBest (score : Z) (storage : Storage)
    : option (Number * Storage) :=
  match Number_toString score with
  | None => None
  | Some text =>
      let current := readPersonalBest storage in
      if below current score
      then Some (Int score, setItem PB_KEY text storage)
      else Some (current, storage)
  end.

(** The runs of a session, each handed to [updatePersonalBest] in turn. *)
Fixpoint afterRuns (scores : list Z) (storage : Storage)
    : option Storage :=
  match scores with
  | [] => Some storage
  | score :: rest =>
      match updatePersonalBest score storage with
      | Some (_, storage') => afterRuns rest storage'
      | None => None
      end
  end.

End App.

(** ** The component *)

(** What a handler closes over: the state values of the render that
    created it. *)
Record Render := {
  r_status : Status;
  r_streak : Z;
  r_activeCell : Z;
  r_hazardCell : option Z
}.

(** The render of the current state. *)
Definition render (w : World) : Render :=
  {| r_status := status (view w); r_streak := streak (view w);
     r_activeCell := activeCell (view w);
     r_hazardCell := hazardCell (view w) |}.

(** [a < b] on numbers. *)
Definition Qlt_bool (a b : Q) : bool := negb (Qle_bool b a).

(** *** What [reset] closes over

    Every render creates its own [reset], which uses the [settings], the
    [cellCount] and the [playerName] of that render.  The buttons call
    the [reset] of the current render; the [keydown] listener calls the
    one of the render that registered it. *)
Section Closure.

Variable random : nat -> Q.
Variable settings : Settings.
Variable cellCount : Z.
Variable playerName : JsString.

(** The hazard draw of a spawn: [pickCell(next, [next], cellCount)] or
    [null], and the stream position after it. *)
Definition hazardDraw (next : Z) (pos : nat) : option Z * nat :=
  if Qlt_bool (random pos) (hazardChance settings)
  then let '(h, p) := pickCell random next [next] cellCount (S pos) in
       (Some h, p)
  else (None, S pos).

(** The assignments shared by [reset] and by the difficulty effect. *)
Definition clearRefs (w : World) : World :=
  let w := finishedRef_set false w in
  let w := timeLeftRef_set (startTime settings) w in
  let w := scoreRef_set 0%Z w in
  let w := hitsRef_set 0%Z w in
  let w := missesRef_set 0%Z w in
  let w := fastestHitRef_set None w in
  let w := totalReactionRef_set 0 w in
  maxStreakRef_set 0%Z w.

Definition clearCounters (w : World) : World :=
  let w := setTimeLeft (startTime settings) w in
  let w := setScore 0%Z w in
  let w := setStreak 0%Z w in
  let w := setMisses 0%Z w in
  let w := setHits 0%Z w in
  let w := setFastestHit None w in
  setTotalReactionMs 0 w.

(** [!playerName || playerName.trim().length === 0]. *)
Definition nameMissing : bool :=
  (List.length playerName =? 0)%nat
  || (List.length (trim playerName) =? 0)%nat.

Definition reset (now : Q) (w : World) : World :=
  if nameMissing then w
  else
    let w := clearRefs w in
    let w := setStatus playing w in
    let w := clearCounters w in
    let '(next, p1) := pickCell random (-1)%Z [] cellCount (rngPos w) in
    let w := spawnTimeRef_set now w in
    let w := setActiveCell next w in
    let '(hz, p2) :=
      if Qlt_bool 0 (hazardChance settings)
      then hazardDraw next p1
      else (None, p1) in
    let w := setHazardCell hz w in
    withRng p2 w.

End Closure.

Section GameBoard.

(** The props and what the component derives from them: the random
    stream, [settings] (from [difficulty]), [cellCount] (from the grid),
    [playerName] and [mode]. *)
Variable random : nat -> Q.
Variable settings : Settings.
Variable cellCount : Z.
Variable playerName : JsString.
Variable mode : JsString.

(** The reaction deadline, in milliseconds. *)
Definition difficultyWindow (score streak : Z) : Q :=
  Math_max (paceFloor settings)
    (paceBase settings - inject_Z score * paceScoreFactor settings
     - inject_Z streak * paceStreakFactor settings).

(** The argument of [onFinish], read from the refs.  The two quotients
    are rounded as exact numbers; the code rounds the doubles it
    computes, which on a tie of the exact quotient can give the integer
    below (23 hits of 40 attempts: 58 here, 57 in the code). *)
Definition summary (w : World) : RunSummary :=
  let totalHits := hitsRef (refs w) in
  let totalMisses := missesRef (refs w) in
  let totalAttempts := (totalHits + totalMisses)%Z in
  {| sum_score := scoreRef (refs w);
     sum_playerName := playerName;
     sum_mode := mode;
     sum_hits := totalHits;
     sum_misses := totalMisses;
     sum_accuracy :=
       if (0 <? totalAttempts)%Z
       then Some (Math_round
                    (inject_Z totalHits / inject_Z totalAttempts * 100))
       else None;
     sum_fastestHit := fastestHitRef (refs w);
     sum_avgReaction :=
       if (0 <? totalHits)%Z
       then Some (Math_round (totalReactionRef (refs w) / inject_Z totalHits))
       else None;
     sum_maxStreak := maxStreakRef (refs w) |}.

Definition endRun (w : World) : World :=
  if finishedRef (refs w) then w
  else
    let w := finishedRef_set true w in
    let w := setStatus done w in
    emit (summary w) w.

(** Returns the new state and whether the run ended. *)
Definition applyTimePenalty (amount : Q) (w : World) : World * bool :=
  let newTime := Math_max 0 (timeLeftRef (refs w) - amount) in
  let w := timeLeftRef_set newTime w in
  let w := setTimeLeft newTime w in
  if Qle_bool newTime 0 then (endRun w, true) else (w, false).

(** [now] is what [performance.now()] returns inside the updater. *)
Definition spawnNewTarget (now : Q) (w : World) : World :=
  let '(next, p1) :=
    pickCell random (activeCell (view w)) [] cellCount (rngPos w) in
  let w := spawnTimeRef_set now w in
  let '(hz, p2) := hazardDraw random settings cellCount next p1 in
  let w := setHazardCell hz w in
  let w := setActiveCell next w in
  withRng p2 w.

(** The props of the current render, as a [reset] closes over them. *)
Definition currentProps : Listener :=
  {| l_settings := settings; l_cellCount := cellCount |}.

(** The callback of the countdown interval.  The subtraction and the
    rounding to two decimals are those of exact numbers; on doubles the
    result can be the neighbouring multiple of 0.01. *)
Definition countdownTick (w : World) : World :=
  let prev := timeLeft (view w) in
  let next := toFixed2 (prev - (1 # 10)) in
  let w := timeLeftRef_set next w in
  if Qle_bool next 0
  then setTimeLeft 0 (endRun w)
  else setTimeLeft next w.

(** The effect that runs on mount and when [settings] or [cellCount]
    change. *)
Definition difficultyEffect (w : World) : World :=
  let w := clearRefs settings w in
  let w := setStatus idle w in
  let w := clearCounters settings w in
  let '(next, p1) := pickCell random (-1)%Z [] cellCount (rngPos w) in
  let w := setActiveCell next w in
  let w := setHazardCell None w in
  withRng p1 w.

(** A change of [settings] or of [cellCount] (the section variables are
    the new ones): the difficulty effect and, when it changed the status,
    the listener of the render that follows.  When the status was [idle]
    already, the listener in place stays. *)
Definition propsChange (w : World) : World :=
  let w' := difficultyEffect w in
  if Status_eqb (status (view w)) idle then w' else listen currentProps w'.

Definition registerMiss (r : Render) (spawnNow : Q) (w : World) : World :=
  if negb (Status_eqb (r_status r) playing) then w
  else
    let w := setStreak 0%Z w in
    let w := setMisses (misses (view w) + 1)%Z w in
    let w := missesRef_set (missesRef (refs w) + 1)%Z w in
    let '(w, ended) := applyTimePenalty (missPenalty settings) w in
    if ended then w else spawnNewTarget spawnNow w.

Definition resumeGame (r : Render) (w : World) : World :=
  if Status_eqb (r_status r) paused then setStatus playing w else w.

(** [cellIndex === hazardCell]. *)
Definition isHazard (r : Render) (cellIndex : Z) : bool :=
  match r_hazardCell r with
  | Some h => (cellIndex =? h)%Z
  | None => false
  end.

(** [settings.wrongClickPenalty ?? 2.5]. *)
Definition wrongPenalty : Q :=
  match wrongClickPenalty settings with
  | Some p => p
  | None => 25 # 10
  end.

(** The points of a correct tap. *)
Definition gained (reaction : Q) (streak : Z) : Z :=
  let speedBonus := Z.max 2 (Math_round ((1200 - reaction) / 30)) in
  let streakBonus := (Z.max 0 (streak - 1) * 4)%Z in
  (15 + speedBonus + streakBonus)%Z.

(** The seconds a correct tap adds before the clamp. *)
Definition timeGain (reaction : Q) (streak : Z) : Q :=
  let timeReward :=
    Math_max (rewardFloor settings)
      ((125 # 100) - reaction / rewardSlope settings
       - inject_Z streak * rewardStreakFactor settings) in
  Math_max (minGain settings) (timeReward + rewardBonus settings).

(** The four parts of the correct-tap branch of [registerHit], in the
    order of the source: the reaction statistics, the points, the streak
    and the time reward.  [streak] is the value the handler closed over. *)
Definition recordReaction (reaction : Q) (w : World) : World :=
  let reactionRounded := Math_round reaction in
  let w :=
    setFastestHit
      (match fastestHit (view w) with
       | None => Some reactionRounded
       | Some prev => Some (Z.min prev reactionRounded)
       end) w in
  let w := setTotalReactionMs (totalReactionMs (view w) + reaction) w in
  let w := setHits (hits (view w) + 1)%Z w in
  let w := hitsRef_set (hitsRef (refs w) + 1)%Z w in
  let w := totalReactionRef_set (totalReactionRef (refs w) + reaction) w in
  match fastestHitRef (refs w) with
  | None => fastestHitRef_set (Some reactionRounded) w
  | Some cur =>
      if (reactionRounded <? cur)%Z
      then fastestHitRef_set (Some reactionRounded) w
      else w
  end.

Definition awardPoints (reaction : Q) (streak : Z) (w : World) : World :=
  let v := Z.max (score (view w) + gained reaction streak) 0 in
  let w := scoreRef_set v w in
  setScore v w.

Definition extendStreak (streak : Z) (w : World) : World :=
  let newStreak := (streak + 1)%Z in
  let w := setStreak newStreak w in
  if (maxStreakRef (refs w) <? newStreak)%Z
  then maxStreakRef_set newStreak w
  else w.

Definition bankTime (reaction : Q) (streak : Z) (w : World) : World :=
  let newTime :=
    clamp (timeLeftRef (refs w) + timeGain reaction streak) 0
      (timeRewardCap settings) in
  let w := timeLeftRef_set newTime w in
  setTimeLeft newTime w.

(** The hazard branch's [setScore((s) => max(s - 10, 0))]: the updater,
    which writes [scoreRef] as well. *)
Definition hazardScore (w : World) : World :=
  let v := Z.max (score (view w) - 10) 0 in
  let w := scoreRef_set v w in
  setScore v w.

(** [now] is [performance.now()] at the tap, [spawnNow] the one read
    when the next target is spawned.  In the hazard branch the updater
    given to [setScore] is queued behind the updates of [hazardCell] and
    [streak] and runs when the component renders, after the handler: the
    [endRun] of the penalty reads the [scoreRef] of before the tap. *)
Definition registerHit (r : Render) (cellIndex : Z) (now spawnNow : Q)
    (w : World) : World :=
  if negb (Status_eqb (r_status r) playing) then w
  else if isHazard r cellIndex then
    let w := setHazardCell None w in
    let w := setStreak 0%Z w in
    let w := missesRef_set (missesRef (refs w) + 1)%Z w in
    let '(w, ended) := applyTimePenalty (missPenalty settings + 1) w in
    hazardScore (if ended then w else spawnNewTarget spawnNow w)
  else if negb (cellIndex =? r_activeCell r)%Z then
    let w := setStreak 0%Z w in
    let w := missesRef_set (missesRef (refs w) + 1)%Z w in
    fst (applyTimePenalty wrongPenalty w)
  else
    let reaction := now - spawnTimeRef (refs w) in
    let w := recordReaction reaction w in
    let w := awardPoints reaction (r_streak r) w in
    let w := extendStreak (r_streak r) w in
    let w := bankTime reaction (r_streak r) w in
    spawnNewTarget spawnNow w.

(** The [keydown] listener: [Space] starts a run from [idle] or [done]
    when the name is not blank; [KeyP] and [Escape] toggle the pause.
    The [reset] it calls is the one of the render that registered the
    listener: of the current render, except while [idle], where it is
    the one [keyListener] keeps. *)
Inductive Key := Space | KeyP | Escape.

Definition onKey (r : Render) (k : Key) (now : Q) (w : World) : World :=
  match k with
  | Space =>
      if (Status_eqb (r_status r) idle || Status_eqb (r_status r) done)
         && negb (List.length (trim playerName) =? 0)%nat
      then
        let l := if Status_eqb (r_status r) idle
                 then keyListener w else currentProps in
        reset random (l_settings l) (l_cellCount l) playerName now w
      else w
  | KeyP | Escape =>
      if Status_eqb (r_status r) playing then setStatus paused w
      else if Status_eqb (r_status r) paused then setStatus playing w
      else w
  end.

(** The component right after its first render and its mount effects;
    [now] is [performance.now()] at that render. *)
Definition mount (now : Q) : World :=
  let '(cell, p) := pickCell random (-1)%Z [] cellCount 0%nat in
  difficultyEffect
    {| view := {| status := idle; timeLeft := startTime settings;
                  score := 0; streak := 0; misses := 0; hits := 0;
                  activeCell := cell; hazardCell := None;
                  fastestHit := None; totalReactionMs := 0 |};
       refs := {| spawnTimeRef := now; finishedRef := false;
                  scoreRef := 0; timeLeftRef := startTime settings;
                  hitsRef := 0; missesRef := 0; fastestHitRef := None;
                  totalReactionRef := 0; maxStreakRef := 0 |};
       rngPos := p; finished := []; keyListener := currentProps |}.

(** *** Events, delivered one at a time

    The interval and the deadline timeout exist only while the status is
    [playing] (their effects return early otherwise and clear them on
    every change); the overlay with its buttons is rendered only while
    the status is not [playing], and shows Resume only when paused. *)
Inductive Event :=
| Tick
| Deadline (spawnNow : Q)
| Tap (cellIndex : Z) (now spawnNow : Q)
| ClickStart (now : Q)
| ClickResume
| KeyDown (k : Key) (now : Q).

Definition step (w : World) (e : Event) : World :=
  match e with
  | Tick =>
      if Status_eqb (status (view w)) playing then countdownTick w else w
  | Deadline spawnNow =>
      if Status_eqb (status (view w)) playing
      then registerMiss (render w) spawnNow w else w
  | Tap cellIndex now spawnNow =>
      registerHit (render w) cellIndex now spawnNow w
  | ClickStart now =>
      if Status_eqb (status (view w)) playing then w
      else reset random settings cellCount playerName now w
  | ClickResume =>
      if Status_eqb (status (view w)) paused
      then resumeGame (render w) w else w
  | KeyDown k now => onKey (render w) k now w
  end.

Definition run (w : World) (es : list Event) : World := fold_left step es w.

(** *** Handlers called with any closure

    A timer or a pointer event already queued when the state changes
    still runs the handler of the render that queued it: [call] runs one
    handler with the closure given, whatever the current state. *)
Inductive Call :=
| CallTick
| CallMiss (r : Render) (spawnNow : Q)
| CallHit (r : Render) (cellIndex : Z) (now spawnNow : Q)
| CallEndRun.

Definition call (w : World) (c : Call) : World :=
  match c with
  | CallTick => countdownTick w
  | CallMiss r spawnNow => registerMiss r spawnNow w
  | CallHit r cellIndex now spawnNow => registerHit r cellIndex now spawnNow w
  | CallEndRun => endRun w
  end.

Definition calls (w : World) (cs : list Call) : World := fold_left call cs w.

(** *** Auxiliary definitions of the proofs *)

(** The state a penalty writes before it looks at the result. *)
Definition penalised (amount : Q) (w : World) : World :=
  let newTime := Math_max 0 (timeLeftRef (refs w) - amount) in
  setTimeLeft newTime (timeLeftRef_set newTime w).

(** What the proofs need of a profile; the three of the table have it. *)
Record GoodProfile : Prop := {
  good_start : 0 <= startTime settings <= timeRewardCap settings;
  good_miss : 0 <= missPenalty settings;
  good_wrong : 0 <= wrongPenalty;
  good_paceScore : 0 <= paceScoreFactor settings;
  good_paceStreak : 0 <= paceStreakFactor settings
}.

(** The bounds of the survival clock. *)
Definition TimeInv (w : World) : Prop :=
  0 <= timeLeft (view w) <= timeRewardCap settings
  /\ timeLeftRef (refs w) <= timeRewardCap settings.

(** The refs agree with the state they mirror: the score always, the
    clock and the open latch as long as the run is not [done]. *)
Definition Synced (w : World) : Prop :=
  (0 <= score (view w))%Z
  /\ scoreRef (refs w) = score (view w)
  /\ (status (view w) <> done ->
      finishedRef (refs w) = false
      /\ timeLeftRef (refs w) = timeLeft (view w)).

(** The state of a correct tap before the next target is spawned. *)
Definition tapped (reaction : Q) (streak : Z) (w : World) : World :=
  bankTime reaction streak
    (extendStreak streak
       (awardPoints reaction streak (recordReaction reaction w))).

(** How a handler may move the one-shot latch: not at all, or from open
    to set together with one call of [onFinish] and the status [done]. *)
Definition Quiet (w w' : World) : Prop :=
  finishedRef (refs w') = finishedRef (refs w)
  /\ finished w' = finished w
  /\ status (view w') = status (view w).

Definition Finalised (w w' : World) : Prop :=
  finishedRef (refs w) = false
  /\ finishedRef (refs w') = true
  /\ status (view w') = done
  /\ exists r, finished w' = r :: finished w.

Definition Latch (w w' : World) : Prop := Quiet w w' \/ Finalised w w'.

(** Projections of the state through the setters. *)
Ltac simp_world :=
  cbn [view refs rngPos finished
       status timeLeft score streak misses hits activeCell hazardCell
       fastestHit totalReactionMs
       spawnTimeRef finishedRef scoreRef timeLeftRef hitsRef missesRef
       fastestHitRef totalReactionRef maxStreakRef
       setStatus setTimeLeft setScore setStreak setMisses setHits
       setActiveCell setHazardCell setFastestHit setTotalReactionMs
       spawnTimeRef_set finishedRef_set scoreRef_set timeLeftRef_set
       hitsRef_set missesRef_set fastestHitRef_set totalReactionRef_set
       maxStreakRef_set
       clearRefs clearCounters onView onRefs withRng emit listen
       keyListener fst snd
       r_status r_streak r_activeCell r_hazardCell render] in *.

(** Follows the branches of a handler that updates a ref or not. *)
Ltac break_world :=
  simp_world;
  match goal with
  | |- context [match fastestHitRef (refs ?w) with _ => _ end] =>
      destruct (fastestHitRef (refs w)) eqn:?
  | |- context [if ?c then _ else _] => destruct c eqn:?
  end;
  simp_world.


(** *** The grid, the pop-ups and the values shown on screen *)

Record Grid := { cols : Z; rows : Z }.

(** [getGrid()]; [innerWidth] is [None] where there is no [window]. *)
Definition getGrid (innerWidth : option Z) : Grid :=
  match innerWidth with
  | None => {| cols := 5; rows := 5 |}
  | Some width =>
      if (width <=? 540)%Z then {| cols := 4; rows := 4 |}
      else {| cols := 5; rows := 5 |}
  end.

(** [grid.cols * grid.rows]. *)
Definition cellCountOf (grid : Grid) : Z := (cols grid * rows grid)%Z.

(** The position [spawnPop] gives a pop-up, in percent of the arena:
    [%] is the remainder, [Math.floor(cellIdx / grid.cols)] the row. *)
Definition popPosition (grid : Grid) (cellIdx : Z) : Q * Q :=
  let col := Z.rem cellIdx (cols grid) in
  let row := Math_floor (inject_Z cellIdx / inject_Z (cols grid)) in
  let x := (inject_Z col + (1 # 2)) / inject_Z (cols grid) * 100 in
  let y := (inject_Z row + (1 # 2)) / inject_Z (rows grid) * 100 in
  (x, y).

(** The accuracy and the average reaction the component renders, from
    its state. *)
Definition accuracy (w : World) : option Z :=
  let totalAttempts := (hits (view w) + misses (view w))%Z in
  if (0 <? totalAttempts)%Z
  then Some (Math_round
               (inject_Z (hits (view w)) / inject_Z totalAttempts * 100))
  else None.

Definition avgReaction (w : World) : option Z :=
  if (0 <? hits (view w))%Z
  then Some (Math_round (totalReactionMs (view w) / inject_Z (hits (view w))))
  else None.

(** The time bar: whether it shows banked time, and its width in percent. *)
Definition timebarBanked (w : World) : bool :=
  Qlt_bool (startTime settings) (timeLeft (view w)).

Definition timebarWidth (w : World) : Q :=
  Math_min 100 (timeLeft (view w) / startTime settings * 100).

(** *** Further invariants *)

(** The statistics refs against the state they mirror, and the streak
    against its maximum. *)
Definition Counted (w : World) : Prop :=
  (0 <= hits (view w))%Z
  /\ hitsRef (refs w) = hits (view w)
  /\ totalReactionRef (refs w) = totalReactionMs (view w)
  /\ fastestHitRef (refs w) = fastestHit (view w)
  /\ (fastestHit (view w) = None <-> hits (view w) = 0%Z)
  /\ (0 <= misses (view w) <= missesRef (refs w))%Z
  /\ (0 <= streak (view w) <= maxStreakRef (refs w))%Z.

(** The target and the hazard are tiles of the grid. *)
Definition InGrid (w : World) : Prop :=
  (0 <= activeCell (view w) < cellCount)%Z
  /\ forall h, hazardCell (view w) = Some h -> (0 <= h < cellCount)%Z.

(** A run that is [done] has its latch set and its clock at 0. *)
Definition DoneLatched (w : World) : Prop :=
  status (view w) = done -> finishedRef (refs w) = true.

Definition DoneZero (w : World) : Prop :=
  status (view w) = done -> timeLeft (view w) == 0.

(** What every summary satisfies. *)
Definition GoodSummary (r : RunSummary) : Prop :=
  (0 <= sum_score r)%Z /\ (0 <= sum_hits r)%Z /\ (0 <= sum_misses r)%Z
  /\ (0 <= sum_maxStreak r)%Z
  /\ (sum_accuracy r = None <-> (sum_hits r + sum_misses r = 0)%Z)
  /\ (forall a, sum_accuracy r = Some a -> (0 <= a <= 100)%Z)
  /\ (sum_avgReaction r = None <-> sum_hits r = 0%Z)
  /\ (sum_fastestHit r = None <-> sum_hits r = 0%Z).

(** What [endRun] needs of the refs for its summary to be good, with
    the summaries already handed to [onFinish]. *)
Definition RefsGood (w : World) : Prop :=
  (0 <= scoreRef (refs w))%Z /\ (0 <= hitsRef (refs w))%Z
  /\ (0 <= missesRef (refs w))%Z /\ (0 <= maxStreakRef (refs w))%Z
  /\ (fastestHitRef (refs w) = None <-> hitsRef (refs w) = 0%Z).

Definition Reported (w : World) : Prop :=
  RefsGood w /\ Forall GoodSummary (finished w).

(** A summary with another score. *)
Definition scored (s : Z) (r : RunSummary) : RunSummary :=
  {| sum_score := s;
     sum_playerName := sum_playerName r;
     sum_mode := sum_mode r;
     sum_hits := sum_hits r;
     sum_misses := sum_misses r;
     sum_accuracy := sum_accuracy r;
     sum_fastestHit := sum_fastestHit r;
     sum_avgReaction := sum_avgReaction r;
     sum_maxStreak := sum_maxStreak r |}.

(** The event is a tap on the hazard tile. *)
Definition hazardTap (w : World) (e : Event) : bool :=
  match e with
  | Tap cellIndex _ _ => isHazard (render w) cellIndex
  | _ => false
  end.

(** A handler calls [onFinish] at most once, and the status is then
    [done]; the summary is the one of the state the handler leaves, but
    for its score, which is the [scoreRef] of before the handler.  The
    score on screen is the one of before the handler as well, unless the
    handler is the hazard branch ([hz]), whose updater lowers it. *)
Definition Emits (hz : bool) (w w' : World) : Prop :=
  finished w' = finished w
  \/ (finished w' = scored (scoreRef (refs w)) (summary w') :: finished w
      /\ status (view w') = done
      /\ score (view w')
         = if hz then Z.max (score (view w) - 10) 0 else score (view w)).

(** The [n]-th draw of the stream after [pos], as a tile. *)
Definition draw (count : Z) (pos n : nat) : Z :=
  Math_floor (random (pos + n)%nat * inject_Z count).

(** *** The score pop-ups

    [pops] is state and [popIdRef] a ref of their own; the timeout
    [spawnPop] sets removes the pop-up by its id after 750 ms, and
    [reset] and the difficulty effect empty the list ([setPops([])]). *)
Record Pop := {
  pop_id : Z;
  pop_text : JsString;
  pop_x : Q;
  pop_y : Q
}.

Record PopState := { popIdRef : Z; pops : list Pop }.

Definition spawnPop (grid : Grid) (cellIdx : Z) (text : JsString)
    (st : PopState) : PopState :=
  let id := (popIdRef st + 1)%Z in
  let '(x, y) := popPosition grid cellIdx in
  {| popIdRef := id;
     pops := pops st
             ++ [{| pop_id := id; pop_text := text;
                    pop_x := x; pop_y := y |}] |}.

(** The timeout: [setPops((prev) => prev.filter((p) => p.id !== id))]. *)
Definition popTimeout (id : Z) (st : PopState) : PopState :=
  {| popIdRef := popIdRef st;
     pops := filter (fun p => negb (pop_id p =? id)%Z) (pops st) |}.

Definition clearPops (st : PopState) : PopState :=
  {| popIdRef := popIdRef st; pops := [] |}.

Inductive PopEvent :=
| PopSpawn (grid : Grid) (cellIdx : Z) (text : JsString)
| PopTimeout (id : Z)
| PopClear.

Definition popStep (st : PopState) (e : PopEvent) : PopState :=
  match e with
  | PopSpawn grid cellIdx text => spawnPop grid cellIdx text st
  | PopTimeout id => popTimeout id st
  | PopClear => clearPops st
  end.

Definition popRun (st : PopState) (es : list PopEvent) : PopState :=
  fold_left popStep es st.

Definition noPops : PopState := {| popIdRef := 0; pops := [] |}.

(** The ids on screen increase along the list and are at most the
    counter. *)
Definition PopsOrdered (st : PopState) : Prop :=
  (0 <= popIdRef st)%Z
  /\ StronglySorted Z.lt (map pop_id (pops st))
  /\ Forall (fun p => (0 < pop_id p <= popIdRef st)%Z) (pops st).

(** The statistics against each other: the streaks never exceed the
    hits, and the fastest reaction, rounded, is at most half a
    millisecond above the mean of the reactions. *)
Definition RefsPaced (w : World) : Prop :=
  (0 <= hitsRef (refs w))%Z
  /\ (streak (view w) <= hitsRef (refs w))%Z
  /\ (maxStreakRef (refs w) <= hitsRef (refs w))%Z
  /\ match fastestHitRef (refs w) with
     | None => hitsRef (refs w) = 0%Z /\ totalReactionRef (refs w) == 0
     | Some f =>
         (inject_Z f - (1 # 2)) * inject_Z (hitsRef (refs w))
         <= totalReactionRef (refs w)
     end.

Definition PacedSummary (r : RunSummary) : Prop :=
  (sum_maxStreak r <= sum_hits r)%Z
  /\ forall f a,
       sum_fastestHit r = Some f -> sum_avgReaction r = Some a ->
       (f <= a)%Z.

Definition Paced (w : World) : Prop :=
  RefsPaced w /\ Forall PacedSummary (finished w).

(** *** The badge of the Run Complete overlay

    [personalBest] is the prop the application passes, an [App.Number]
    since what it reads from storage may be [NaN]; the score is taken to
    be a safe integer. *)
Definition isNewBest (personalBest : App.Number) (w : World) : bool :=
  Status_eqb (status (view w)) done
  && App.above personalBest 0
  && App.below personalBest (score (view w)).

Definition isFirstBest (personalBest : App.Number) (w : World) : bool :=
  Status_eqb (status (view w)) done
  && App.strictEq personalBest 0
  && (0 <? score (view w))%Z.

(** *** What rewards the player

    A correct tap: a tap, while playing, of the target when it is not
    also the hazard.  A restart: the Start / Play Again / Restart button
    or the space bar. *)
Definition isCorrectTap (w : World) (e : Event) : Prop :=
  match e with
  | Tap cellIndex _ _ =>
      status (view w) = playing
      /\ cellIndex = activeCell (view w)
      /\ hazardCell (view w) <> Some cellIndex
  | _ => False
  end.

Definition isRestart (e : Event) : Prop :=
  match e with
  | ClickStart _ | KeyDown Space _ => True
  | _ => False
  end.

(** The counters that a reward raises did not go up from [w] to [w']. *)
Definition Unrewarded (w w' : World) : Prop :=
  (score (view w') <= score (view w))%Z
  /\ (hits (view w') <= hits (view w))%Z
  /\ (streak (view w') <= streak (view w))%Z.

(** *** The listener and the grid *)

(** The listener in place is the one of the current render. *)
Definition Fresh (w : World) : Prop := keyListener w = currentProps.

(** The target and the hazard are among the first [n] tiles. *)
Definition Within (n : Z) (w : World) : Prop :=
  (0 <= activeCell (view w) < n)%Z
  /\ forall h, hazardCell (view w) = Some h -> (0 <= h < n)%Z.

(** The tiles the state of [w] can come to name once the props are the
    current ones: those of the current grid and, when [w] is idle, those
    of the grid of the listener it has in place. *)
Definition reach (w : World) : Z :=
  if Status_eqb (status (view w)) idle
  then Z.max cellCount (l_cellCount (keyListener w))
  else cellCount.

(** *** The clock

    The readings of [performance.now()] an event makes, in order: a tap
    reads the clock in the handler and again when the next target is
    spawned. *)
Definition readings (e : Event) : list Q :=
  match e with
  | Tick | ClickResume => []
  | Deadline spawnNow => [spawnNow]
  | Tap _ now spawnNow => [now; spawnNow]
  | ClickStart now | KeyDown _ now => [now]
  end.

(** Successive readings of a monotonic clock, none before [t]. *)
Fixpoint monotonic (t : Q) (l : list Q) : Prop :=
  match l with
  | [] => True
  | x :: l => t <= x /\ monotonic x l
  end.

(** The events carry the readings of a monotonic clock last read at
    [t]. *)
Definition Clocked (t : Q) (events : list Event) : Prop :=
  monotonic t (flat_map readings events).

(** * Properties *)

(** ** Arithmetic *)

Lemma Math_max_cases (a b : Q) :
  (a < b /\ Math_max a b == b) \/ (b <= a /\ Math_max a b == a).
Proof. exact (Q.max_spec a b). Qed.

Lemma Math_min_cases (a b : Q) :
  (a < b /\ Math_min a b == a) \/ (b <= a /\ Math_min a b == b).
Proof. exact (Q.min_spec a b). Qed.

Lemma Math_max_ge_l (a b : Q) : a <= Math_max a b.
Proof. destruct (Math_max_cases a b) as [[? ->]|[? ->]]; lra. Qed.

Lemma Math_max_ge_r (a b : Q) : b <= Math_max a b.
Proof. destruct (Math_max_cases a b) as [[? ->]|[? ->]]; lra. Qed.

Lemma Math_max_lub (a b c : Q) : a <= c -> b <= c -> Math_max a b <= c.
Proof. destruct (Math_max_cases a b) as [[? ->]|[? ->]]; lra. Qed.

Lemma Math_max_mono_r (a b b' : Q) : b <= b' -> Math_max a b <= Math_max a b'.
Proof.
  intros Hb.
  destruct (Math_max_cases a b) as [[? ->]|[? ->]];
    destruct (Math_max_cases a b') as [[? ->]|[? ->]]; lra.
Qed.

Lemma clamp_range (v lo hi : Q) : lo <= hi -> lo <= clamp v lo hi <= hi.
Proof.
  intros Hle. unfold clamp.
  destruct (Math_min_cases (Math_max v lo) hi) as [[H ->]|[H ->]].
  - split; [apply Math_max_ge_r | lra].
  - lra.
Qed.

Lemma Qlt_bool_iff (a b : Q) : Qlt_bool a b = true <-> a < b.
Proof.
  unfold Qlt_bool. rewrite negb_true_iff.
  destruct (Qle_bool b a) eqn:E.
  - apply Qle_bool_iff in E. split; [discriminate | lra].
  - split; [intros _ | reflexivity].
    apply Qnot_le_lt. intro H. apply Qle_bool_iff in H. congruence.
Qed.

Lemma Qle_bool_false (a b : Q) : Qle_bool a b = false <-> b < a.
Proof.
  destruct (Qle_bool a b) eqn:E.
  - apply Qle_bool_iff in E. split; [discriminate | lra].
  - split; [intros _ | reflexivity].
    apply Qnot_le_lt. intro H. apply Qle_bool_iff in H. congruence.
Qed.

(** Rounding to hundredths moves a value by at most half a hundredth. *)
Lemma toFixed2_upper (x : Q) : toFixed2 x <= x + (1 # 200).
Proof.
  unfold toFixed2. destruct (Qle_bool 0 x).
  - pose proof (Qfloor_le (x * 100 + (1 # 2))) as H.
    generalize dependent (inject_Z (Qfloor (x * 100 + (1 # 2)))).
    intros f H. unfold Qdiv. change (/ 100) with (1 # 100). lra.
  - pose proof (Qlt_floor (- x * 100 + (1 # 2))) as H.
    rewrite inject_Z_plus in H. change (inject_Z 1) with 1 in H.
    generalize dependent (inject_Z (Qfloor (- x * 100 + (1 # 2)))).
    intros f H. unfold Qdiv. change (/ 100) with (1 # 100). lra.
Qed.

Lemma Status_eqb_eq (a b : Status) : Status_eqb a b = true <-> a = b.
Proof. destruct a, b; simpl; split; congruence. Qed.

(** The arithmetic respects the equality of rationals. *)
#[global] Instance Math_max_comp : Proper (Qeq ==> Qeq ==> Qeq) Math_max.
Proof. exact Q.max_compat. Qed.

#[global] Instance Math_min_comp : Proper (Qeq ==> Qeq ==> Qeq) Math_min.
Proof. exact Q.min_compat. Qed.

#[global] Instance clamp_comp : Proper (Qeq ==> Qeq ==> Qeq ==> Qeq) clamp.
Proof. intros a a' Ha b b' Hb c c' Hc. unfold clamp. now rewrite Ha, Hb, Hc. Qed.

#[global] Instance Math_round_comp : Proper (Qeq ==> eq) Math_round.
Proof. intros a a' Ha. unfold Math_round. now rewrite Ha. Qed.

#[global] Instance toFixed2_comp : Proper (Qeq ==> Qeq) toFixed2.
Proof.
  intros a a' Ha. unfold toFixed2.
  rewrite (Qleb_comp 0 0 (Qeq_refl 0) a a' Ha).
  destruct (Qle_bool 0 a'); now rewrite Ha.
Qed.

(** ** The target selector *)

(** [Math.random()] returns a number in [0, 1). *)
Hypothesis random_range : forall n, 0 <= random n < 1.

Lemma draw_range (count : Z) (pos : nat) :
  (1 <= count)%Z ->
  (0 <= Math_floor (random pos * inject_Z count) < count)%Z.
Proof.
  intros Hc. unfold Math_floor.
  destruct (random_range pos) as [H0 H1].
  assert (Hcq : 0 < inject_Z count).
  { change 0 with (inject_Z 0). rewrite <- Zlt_Qlt. lia. }
  split.
  - rewrite <- (Qfloor_Z 0). apply Qfloor_resp_le.
    apply Qmult_le_0_compat; lra.
  - rewrite Zlt_Qlt.
    apply Qle_lt_trans with (random pos * inject_Z count).
    + apply Qfloor_le.
    + setoid_replace (inject_Z count) with (1 * inject_Z count) at 2 by ring.
      apply Qmult_lt_compat_r; assumption.
Qed.

Lemma has_In (disallow : list Z) (next : Z) :
  has disallow next = true <-> In next disallow.
Proof.
  unfold has. rewrite existsb_exists. split.
  - intros (x & Hin & Heq). apply Z.eqb_eq in Heq. now subst.
  - intros Hin. exists next. split; [assumption | apply Z.eqb_refl].
Qed.

(** The loop stops within its budget; its result is the value it started
    from when it drew nothing, the last draw otherwise; and it stops on a
    rejected value only with the budget used up. *)
Lemma pickCell_while_spec (budget : nat) (disallow : list Z) (count : Z) :
  forall next pos,
    let res := pickCell_while random budget disallow count next pos in
    (pos <= snd res <= pos + budget)%nat
    /\ (snd res = pos -> fst res = next)
    /\ ((pos < snd res)%nat ->
        fst res = Math_floor (random (snd res - 1) * inject_Z count))
    /\ (has disallow (fst res) = true -> snd res = (pos + budget)%nat).
Proof.
  induction budget as [|b IH]; intros next pos; cbn [pickCell_while].
  - cbn [fst snd]. repeat split; lia.
  - destruct (has disallow next) eqn:Hhas; cbn zeta.
    + specialize (IH (Math_floor (random pos * inject_Z count)) (S pos)).
      cbn zeta in IH.
      destruct (pickCell_while random b disallow count _ (S pos))
        as [n' p'].
      cbn [fst snd] in *. destruct IH as (Hb & Hsame & Hdraw & Hrej).
      repeat split; try lia.
      * intros Hlt. destruct (Nat.eq_dec p' (S pos)) as [E|E].
        -- rewrite (Hsame E), E. cbn. now rewrite Nat.sub_0_r.
        -- apply Hdraw. lia.
      * intros H. rewrite (Hrej H). lia.
    + cbn [fst snd]. repeat split; try lia. congruence.
Qed.


(** The first test of the loop always fails ([previous] is disallowed),
    so the result is a draw. *)
Lemma pickCell_draws (previous : Z) (banned : list Z) (count : Z)
    (pos : nat) :
  let res := pickCell random previous banned count pos in
  (pos < snd res <= pos + 40)%nat
  /\ fst res = Math_floor (random (snd res - 1)%nat * inject_Z count)
  /\ (has (previous :: banned) (fst res) = true ->
      snd res = (pos + 40)%nat).
Proof.
  intros res.
  pose proof (pickCell_while_spec 40 (previous :: banned) count
                previous pos) as H.
  fold (pickCell random previous banned count pos) in H. fold res in H.
  cbn zeta in H. destruct H as (Hb & Hsame & Hdraw & Hrej).
  assert (Hpos : (pos < snd res)%nat).
  { destruct (Nat.eq_dec (snd res) pos) as [E|E]; [|lia].
    exfalso.
    specialize (Hrej ltac:(rewrite (Hsame E); apply has_In; now left)).
    lia. }
  repeat split; try lia; auto.
Qed.

Lemma pickCell_in_range (previous : Z) (banned : list Z) (count : Z)
    (pos : nat) :
  (1 <= count)%Z ->
  (0 <= fst (pickCell random previous banned count pos) < count)%Z.
Proof.
  intros Hc. destruct (pickCell_draws previous banned count pos)
    as (_ & -> & _).
  now apply draw_range.
Qed.

(** C7 (amended).  With draws in [0, 1) and [cellCount >= 1], [pickCell]
    makes at least one and at most 40 draws and returns the last one, an
    index in [0, cellCount).  That index is outside {previous} and the
    excluded set unless all 40 draws were rejected; then the 40th draw is
    returned, which is [previous] or an excluded index, and is [previous]
    itself when nothing but [previous] is excluded (the case of every call
    in the component). *)
Theorem pickCell_result (previous : Z) (banned : list Z) (count : Z)
    (pos : nat) :
  (1 <= count)%Z ->
  let res := pickCell random previous banned count pos in
  (pos < snd res <= pos + 40)%nat
  /\ fst res = Math_floor (random (snd res - 1)%nat * inject_Z count)
  /\ (0 <= fst res < count)%Z
  /\ (~ In (fst res) (previous :: banned)
      \/ (snd res = (pos + 40)%nat /\ In (fst res) (previous :: banned)))
  /\ ((forall b, In b banned -> b = previous) ->
      In (fst res) (previous :: banned) -> fst res = previous).
Proof.
  intros Hc res.
  destruct (pickCell_draws previous banned count pos) as (Hb & Hres & Hrej).
  fold res in Hb, Hres, Hrej.
  split; [exact Hb|]. split; [exact Hres|].
  split; [now apply pickCell_in_range|].
  split.
  - destruct (has (previous :: banned) (fst res)) eqn:E.
    + right. split; [auto | now apply has_In].
    + left. intros Hin. apply has_In in Hin. congruence.
  - intros Honly [Heq | Hin]; [congruence | now apply Honly].
Qed.

(** ** The reaction deadline *)

Lemma difficultyWindow_floor (score streak : Z) :
  paceFloor settings <= difficultyWindow score streak.
Proof. apply Math_max_ge_l. Qed.

Lemma difficultyWindow_antitone (score1 streak1 score2 streak2 : Z) :
  0 <= paceScoreFactor settings -> 0 <= paceStreakFactor settings ->
  (score1 <= score2)%Z -> (streak1 <= streak2)%Z ->
  difficultyWindow score2 streak2 <= difficultyWindow score1 streak1.
Proof.
  intros Hf Hg Hs Ht. unfold difficultyWindow. apply Math_max_mono_r.
  rewrite Zle_Qle in Hs, Ht.
  pose proof (Qmult_le_compat_r _ _ _ Hs Hf).
  pose proof (Qmult_le_compat_r _ _ _ Ht Hg).
  lra.
Qed.


(** ** Shapes of the handlers *)

(** [endRun] does nothing on a latched instance; otherwise it sets the
    latch, sets the status to [done] and calls [onFinish] once. *)
Lemma endRun_latched (w : World) :
  finishedRef (refs w) = true -> endRun w = w.
Proof. intros H. unfold endRun. now rewrite H. Qed.

Lemma endRun_fresh (w : World) :
  finishedRef (refs w) = false ->
  endRun w = emit (summary w) (setStatus done (finishedRef_set true w)).
Proof. intros H. unfold endRun. now rewrite H. Qed.

Lemma endRun_cases (w : World) :
  endRun w = w
  \/ endRun w = emit (summary w) (setStatus done (finishedRef_set true w)).
Proof.
  destruct (finishedRef (refs w)) eqn:E;
    [left; now apply endRun_latched | right; now apply endRun_fresh].
Qed.

(** A spawn writes the active cell, the hazard cell, the spawn time and
    the stream position, and nothing else. *)
Lemma spawnNewTarget_shape (now : Q) (w : World) :
  exists next hz p,
    spawnNewTarget now w
    = withRng p
        (setActiveCell next (setHazardCell hz (spawnTimeRef_set now w)))
    /\ next
       = fst (pickCell random (activeCell (view w)) [] cellCount (rngPos w))
    /\ hz
       = fst (hazardDraw random settings cellCount next
                (snd (pickCell random (activeCell (view w)) [] cellCount
                        (rngPos w)))).
Proof.
  unfold spawnNewTarget.
  destruct (pickCell random (activeCell (view w)) [] cellCount (rngPos w))
    as [next p1].
  destruct (hazardDraw random settings cellCount next p1) as [hz p2] eqn:E.
  exists next, hz, p2. cbn [fst snd]. rewrite E. now split.
Qed.

Lemma spawnNewTarget_frame (now : Q) (w : World) :
  let w' := spawnNewTarget now w in
  status (view w') = status (view w)
  /\ timeLeft (view w') = timeLeft (view w)
  /\ score (view w') = score (view w)
  /\ streak (view w') = streak (view w)
  /\ misses (view w') = misses (view w)
  /\ hits (view w') = hits (view w)
  /\ fastestHit (view w') = fastestHit (view w)
  /\ totalReactionMs (view w') = totalReactionMs (view w)
  /\ finished w' = finished w
  /\ spawnTimeRef (refs w') = now
  /\ finishedRef (refs w') = finishedRef (refs w)
  /\ scoreRef (refs w') = scoreRef (refs w)
  /\ timeLeftRef (refs w') = timeLeftRef (refs w)
  /\ hitsRef (refs w') = hitsRef (refs w)
  /\ missesRef (refs w') = missesRef (refs w)
  /\ fastestHitRef (refs w') = fastestHitRef (refs w)
  /\ totalReactionRef (refs w') = totalReactionRef (refs w)
  /\ maxStreakRef (refs w') = maxStreakRef (refs w).
Proof.
  destruct (spawnNewTarget_shape now w) as (n & hz & p & E & _).
  cbn zeta. rewrite E. repeat split.
Qed.

Lemma applyTimePenalty_ended (amount : Q) (w : World) :
  Math_max 0 (timeLeftRef (refs w) - amount) <= 0 ->
  applyTimePenalty amount w = (endRun (penalised amount w), true).
Proof.
  intros H. unfold applyTimePenalty.
  apply Qle_bool_iff in H. cbn zeta. now rewrite H.
Qed.

Lemma applyTimePenalty_alive (amount : Q) (w : World) :
  0 < Math_max 0 (timeLeftRef (refs w) - amount) ->
  applyTimePenalty amount w = (penalised amount w, false).
Proof.
  intros H. unfold applyTimePenalty.
  apply Qle_bool_false in H. cbn zeta. now rewrite H.
Qed.

Lemma applyTimePenalty_cases (amount : Q) (w : World) :
  (Math_max 0 (timeLeftRef (refs w) - amount) <= 0
   /\ applyTimePenalty amount w = (endRun (penalised amount w), true))
  \/ (0 < Math_max 0 (timeLeftRef (refs w) - amount)
      /\ applyTimePenalty amount w = (penalised amount w, false)).
Proof.
  destruct (Qlt_le_dec 0 (Math_max 0 (timeLeftRef (refs w) - amount))).
  - right. split; [assumption | now apply applyTimePenalty_alive].
  - left. split; [assumption | now apply applyTimePenalty_ended].
Qed.

(** ** The survival clock stays within its bounds *)

Lemma TimeInv_endRun (w : World) : TimeInv w -> TimeInv (endRun w).
Proof.
  intros H. destruct (endRun_cases w) as [-> | ->]; [assumption|].
  unfold TimeInv in *. simp_world. assumption.
Qed.

Lemma TimeInv_spawnNewTarget (now : Q) (w : World) :
  TimeInv w -> TimeInv (spawnNewTarget now w).
Proof.
  intros H. destruct (spawnNewTarget_shape now w) as (n & hz & p & -> & _).
  unfold TimeInv in *. simp_world. assumption.
Qed.

Lemma TimeInv_penalised (amount : Q) (w : World) :
  0 <= amount -> TimeInv w -> TimeInv (penalised amount w).
Proof.
  intros Ha (Ht & Hr). unfold TimeInv, penalised in *. simp_world.
  pose proof (Math_max_ge_l 0 (timeLeftRef (refs w) - amount)).
  assert (Math_max 0 (timeLeftRef (refs w) - amount) <= timeRewardCap settings)
    by (apply Math_max_lub; lra).
  lra.
Qed.

Lemma TimeInv_applyTimePenalty (amount : Q) (w : World) :
  0 <= amount -> TimeInv w -> TimeInv (fst (applyTimePenalty amount w)).
Proof.
  intros Ha H.
  destruct (applyTimePenalty_cases amount w) as [[_ ->] | [_ ->]];
    cbn [fst]; [apply TimeInv_endRun|]; now apply TimeInv_penalised.
Qed.

Lemma TimeInv_countdownTick (w : World) :
  TimeInv w -> TimeInv (countdownTick w).
Proof.
  intros (Ht & Hr). unfold countdownTick. cbn zeta.
  pose proof (toFixed2_upper (timeLeft (view w) - (1 # 10))) as Hup.
  destruct (Qle_bool (toFixed2 (timeLeft (view w) - (1 # 10))) 0) eqn:E.
  - destruct (endRun_cases
                (timeLeftRef_set (toFixed2 (timeLeft (view w) - (1 # 10))) w))
      as [-> | ->]; unfold TimeInv; simp_world; lra.
  - apply Qle_bool_false in E. unfold TimeInv. simp_world. lra.
Qed.

(** ** The listener in place

    No handler touches it: only a change of the props does. *)

Lemma keyListener_endRun (w : World) :
  keyListener (endRun w) = keyListener w.
Proof. destruct (endRun_cases w) as [-> | ->]; reflexivity. Qed.

Lemma keyListener_applyTimePenalty (amount : Q) (w : World) :
  keyListener (fst (applyTimePenalty amount w)) = keyListener w.
Proof.
  destruct (applyTimePenalty_cases amount w) as [[_ ->] | [_ ->]];
    cbn [fst]; [|reflexivity].
  now rewrite keyListener_endRun.
Qed.

Lemma keyListener_spawnNewTarget (now : Q) (w : World) :
  keyListener (spawnNewTarget now w) = keyListener w.
Proof.
  destruct (spawnNewTarget_shape now w) as (n & hz & p & -> & _).
  reflexivity.
Qed.

Lemma keyListener_penalty_then_spawn (amount spawnNow : Q) (w : World) :
  keyListener (let '(w', ended) := applyTimePenalty amount w in
               if ended then w' else spawnNewTarget spawnNow w')
  = keyListener w.
Proof.
  pose proof (keyListener_applyTimePenalty amount w) as H.
  destruct (applyTimePenalty amount w) as [w' ended]. cbn [fst] in H.
  destruct ended; [exact H|]. now rewrite keyListener_spawnNewTarget.
Qed.

Lemma keyListener_reset (s : Settings) (c : Z) (now : Q) (w : World) :
  keyListener (reset random s c playerName now w) = keyListener w.
Proof.
  unfold reset. destruct (nameMissing playerName); [reflexivity|].
  cbn zeta.
  destruct (pickCell random (-1)%Z [] c _) as [next p1].
  destruct (if Qlt_bool 0 _ then _ else _) as [hz p2].
  reflexivity.
Qed.

Lemma keyListener_countdownTick (w : World) :
  keyListener (countdownTick w) = keyListener w.
Proof.
  unfold countdownTick. cbn zeta. destruct (Qle_bool _ 0); [|reflexivity].
  change (keyListener (endRun (timeLeftRef_set
            (toFixed2 (timeLeft (view w) - (1 # 10))) w)) = keyListener w).
  now rewrite keyListener_endRun.
Qed.

Lemma keyListener_registerMiss (r : Render) (spawnNow : Q) (w : World) :
  keyListener (registerMiss r spawnNow w) = keyListener w.
Proof.
  unfold registerMiss. destruct (negb _); [reflexivity|]. cbn zeta.
  now rewrite keyListener_penalty_then_spawn.
Qed.

(** The hazard branch with the updater of the score brought out. *)
Lemma hazard_last (p : World * bool) (f : World -> World) :
  (let '(w, ended) := p in hazardScore (if ended then w else f w))
  = hazardScore (let '(w, ended) := p in if ended then w else f w).
Proof. destruct p as [w []]; reflexivity. Qed.

Lemma keyListener_registerHit (r : Render) (cellIndex : Z)
    (now spawnNow : Q) (w : World) :
  keyListener (registerHit r cellIndex now spawnNow w) = keyListener w.
Proof.
  unfold registerHit. destruct (negb (Status_eqb _ _)); [reflexivity|].
  destruct (isHazard r cellIndex); [|destruct (negb _)]; cbn zeta.
  - rewrite hazard_last.
    change (keyListener (hazardScore ?x)) with (keyListener x).
    now rewrite keyListener_penalty_then_spawn.
  - now rewrite keyListener_applyTimePenalty.
  - rewrite keyListener_spawnNewTarget.
    unfold bankTime, extendStreak, awardPoints, recordReaction.
    cbn zeta. repeat break_world; reflexivity.
Qed.

Lemma keyListener_step (w : World) (e : Event) :
  keyListener (step w e) = keyListener w.
Proof.
  destruct e; cbn [step].
  - destruct (Status_eqb _ _); [apply keyListener_countdownTick|reflexivity].
  - destruct (Status_eqb _ _); [apply keyListener_registerMiss|reflexivity].
  - apply keyListener_registerHit.
  - destruct (Status_eqb _ _); [reflexivity | apply keyListener_reset].
  - destruct (Status_eqb _ _); [|reflexivity].
    unfold resumeGame. destruct (Status_eqb _ _); reflexivity.
  - unfold onKey. destruct k.
    + destruct (_ && _); [|reflexivity]. cbn zeta.
      apply keyListener_reset.
    + destruct (Status_eqb _ playing); [reflexivity|].
      destruct (Status_eqb _ paused); reflexivity.
    + destruct (Status_eqb _ playing); [reflexivity|].
      destruct (Status_eqb _ paused); reflexivity.
Qed.

Lemma keyListener_run (es : list Event) (w : World) :
  keyListener (run w es) = keyListener w.
Proof.
  unfold run. revert w.
  induction es as [|e es IH]; intros w; cbn [fold_left]; [reflexivity|].
  now rewrite IH, keyListener_step.
Qed.

Lemma keyListener_calls (cs : list Call) (w : World) :
  keyListener (calls w cs) = keyListener w.
Proof.
  unfold calls. revert w.
  induction cs as [|c cs IH]; intros w; cbn [fold_left]; [reflexivity|].
  rewrite IH. destruct c; cbn [call].
  - apply keyListener_countdownTick.
  - apply keyListener_registerMiss.
  - apply keyListener_registerHit.
  - apply keyListener_endRun.
Qed.

Lemma Fresh_mount (now : Q) : Fresh (mount now).
Proof.
  unfold Fresh, mount, difficultyEffect.
  destruct (pickCell random (-1)%Z [] cellCount 0) as [cell p]. cbn zeta.
  destruct (pickCell random (-1)%Z [] cellCount _) as [next p1].
  reflexivity.
Qed.

Lemma Fresh_run (es : list Event) (w : World) :
  Fresh w -> Fresh (run w es).
Proof. unfold Fresh. now rewrite keyListener_run. Qed.

Lemma Fresh_calls (cs : list Call) (w : World) :
  Fresh w -> Fresh (calls w cs).
Proof. unfold Fresh. now rewrite keyListener_calls. Qed.

(** With the listener of the current render, Space calls the current
    [reset]. *)
Lemma onKey_fresh (r : Render) (now : Q) (w : World) :
  Fresh w ->
  onKey r Space now w
  = if (Status_eqb (r_status r) idle || Status_eqb (r_status r) done)
       && negb (List.length (trim playerName) =? 0)%nat
    then reset random settings cellCount playerName now w
    else w.
Proof.
  intros F. unfold onKey. rewrite F.
  destruct (Status_eqb (r_status r) idle); reflexivity.
Qed.

Lemma TimeInv_ext (w w' : World) :
  timeLeft (view w') = timeLeft (view w) ->
  timeLeftRef (refs w') = timeLeftRef (refs w) ->
  TimeInv w -> TimeInv w'.
Proof. unfold TimeInv. intros -> ->. trivial. Qed.

(** After a penalty the handlers either stop or spawn. *)
Lemma TimeInv_penalty_then_spawn (amount spawnNow : Q) (w : World) :
  0 <= amount -> TimeInv w ->
  TimeInv (let '(w', ended) := applyTimePenalty amount w in
           if ended then w' else spawnNewTarget spawnNow w').
Proof.
  intros Ha H. pose proof (TimeInv_applyTimePenalty amount w Ha H) as H'.
  destruct (applyTimePenalty amount w) as [w' ended]. cbn [fst] in H'.
  destruct ended; [assumption | now apply TimeInv_spawnNewTarget].
Qed.

Lemma TimeInv_registerMiss (r : Render) (spawnNow : Q) (w : World) :
  GoodProfile -> TimeInv w -> TimeInv (registerMiss r spawnNow w).
Proof.
  intros G H. unfold registerMiss.
  destruct (negb (Status_eqb (r_status r) playing)); [assumption|].
  cbn zeta. apply TimeInv_penalty_then_spawn; [apply G|].
  revert H. apply TimeInv_ext; reflexivity.
Qed.

Lemma TimeInv_registerHit (r : Render) (cellIndex : Z) (now spawnNow : Q)
    (w : World) :
  GoodProfile -> TimeInv w -> TimeInv (registerHit r cellIndex now spawnNow w).
Proof.
  intros G H. pose proof (good_start G) as Hs. unfold registerHit.
  destruct (negb (Status_eqb (r_status r) playing)); [assumption|].
  destruct (isHazard r cellIndex).
  - cbn zeta. rewrite hazard_last.
    match goal with
    | |- ?P (hazardScore ?x) =>
        cut (P x); [apply TimeInv_ext; reflexivity|]
    end.
    apply TimeInv_penalty_then_spawn.
    + pose proof (good_miss G). lra.
    + revert H. apply TimeInv_ext; reflexivity.
  - destruct (negb (cellIndex =? r_activeCell r)%Z).
    + cbn zeta. apply TimeInv_applyTimePenalty; [apply G|].
      revert H. apply TimeInv_ext; reflexivity.
    + cbn zeta. apply TimeInv_spawnNewTarget.
      unfold TimeInv, bankTime. simp_world.
      match goal with
      | |- context [clamp ?x 0 ?hi] =>
          pose proof (clamp_range x 0 hi ltac:(lra))
      end.
      lra.
Qed.

Lemma TimeInv_reset (now : Q) (w : World) :
  GoodProfile -> TimeInv w ->
  TimeInv (reset random settings cellCount playerName now w).
Proof.
  intros G H. pose proof (good_start G) as Hs. unfold reset.
  destruct (nameMissing playerName); [assumption|]. cbn zeta.
  destruct (pickCell random (-1)%Z [] cellCount _) as [next p1].
  destruct (if Qlt_bool 0 _ then _ else _) as [hz p2].
  unfold TimeInv. simp_world. lra.
Qed.

Lemma TimeInv_difficultyEffect (w : World) :
  GoodProfile -> TimeInv (difficultyEffect w).
Proof.
  intros G. pose proof (good_start G) as Hs. unfold difficultyEffect.
  cbn zeta.
  destruct (pickCell random (-1)%Z [] cellCount _) as [next p1].
  unfold TimeInv. simp_world. lra.
Qed.

Lemma TimeInv_mount (now : Q) : GoodProfile -> TimeInv (mount now).
Proof.
  intros G. unfold mount.
  destruct (pickCell random (-1)%Z [] cellCount 0) as [cell p].
  now apply TimeInv_difficultyEffect.
Qed.

Lemma TimeInv_onKey (r : Render) (k : Key) (now : Q) (w : World) :
  GoodProfile -> Fresh w -> TimeInv w -> TimeInv (onKey r k now w).
Proof.
  intros G F H. destruct k.
  - rewrite onKey_fresh by exact F.
    destruct (_ && _); [now apply TimeInv_reset | assumption].
  - unfold onKey.
    destruct (Status_eqb (r_status r) playing); [exact H|].
    destruct (Status_eqb (r_status r) paused); exact H.
  - unfold onKey.
    destruct (Status_eqb (r_status r) playing); [exact H|].
    destruct (Status_eqb (r_status r) paused); exact H.
Qed.

Lemma TimeInv_call (w : World) (c : Call) :
  GoodProfile -> TimeInv w -> TimeInv (call w c).
Proof.
  intros G H. destruct c; cbn [call].
  - now apply TimeInv_countdownTick.
  - now apply TimeInv_registerMiss.
  - now apply TimeInv_registerHit.
  - now apply TimeInv_endRun.
Qed.

Lemma TimeInv_step (w : World) (e : Event) :
  GoodProfile -> Fresh w -> TimeInv w -> TimeInv (step w e).
Proof.
  intros G F H. destruct e; cbn [step].
  - destruct (Status_eqb _ _); [now apply TimeInv_countdownTick | assumption].
  - destruct (Status_eqb _ _); [now apply TimeInv_registerMiss | assumption].
  - now apply TimeInv_registerHit.
  - destruct (Status_eqb _ _); [assumption | now apply TimeInv_reset].
  - destruct (Status_eqb _ _); [|assumption].
    unfold resumeGame. destruct (Status_eqb _ _); exact H.
  - now apply TimeInv_onKey.
Qed.

Lemma TimeInv_run (es : list Event) (w : World) :
  GoodProfile -> Fresh w -> TimeInv w -> TimeInv (run w es).
Proof.
  intros G. revert w. unfold run.
  induction es as [|e es IH]; intros w F H; cbn [fold_left]; [assumption|].
  apply IH; [|now apply TimeInv_step].
  unfold Fresh. now rewrite keyListener_step.
Qed.

Lemma TimeInv_calls (cs : list Call) (w : World) :
  GoodProfile -> TimeInv w -> TimeInv (calls w cs).
Proof.
  intros G. revert w. unfold calls.
  induction cs as [|c cs IH]; intros w H; cbn [fold_left]; [assumption|].
  apply IH. now apply TimeInv_call.
Qed.

(** ** The one-shot latch *)

Lemma Latch_refl (w : World) : Latch w w.
Proof. left. repeat split. Qed.

Lemma Latch_trans (a b c : World) : Latch a b -> Latch b c -> Latch a c.
Proof.
  intros [(F1 & E1 & S1) | (F1 & T1 & D1 & r1 & E1)]
         [(F2 & E2 & S2) | (F2 & T2 & D2 & r2 & E2)].
  - left. repeat split; congruence.
  - right. repeat split; try congruence. exists r2. congruence.
  - right. repeat split; try congruence. exists r1. congruence.
  - congruence.
Qed.

(** A change that leaves the latch, the summaries and the status alone. *)
Lemma Latch_quiet (w w' : World) :
  finishedRef (refs w') = finishedRef (refs w) ->
  finished w' = finished w ->
  status (view w') = status (view w) ->
  Latch w w'.
Proof. intros. left. now repeat split. Qed.

Lemma Latch_endRun (w : World) : Latch w (endRun w).
Proof.
  destruct (finishedRef (refs w)) eqn:E.
  - rewrite endRun_latched by assumption. apply Latch_refl.
  - rewrite endRun_fresh by assumption. right.
    repeat split; try assumption. now exists (summary w).
Qed.

Lemma Latch_spawnNewTarget (now : Q) (w : World) :
  Latch w (spawnNewTarget now w).
Proof.
  destruct (spawnNewTarget_shape now w) as (n & hz & p & -> & _).
  now apply Latch_quiet.
Qed.

Lemma Latch_applyTimePenalty (amount : Q) (w : World) :
  Latch w (fst (applyTimePenalty amount w)).
Proof.
  destruct (applyTimePenalty_cases amount w) as [[_ ->] | [_ ->]]; cbn [fst].
  - apply Latch_trans with (penalised amount w);
      [now apply Latch_quiet | apply Latch_endRun].
  - now apply Latch_quiet.
Qed.

Lemma Latch_penalty_then_spawn (amount spawnNow : Q) (w : World) :
  Latch w (let '(w', ended) := applyTimePenalty amount w in
           if ended then w' else spawnNewTarget spawnNow w').
Proof.
  pose proof (Latch_applyTimePenalty amount w) as H.
  destruct (applyTimePenalty amount w) as [w' ended]. cbn [fst] in H.
  destruct ended; [assumption|].
  eapply Latch_trans; [exact H | apply Latch_spawnNewTarget].
Qed.

Lemma Latch_countdownTick (w : World) : Latch w (countdownTick w).
Proof.
  unfold countdownTick. cbn zeta.
  destruct (Qle_bool _ 0); [|now apply Latch_quiet].
  match goal with
  | |- Latch _ (setTimeLeft 0 (endRun ?w1)) =>
      apply Latch_trans with w1; [now apply Latch_quiet|];
      apply Latch_trans with (endRun w1);
      [apply Latch_endRun | now apply Latch_quiet]
  end.
Qed.

Lemma Latch_registerMiss (r : Render) (spawnNow : Q) (w : World) :
  Latch w (registerMiss r spawnNow w).
Proof.
  unfold registerMiss.
  destruct (negb _); [apply Latch_refl|]. cbn zeta.
  eapply Latch_trans; [|apply Latch_penalty_then_spawn].
  now apply Latch_quiet.
Qed.

Lemma Latch_registerHit (r : Render) (cellIndex : Z) (now spawnNow : Q)
    (w : World) :
  Latch w (registerHit r cellIndex now spawnNow w).
Proof.
  unfold registerHit.
  destruct (negb (Status_eqb _ _)); [apply Latch_refl|].
  destruct (isHazard r cellIndex); [|destruct (negb _)]; cbn zeta.
  - rewrite hazard_last.
    match goal with
    | |- Latch _ (hazardScore ?x) =>
        apply Latch_trans with x; [|now apply Latch_quiet]
    end.
    eapply Latch_trans; [|apply Latch_penalty_then_spawn].
    now apply Latch_quiet.
  - eapply Latch_trans; [|apply Latch_applyTimePenalty].
    now apply Latch_quiet.
  - eapply Latch_trans; [|apply Latch_spawnNewTarget].
    apply Latch_quiet;
      unfold bankTime, extendStreak, awardPoints, recordReaction;
      repeat break_world; reflexivity.
Qed.

Lemma Latch_call (w : World) (c : Call) : Latch w (call w c).
Proof.
  destruct c; cbn [call].
  - apply Latch_countdownTick.
  - apply Latch_registerMiss.
  - apply Latch_registerHit.
  - apply Latch_endRun.
Qed.

Lemma Latch_calls (cs : list Call) (w : World) : Latch w (calls w cs).
Proof.
  revert w. unfold calls.
  induction cs as [|c cs IH]; intros w; cbn [fold_left];
    [apply Latch_refl|].
  eapply Latch_trans; [apply Latch_call | apply IH].
Qed.

(** C2.  From an instance whose latch is open, whatever handlers run and
    in whatever order (interval ticks, deadline expiries and taps, each
    with any closure, and direct calls of [endRun]), [onFinish] is called
    at most once, and exactly once if the latch ends up set, the status
    then being [done]; once the latch is set, [endRun] is the identity
    and no later handler calls [onFinish] again.  The tick and the
    penalty that bring the clock to 0 do make the call.  An accepted
    [reset] opens the latch again. *)
Theorem summary_emitted_once (w : World) (racing later : list Call)
    (amount now : Q) :
  finishedRef (refs w) = false ->
  let w1 := calls w racing in
  let w2 := calls w1 later in
  ((finishedRef (refs w1) = false /\ finished w1 = finished w)
   \/ (finishedRef (refs w1) = true /\ status (view w1) = done
       /\ exists r, finished w1 = r :: finished w))
  /\ (finishedRef (refs w1) = true ->
      endRun w1 = w1 /\ finished w2 = finished w1
      /\ finishedRef (refs w2) = true)
  /\ (toFixed2 (timeLeft (view w) - (1 # 10)) <= 0 ->
      Finalised w (countdownTick w))
  /\ (Math_max 0 (timeLeftRef (refs w) - amount) <= 0 ->
      Finalised w (fst (applyTimePenalty amount w)))
  /\ (nameMissing playerName = false ->
      finishedRef (refs (reset random settings cellCount playerName now w2))
      = false).
Proof.
  intros Hopen w1 w2. repeat apply conj.
  - pose proof (Latch_calls racing w) as L. fold w1 in L.
    destruct L as [(F & E & _) | (_ & T & D & r & E)].
    + left. split; congruence.
    + right. repeat split; try assumption. now exists r.
  - intros Hset. split; [now apply endRun_latched|].
    pose proof (Latch_calls later w1) as L. fold w2 in L.
    destruct L as [(F & E & _) | (F & _)]; [split; congruence | congruence].
  - intros Hzero. unfold countdownTick. cbn zeta.
    apply Qle_bool_iff in Hzero. rewrite Hzero.
    rewrite endRun_fresh by assumption.
    repeat split; try assumption. now eexists.
  - intros Hzero. rewrite applyTimePenalty_ended by assumption. cbn [fst].
    rewrite endRun_fresh by assumption.
    repeat split; try assumption. now eexists.
  - intros Hname. unfold reset. rewrite Hname. cbn zeta.
    destruct (pickCell random (-1)%Z [] cellCount _) as [next p1].
    destruct (if Qlt_bool 0 _ then _ else _) as [hz p2].
    reflexivity.
Qed.

(** ** What a correct tap writes *)

Lemma gained_pos (reaction : Q) (streak : Z) : (17 <= gained reaction streak)%Z.
Proof. unfold gained. cbn zeta. lia. Qed.

Lemma tapped_fields (reaction : Q) (s : Z) (w : World) :
  let w' := tapped reaction s w in
  let rr := Math_round reaction in
  score (view w') = Z.max (score (view w) + gained reaction s) 0
  /\ scoreRef (refs w') = Z.max (score (view w) + gained reaction s) 0
  /\ streak (view w') = (s + 1)%Z
  /\ maxStreakRef (refs w') = Z.max (maxStreakRef (refs w)) (s + 1)
  /\ timeLeft (view w')
     = clamp (timeLeftRef (refs w) + timeGain reaction s) 0
         (timeRewardCap settings)
  /\ timeLeftRef (refs w') = timeLeft (view w')
  /\ hits (view w') = (hits (view w) + 1)%Z
  /\ hitsRef (refs w') = (hitsRef (refs w) + 1)%Z
  /\ totalReactionMs (view w') = totalReactionMs (view w) + reaction
  /\ totalReactionRef (refs w') = totalReactionRef (refs w) + reaction
  /\ fastestHit (view w')
     = Some (match fastestHit (view w) with
             | None => rr
             | Some prev => Z.min prev rr
             end)
  /\ fastestHitRef (refs w')
     = Some (match fastestHitRef (refs w) with
             | None => rr
             | Some cur => Z.min cur rr
             end).
Proof.
  unfold tapped, bankTime, extendStreak, awardPoints, recordReaction.
  cbn zeta. repeat break_world;
    repeat match goal with
           | H : (_ <? _)%Z = true |- _ => apply Z.ltb_lt in H
           | H : (_ <? _)%Z = false |- _ => apply Z.ltb_ge in H
           | H : fastestHitRef _ = _ |- _ => rewrite H
           end;
    repeat split; try reflexivity;
    try (destruct (fastestHit (view w)); reflexivity);
    try (f_equal; lia); lia.
Qed.

(** A correct tap leaves the rest of the state alone. *)
Lemma tapped_frame (reaction : Q) (s : Z) (w : World) :
  let w' := tapped reaction s w in
  status (view w') = status (view w)
  /\ misses (view w') = misses (view w)
  /\ missesRef (refs w') = missesRef (refs w)
  /\ activeCell (view w') = activeCell (view w)
  /\ hazardCell (view w') = hazardCell (view w)
  /\ spawnTimeRef (refs w') = spawnTimeRef (refs w)
  /\ finishedRef (refs w') = finishedRef (refs w)
  /\ finished w' = finished w
  /\ rngPos w' = rngPos w.
Proof.
  unfold tapped, bankTime, extendStreak, awardPoints, recordReaction.
  cbn zeta. repeat break_world; repeat split; reflexivity.
Qed.

(** The updater of the hazard branch writes the score and its ref. *)
Lemma hazardScore_fields (w : World) :
  let w' := hazardScore w in
  score (view w') = Z.max (score (view w) - 10) 0
  /\ scoreRef (refs w') = Z.max (score (view w) - 10) 0
  /\ streak (view w') = streak (view w)
  /\ misses (view w') = misses (view w)
  /\ missesRef (refs w') = missesRef (refs w)
  /\ hits (view w') = hits (view w)
  /\ timeLeft (view w') = timeLeft (view w)
  /\ timeLeftRef (refs w') = timeLeftRef (refs w)
  /\ activeCell (view w') = activeCell (view w)
  /\ hazardCell (view w') = hazardCell (view w)
  /\ status (view w') = status (view w)
  /\ spawnTimeRef (refs w') = spawnTimeRef (refs w)
  /\ finishedRef (refs w') = finishedRef (refs w)
  /\ finished w' = finished w
  /\ rngPos w' = rngPos w.
Proof. repeat split. Qed.

(** The three branches of [registerHit] on a handler that sees [playing]. *)
Lemma registerHit_hazard (r : Render) (cellIndex : Z) (now spawnNow : Q)
    (w : World) :
  r_status r = playing ->
  r_hazardCell r = Some cellIndex ->
  registerHit r cellIndex now spawnNow w
  = hazardScore
      (let '(w', ended) :=
         applyTimePenalty (missPenalty settings + 1)
           (missesRef_set (missesRef (refs w) + 1)%Z
              (setStreak 0%Z (setHazardCell None w))) in
       if ended then w' else spawnNewTarget spawnNow w').
Proof.
  intros Hs Hh. unfold registerHit, isHazard. rewrite Hs, Hh.
  cbn [Status_eqb negb]. rewrite Z.eqb_refl. cbn zeta.
  apply hazard_last.
Qed.

Lemma isHazard_false (r : Render) (cellIndex : Z) :
  r_hazardCell r <> Some cellIndex -> isHazard r cellIndex = false.
Proof.
  unfold isHazard. destruct (r_hazardCell r) as [h|]; [|reflexivity].
  intros H. apply Z.eqb_neq. congruence.
Qed.

Lemma registerHit_wrong (r : Render) (cellIndex : Z) (now spawnNow : Q)
    (w : World) :
  r_status r = playing ->
  r_hazardCell r <> Some cellIndex ->
  cellIndex <> r_activeCell r ->
  registerHit r cellIndex now spawnNow w
  = fst (applyTimePenalty wrongPenalty
           (missesRef_set (missesRef (refs w) + 1)%Z (setStreak 0%Z w))).
Proof.
  intros Hs Hh Ha. unfold registerHit. rewrite Hs.
  rewrite isHazard_false by assumption. cbn [Status_eqb negb].
  apply Z.eqb_neq in Ha. now rewrite Ha.
Qed.

Lemma registerHit_correct (r : Render) (cellIndex : Z) (now spawnNow : Q)
    (w : World) :
  r_status r = playing ->
  r_hazardCell r <> Some cellIndex ->
  cellIndex = r_activeCell r ->
  registerHit r cellIndex now spawnNow w
  = spawnNewTarget spawnNow
      (tapped (now - spawnTimeRef (refs w)) (r_streak r) w).
Proof.
  intros Hs Hh Ha. unfold registerHit. rewrite Hs.
  rewrite isHazard_false by assumption. cbn [Status_eqb negb].
  apply Z.eqb_eq in Ha. now rewrite Ha.
Qed.

(** ** The refs mirror the state *)

Lemma Synced_ext (w w' : World) :
  score (view w') = score (view w) ->
  scoreRef (refs w') = scoreRef (refs w) ->
  status (view w') = status (view w) ->
  finishedRef (refs w') = finishedRef (refs w) ->
  timeLeft (view w') = timeLeft (view w) ->
  timeLeftRef (refs w') = timeLeftRef (refs w) ->
  Synced w -> Synced w'.
Proof. unfold Synced. intros -> -> -> -> -> ->. trivial. Qed.

(** Once [done], only the score matters. *)
Lemma Synced_done (w w' : World) :
  status (view w') = done ->
  score (view w') = score (view w) ->
  scoreRef (refs w') = scoreRef (refs w) ->
  Synced w -> Synced w'.
Proof.
  unfold Synced. intros Hd -> -> (H0 & H1 & _).
  repeat split; try assumption; congruence.
Qed.

Lemma Synced_latched_done (w : World) :
  Synced w -> finishedRef (refs w) = true -> status (view w) = done.
Proof.
  intros (_ & _ & H) Hl. destruct (status (view w)) eqn:E; try reflexivity;
    destruct H as [H _]; congruence.
Qed.

Lemma Synced_endRun (w : World) : Synced w -> Synced (endRun w).
Proof.
  intros H. destruct (endRun_cases w) as [-> | ->]; [assumption|].
  revert H. now apply Synced_done.
Qed.

Lemma Synced_spawnNewTarget (now : Q) (w : World) :
  Synced w -> Synced (spawnNewTarget now w).
Proof.
  destruct (spawnNewTarget_shape now w) as (n & hz & p & -> & _).
  now apply Synced_ext.
Qed.

Lemma Synced_applyTimePenalty (amount : Q) (w : World) :
  Synced w -> Synced (fst (applyTimePenalty amount w)).
Proof.
  intros H.
  assert (Hp : Synced (penalised amount w)).
  { destruct H as (H0 & H1 & H2). unfold Synced, penalised. simp_world.
    repeat split; try assumption; now apply H2. }
  destruct (applyTimePenalty_cases amount w) as [[_ ->] | [_ ->]];
    cbn [fst]; [now apply Synced_endRun | assumption].
Qed.

Lemma Synced_penalty_then_spawn (amount spawnNow : Q) (w : World) :
  Synced w ->
  Synced (let '(w', ended) := applyTimePenalty amount w in
          if ended then w' else spawnNewTarget spawnNow w').
Proof.
  intros H. pose proof (Synced_applyTimePenalty amount w H) as H'.
  destruct (applyTimePenalty amount w) as [w' ended]. cbn [fst] in H'.
  destruct ended; [assumption | now apply Synced_spawnNewTarget].
Qed.

Lemma Synced_countdownTick (w : World) : Synced w -> Synced (countdownTick w).
Proof.
  intros H. unfold countdownTick. cbn zeta.
  destruct (Qle_bool _ 0).
  - match goal with
    | |- Synced (setTimeLeft 0 (endRun ?w1)) =>
        destruct (finishedRef (refs w)) eqn:E;
        [rewrite (endRun_latched w1) by exact E
        |rewrite (endRun_fresh w1) by exact E]
    end.
    + pose proof (Synced_latched_done w H E). revert H. now apply Synced_done.
    + revert H. now apply Synced_done.
  - destruct H as (H0 & H1 & H2). unfold Synced. simp_world.
    repeat split; try assumption; now apply H2.
Qed.

Lemma Synced_registerMiss (r : Render) (spawnNow : Q) (w : World) :
  Synced w -> Synced (registerMiss r spawnNow w).
Proof.
  intros H. unfold registerMiss.
  destruct (negb _); [assumption|]. cbn zeta.
  apply Synced_penalty_then_spawn. revert H. now apply Synced_ext.
Qed.

Lemma Synced_tapped (reaction : Q) (s : Z) (w : World) :
  Synced w -> Synced (tapped reaction s w).
Proof.
  intros (H0 & H1 & H2).
  destruct (tapped_fields reaction s w)
    as (Hsc & Hsr & _ & _ & _ & Htr & _).
  destruct (tapped_frame reaction s w)
    as (Hst & _ & _ & _ & _ & _ & Hf & _).
  unfold Synced. rewrite Hsc, Hsr, Hst, Hf, Htr.
  repeat split; try lia. now apply H2.
Qed.

Lemma Synced_hazardScore (w : World) : Synced w -> Synced (hazardScore w).
Proof.
  intros (H0 & H1 & H2). unfold Synced, hazardScore. simp_world.
  repeat split; try lia; now apply H2.
Qed.

Lemma Synced_registerHit (r : Render) (cellIndex : Z) (now spawnNow : Q)
    (w : World) :
  Synced w -> Synced (registerHit r cellIndex now spawnNow w).
Proof.
  intros H. unfold registerHit.
  destruct (negb (Status_eqb _ _)); [assumption|].
  destruct (isHazard r cellIndex); [|destruct (negb _)]; cbn zeta.
  - rewrite hazard_last. apply Synced_hazardScore.
    apply Synced_penalty_then_spawn. revert H. now apply Synced_ext.
  - apply Synced_applyTimePenalty. revert H. now apply Synced_ext.
  - apply Synced_spawnNewTarget. now apply Synced_tapped.
Qed.

(** The [reset] of any render. *)
Lemma Synced_reset (s : Settings) (c : Z) (now : Q) (w : World) :
  Synced w -> Synced (reset random s c playerName now w).
Proof.
  intros H. unfold reset. destruct (nameMissing playerName); [assumption|].
  cbn zeta.
  destruct (pickCell random (-1)%Z [] c _) as [next p1].
  destruct (if Qlt_bool 0 _ then _ else _) as [hz p2].
  unfold Synced. simp_world. repeat split; lia.
Qed.

Lemma Synced_difficultyEffect (w : World) : Synced (difficultyEffect w).
Proof.
  unfold difficultyEffect. cbn zeta.
  destruct (pickCell random (-1)%Z [] cellCount _) as [next p1].
  unfold Synced. simp_world. repeat split; lia.
Qed.

Lemma Synced_mount (now : Q) : Synced (mount now).
Proof.
  unfold mount. destruct (pickCell random (-1)%Z [] cellCount 0).
  apply Synced_difficultyEffect.
Qed.

(** A change of status between [playing] and [paused]. *)
Lemma Synced_setStatus (v : Status) (w : World) :
  status (view w) <> done -> Synced w -> Synced (setStatus v w).
Proof.
  intros Hs (H0 & H1 & H2). unfold Synced. simp_world.
  repeat split; try assumption; now apply H2.
Qed.

Lemma Synced_onKey (k : Key) (now : Q) (w : World) :
  Synced w -> Synced (onKey (render w) k now w).
Proof.
  intros H. unfold onKey. simp_world. destruct k.
  - destruct (_ && _); [now apply Synced_reset | assumption].
  - destruct (status (view w)) eqn:E; cbn [Status_eqb]; try assumption;
      apply Synced_setStatus; congruence.
  - destruct (status (view w)) eqn:E; cbn [Status_eqb]; try assumption;
      apply Synced_setStatus; congruence.
Qed.

Lemma Synced_step (w : World) (e : Event) : Synced w -> Synced (step w e).
Proof.
  intros H. destruct e; cbn [step].
  - destruct (Status_eqb _ _); [now apply Synced_countdownTick | assumption].
  - destruct (Status_eqb _ _); [now apply Synced_registerMiss | assumption].
  - now apply Synced_registerHit.
  - destruct (Status_eqb _ _); [assumption | now apply Synced_reset].
  - unfold resumeGame. simp_world.
    destruct (status (view w)) eqn:E; cbn [Status_eqb]; try assumption.
    apply Synced_setStatus; congruence.
  - now apply Synced_onKey.
Qed.

Lemma Synced_run (es : list Event) (w : World) :
  Synced w -> Synced (run w es).
Proof.
  revert w. unfold run.
  induction es as [|e es IH]; intros w H; cbn [fold_left]; [assumption|].
  apply IH. now apply Synced_step.
Qed.

(** ** A correct tap *)

Lemma correct_tap_synced (w : World) (cellIndex : Z) (now spawnNow : Q) :
  Synced w ->
  status (view w) = playing ->
  cellIndex = activeCell (view w) ->
  hazardCell (view w) <> Some cellIndex ->
  let reaction := now - spawnTimeRef (refs w) in
  let s := streak (view w) in
  let w' := step w (Tap cellIndex now spawnNow) in
  score (view w')
  = (score (view w)
     + (15 + Z.max 2 (Math_round ((1200 - reaction) / 30))
        + Z.max 0 (s - 1) * 4))%Z
  /\ timeLeft (view w')
     = clamp
         (timeLeft (view w)
          + Math_max (minGain settings)
              (Math_max (rewardFloor settings)
                 ((125 # 100) - reaction / rewardSlope settings
                  - inject_Z s * rewardStreakFactor settings)
               + rewardBonus settings))
         0 (timeRewardCap settings)
  /\ streak (view w') = (s + 1)%Z
  /\ hits (view w') = (hits (view w) + 1)%Z.
Proof.
  intros (H0 & _ & H2) Hplay Hidx Hhz.
  assert (Hnd : status (view w) <> done) by congruence.
  destruct (H2 Hnd) as [_ Hsync]. cbn zeta. cbn [step].
  rewrite registerHit_correct by assumption.
  cbn [render r_streak].
  destruct (spawnNewTarget_frame spawnNow
              (tapped (now - spawnTimeRef (refs w)) (streak (view w)) w))
    as (_ & Etl & Esc & Est & _ & Eh & _).
  destruct (tapped_fields (now - spawnTimeRef (refs w)) (streak (view w)) w)
    as (Hsc & _ & Hst & _ & Htl & _ & Hh & _).
  pose proof (gained_pos (now - spawnTimeRef (refs w)) (streak (view w))) as Hg.
  rewrite Esc, Etl, Est, Eh, Hsc, Hst, Htl, Hh, Hsync.
  repeat split. unfold gained in *. cbn zeta in *. lia.
Qed.

Lemma correct_tap_general (now0 : Q) (events : list Event) (cellIndex : Z)
    (now spawnNow : Q) :
  let w := run (mount now0) events in
  status (view w) = playing ->
  cellIndex = activeCell (view w) ->
  hazardCell (view w) <> Some cellIndex ->
  let reaction := now - spawnTimeRef (refs w) in
  let s := streak (view w) in
  let w' := step w (Tap cellIndex now spawnNow) in
  score (view w')
  = (score (view w)
     + (15 + Z.max 2 (Math_round ((1200 - reaction) / 30))
        + Z.max 0 (s - 1) * 4))%Z
  /\ timeLeft (view w')
     = clamp
         (timeLeft (view w)
          + Math_max (minGain settings)
              (Math_max (rewardFloor settings)
                 ((125 # 100) - reaction / rewardSlope settings
                  - inject_Z s * rewardStreakFactor settings)
               + rewardBonus settings))
         0 (timeRewardCap settings)
  /\ streak (view w') = (s + 1)%Z
  /\ hits (view w') = (hits (view w) + 1)%Z.
Proof.
  intros w. apply correct_tap_synced. apply Synced_run, Synced_mount.
Qed.

(** ** The penalty branches of a tap *)

(** What a penalty leaves behind, whether or not it ends the run. *)
Lemma applyTimePenalty_fields (amount : Q) (w : World) :
  let w' := fst (applyTimePenalty amount w) in
  timeLeft (view w') = Math_max 0 (timeLeftRef (refs w) - amount)
  /\ timeLeftRef (refs w') = Math_max 0 (timeLeftRef (refs w) - amount)
  /\ score (view w') = score (view w)
  /\ streak (view w') = streak (view w)
  /\ misses (view w') = misses (view w)
  /\ missesRef (refs w') = missesRef (refs w)
  /\ hits (view w') = hits (view w)
  /\ activeCell (view w') = activeCell (view w)
  /\ hazardCell (view w') = hazardCell (view w)
  /\ spawnTimeRef (refs w') = spawnTimeRef (refs w)
  /\ rngPos w' = rngPos w.
Proof.
  cbn zeta.
  destruct (applyTimePenalty_cases amount w) as [[_ ->] | [_ ->]]; cbn [fst].
  - destruct (endRun_cases (penalised amount w)) as [-> | ->];
      repeat split.
  - repeat split.
Qed.

(** Whether the run goes on after a penalty. *)
Lemma applyTimePenalty_status (amount : Q) (w : World) :
  let w' := fst (applyTimePenalty amount w) in
  finishedRef (refs w) = false ->
  (Math_max 0 (timeLeftRef (refs w) - amount) <= 0 ->
   snd (applyTimePenalty amount w) = true
   /\ status (view w') = done
   /\ finished w' = summary (penalised amount w) :: finished w)
  /\ (0 < Math_max 0 (timeLeftRef (refs w) - amount) ->
      snd (applyTimePenalty amount w) = false
      /\ status (view w') = status (view w)
      /\ finished w' = finished w).
Proof.
  cbn zeta. intros Hopen. split; intros H.
  - rewrite applyTimePenalty_ended by assumption. cbn [fst snd].
    rewrite endRun_fresh by exact Hopen. repeat split.
  - rewrite applyTimePenalty_alive by assumption. repeat split.
Qed.

(** The wrong-tile branch, as the source has it: the ref [missesRef] is
    incremented and the state [misses] is not. *)
Lemma wrong_tap_effects (w : World) (cellIndex : Z) (now spawnNow : Q) :
  status (view w) = playing ->
  hazardCell (view w) <> Some cellIndex ->
  cellIndex <> activeCell (view w) ->
  let w' := step w (Tap cellIndex now spawnNow) in
  streak (view w') = 0%Z
  /\ missesRef (refs w') = (missesRef (refs w) + 1)%Z
  /\ misses (view w') = misses (view w)
  /\ timeLeft (view w') = Math_max 0 (timeLeftRef (refs w) - wrongPenalty)
  /\ activeCell (view w') = activeCell (view w)
  /\ hazardCell (view w') = hazardCell (view w)
  /\ score (view w') = score (view w)
  /\ hits (view w') = hits (view w)
  /\ spawnTimeRef (refs w') = spawnTimeRef (refs w)
  /\ rngPos w' = rngPos w
  /\ (finishedRef (refs w) = false ->
      (timeLeft (view w') <= 0 ->
       status (view w') = done /\ exists r, finished w' = r :: finished w)
      /\ (0 < timeLeft (view w') ->
          status (view w') = playing /\ finished w' = finished w)).
Proof.
  intros Hplay Hhz Hidx. cbn zeta. cbn [step].
  rewrite registerHit_wrong by assumption.
  set (w1 := missesRef_set (missesRef (refs w) + 1)%Z (setStreak 0%Z w)).
  destruct (applyTimePenalty_fields wrongPenalty w1)
    as (E1 & _ & E3 & E4 & E5 & E6 & E7 & E8 & E9 & E10 & E11).
  rewrite E1, E3, E4, E5, E6, E7, E8, E9, E10, E11.
  repeat (split; [reflexivity|]).
  intros Hopen.
  destruct (applyTimePenalty_status wrongPenalty w1 Hopen) as [Hend Hgo].
  change (timeLeftRef (refs w1)) with (timeLeftRef (refs w)) in *.
  split; intros H.
  - destruct (Hend H) as (_ & Hd & Hf). split; [exact Hd|].
    eexists. exact Hf.
  - destruct (Hgo H) as (_ & Hs & Hf). split; [|exact Hf].
    rewrite Hs. exact Hplay.
Qed.

(** The hazard branch, as the source has it: again [missesRef] is
    incremented and [misses] is not, and the score is lowered after the
    penalty has been applied. *)
Lemma hazard_tap_effects (w : World) (cellIndex : Z) (now spawnNow : Q) :
  status (view w) = playing ->
  hazardCell (view w) = Some cellIndex ->
  let w' := step w (Tap cellIndex now spawnNow) in
  let cleared :=
    missesRef_set (missesRef (refs w) + 1)%Z
      (setStreak 0%Z (setHazardCell None w)) in
  let newTime :=
    Math_max 0 (timeLeftRef (refs w) - (missPenalty settings + 1)) in
  score (view w') = Z.max (score (view w) - 10) 0
  /\ streak (view w') = 0%Z
  /\ missesRef (refs w') = (missesRef (refs w) + 1)%Z
  /\ misses (view w') = misses (view w)
  /\ hits (view w') = hits (view w)
  /\ timeLeft (view w') = newTime
  /\ (newTime <= 0 ->
      w' = hazardScore (endRun (penalised (missPenalty settings + 1) cleared))
      /\ hazardCell (view w') = None
      /\ activeCell (view w') = activeCell (view w))
  /\ (0 < newTime ->
      w' = hazardScore
             (spawnNewTarget spawnNow
                (penalised (missPenalty settings + 1) cleared))).
Proof.
  intros Hplay Hhz. cbn zeta. cbn [step].
  rewrite registerHit_hazard by assumption.
  set (cleared := missesRef_set _ _).
  set (amount := missPenalty settings + 1).
  pose proof (applyTimePenalty_fields amount cleared) as F.
  destruct (applyTimePenalty_cases amount cleared) as [[Hz E] | [Hz E]];
    rewrite E in *; cbn [fst] in F;
    destruct F as (E1 & _ & E3 & E4 & E5 & E6 & E7 & E8 & E9 & _).
  - destruct (hazardScore_fields (endRun (penalised amount cleared)))
      as (H1 & _ & H3 & H4 & H5 & H6 & H7 & _ & H9 & H10 & _).
    change (timeLeftRef (refs cleared)) with (timeLeftRef (refs w)) in *.
    rewrite H1, H3, H4, H5, H6, H7, H9, H10.
    rewrite E1, E3, E4, E5, E6, E7, E8, E9.
    repeat (split; [reflexivity|]).
    split; [intros _; repeat split | intros Hpos; lra].
  - destruct (spawnNewTarget_frame spawnNow (penalised amount cleared))
      as (_ & S2 & S3 & S4 & S5 & S6 & _ & _ & _ & _ & _ & _ & _ & _ & S15 & _).
    destruct (hazardScore_fields
                (spawnNewTarget spawnNow (penalised amount cleared)))
      as (H1 & _ & H3 & H4 & H5 & H6 & H7 & _).
    change (timeLeftRef (refs cleared)) with (timeLeftRef (refs w)) in *.
    rewrite H1, H3, H4, H5, H6, H7.
    rewrite S2, S3, S4, S5, S6, S15, E1, E3, E4, E5, E6, E7.
    repeat (split; [reflexivity|]).
    split; [intros Hle; lra | intros _; reflexivity].
Qed.

(** ** Profiles without hazards *)

Lemma hazardDraw_none (next : Z) (pos : nat) :
  hazardChance settings <= 0 ->
  hazardDraw random settings cellCount next pos = (None, S pos).
Proof.
  intros H. unfold hazardDraw.
  destruct (Qlt_bool (random pos) (hazardChance settings)) eqn:E;
    [|reflexivity].
  apply Qlt_bool_iff in E. destruct (random_range pos). lra.
Qed.

Lemma spawnNewTarget_no_hazard (now : Q) (w : World) :
  hazardChance settings <= 0 ->
  hazardCell (view (spawnNewTarget now w)) = None.
Proof.
  intros H. destruct (spawnNewTarget_shape now w) as (n & hz & p & -> & _ & ->).
  now rewrite hazardDraw_none.
Qed.

Lemma reset_no_hazard (now : Q) (w : World) :
  hazardChance settings <= 0 ->
  hazardCell (view w) = None ->
  hazardCell (view (reset random settings cellCount playerName now w)) = None.
Proof.
  intros H Hw. unfold reset. destruct (nameMissing playerName); [assumption|].
  cbn zeta.
  destruct (pickCell random (-1)%Z [] cellCount _) as [next p1].
  destruct (Qlt_bool 0 (hazardChance settings)) eqn:E.
  - apply Qlt_bool_iff in E. lra.
  - reflexivity.
Qed.

Lemma penalty_then_spawn_no_hazard (amount spawnNow : Q) (w : World) :
  hazardChance settings <= 0 ->
  hazardCell (view w) = None ->
  hazardCell
    (view (let '(w', ended) := applyTimePenalty amount w in
           if ended then w' else spawnNewTarget spawnNow w')) = None.
Proof.
  intros H Hw.
  destruct (applyTimePenalty_fields amount w)
    as (_ & _ & _ & _ & _ & _ & _ & _ & E & _).
  destruct (applyTimePenalty amount w) as [w' ended]. cbn [fst] in E.
  destruct ended; [congruence | now apply spawnNewTarget_no_hazard].
Qed.

Lemma countdownTick_hazardCell (w : World) :
  hazardCell (view (countdownTick w)) = hazardCell (view w).
Proof.
  unfold countdownTick. cbn zeta. destruct (Qle_bool _ 0); [|reflexivity].
  match goal with
  | |- context [endRun ?w1] => destruct (endRun_cases w1) as [-> | ->]
  end; reflexivity.
Qed.

Lemma registerMiss_no_hazard (r : Render) (spawnNow : Q) (w : World) :
  hazardChance settings <= 0 ->
  hazardCell (view w) = None ->
  hazardCell (view (registerMiss r spawnNow w)) = None.
Proof.
  intros H Hw. unfold registerMiss. destruct (negb _); [assumption|].
  cbn zeta. now apply penalty_then_spawn_no_hazard.
Qed.

Lemma registerHit_no_hazard (r : Render) (cellIndex : Z) (now spawnNow : Q)
    (w : World) :
  hazardChance settings <= 0 ->
  hazardCell (view w) = None ->
  hazardCell (view (registerHit r cellIndex now spawnNow w)) = None.
Proof.
  intros H Hw. unfold registerHit.
  destruct (negb (Status_eqb _ _)); [assumption|].
  destruct (isHazard r cellIndex); [|destruct (negb _)]; cbn zeta.
  - rewrite hazard_last.
    change (hazardCell (view (hazardScore ?x))) with (hazardCell (view x)).
    now apply penalty_then_spawn_no_hazard.
  - match goal with
    | |- context [applyTimePenalty ?a ?w1] =>
        destruct (applyTimePenalty_fields a w1)
          as (_ & _ & _ & _ & _ & _ & _ & _ & E & _)
    end.
    rewrite E. exact Hw.
  - now apply spawnNewTarget_no_hazard.
Qed.

Lemma step_no_hazard (w : World) (e : Event) :
  hazardChance settings <= 0 ->
  Fresh w ->
  hazardCell (view w) = None ->
  hazardCell (view (step w e)) = None.
Proof.
  intros H F Hw. destruct e; cbn [step].
  - destruct (Status_eqb _ _); [|assumption].
    now rewrite countdownTick_hazardCell.
  - destruct (Status_eqb _ _); [now apply registerMiss_no_hazard | assumption].
  - now apply registerHit_no_hazard.
  - destruct (Status_eqb _ _); [assumption | now apply reset_no_hazard].
  - destruct (Status_eqb _ _); [|assumption].
    unfold resumeGame. destruct (Status_eqb _ _); exact Hw.
  - destruct k; [rewrite (onKey_fresh _ _ _ F)|unfold onKey..].
    + destruct (_ && _); [now apply reset_no_hazard | assumption].
    + destruct (Status_eqb _ playing); [exact Hw|].
      destruct (Status_eqb _ paused); exact Hw.
    + destruct (Status_eqb _ playing); [exact Hw|].
      destruct (Status_eqb _ paused); exact Hw.
Qed.

Lemma mount_no_hazard (now : Q) : hazardCell (view (mount now)) = None.
Proof.
  unfold mount, difficultyEffect.
  destruct (pickCell random (-1)%Z [] cellCount 0) as [cell p]. cbn zeta.
  destruct (pickCell random (-1)%Z [] cellCount _) as [next p1].
  reflexivity.
Qed.

Lemma run_no_hazard (es : list Event) (w : World) :
  hazardChance settings <= 0 ->
  Fresh w ->
  hazardCell (view w) = None ->
  hazardCell (view (run w es)) = None.
Proof.
  intros H. revert w. unfold run.
  induction es as [|e es IH]; intros w F Hw; cbn [fold_left]; [assumption|].
  apply IH; [|now apply step_no_hazard].
  unfold Fresh. now rewrite keyListener_step.
Qed.

(** ** Starting a run *)

Lemma trimStart_nil (s : JsString) :
  trimStart s = [] <-> forallb isWhiteSpace s = true.
Proof.
  induction s as [|c s IH]; cbn [trimStart forallb]; [tauto|].
  destruct (isWhiteSpace c); cbn [andb]; [exact IH|].
  split; discriminate.
Qed.

Lemma trimStart_head (s : JsString) (c : N) (rest : JsString) :
  trimStart s = c :: rest -> isWhiteSpace c = false.
Proof.
  induction s as [|d s IH]; cbn [trimStart]; [discriminate|].
  destruct (isWhiteSpace d) eqn:E; [exact IH|].
  intros H. injection H as -> _. exact E.
Qed.

Lemma trim_nil (s : JsString) :
  trim s = [] <-> forallb isWhiteSpace s = true.
Proof.
  unfold trim. split.
  - intros H. apply trimStart_nil.
    destruct (trimStart s) as [|c rest] eqn:E; [reflexivity|].
    pose proof (trimStart_head s c rest E) as Hc.
    apply (f_equal (@rev N)) in H. rewrite rev_involutive in H.
    change (rev (@nil N)) with (@nil N) in H.
    apply trimStart_nil in H. rewrite forallb_forall in H.
    assert (Hin : In c (rev (c :: rest))) by (apply -> in_rev; now left).
    specialize (H c Hin). congruence.
  - intros H. apply trimStart_nil in H. now rewrite H.
Qed.

(** The name is refused exactly when it is empty or all white space. *)
Lemma nameMissing_blank :
  nameMissing playerName = forallb isWhiteSpace playerName.
Proof.
  unfold nameMissing.
  destruct (forallb isWhiteSpace playerName) eqn:E.
  - apply trim_nil in E. rewrite E. apply orb_true_r.
  - apply orb_false_iff. split.
    + destruct playerName; [discriminate | reflexivity].
    + destruct (trim playerName) eqn:T; [|reflexivity].
      apply trim_nil in T. congruence.
Qed.

(** The state an accepted [reset] leaves; [s] and [c] are the profile
    and the tile count it closed over. *)
Lemma reset_fields (s : Settings) (c : Z) (now : Q) (w : World) :
  nameMissing playerName = false ->
  let w' := reset random s c playerName now w in
  status (view w') = playing
  /\ timeLeft (view w') = startTime s
  /\ (score (view w') = 0 /\ streak (view w') = 0 /\ hits (view w') = 0
      /\ misses (view w') = 0)%Z
  /\ fastestHit (view w') = None
  /\ totalReactionMs (view w') = 0
  /\ timeLeftRef (refs w') = startTime s
  /\ (scoreRef (refs w') = 0 /\ hitsRef (refs w') = 0
      /\ missesRef (refs w') = 0 /\ maxStreakRef (refs w') = 0)%Z
  /\ fastestHitRef (refs w') = None
  /\ totalReactionRef (refs w') = 0
  /\ finishedRef (refs w') = false
  /\ spawnTimeRef (refs w') = now
  /\ activeCell (view w')
     = fst (pickCell random (-1)%Z [] c (rngPos w))
  /\ finished w' = finished w.
Proof.
  intros Hname. unfold reset. rewrite Hname. cbn zeta.
  change (rngPos (clearCounters s (setStatus playing (clearRefs s w))))
    with (rngPos w).
  destruct (pickCell random (-1)%Z [] c (rngPos w)) as [next p1].
  destruct (if Qlt_bool 0 (hazardChance s)
            then hazardDraw random s c next p1 else (None, p1)) as [hz p2].
  repeat split.
Qed.

(** The Space key calls [reset] from [idle] and from [done] only; the
    [reset] is the one of the listener in place. *)
Lemma space_key (w : World) (now : Q) :
  step w (KeyDown Space now)
  = if Status_eqb (status (view w)) idle
    then reset random (l_settings (keyListener w))
           (l_cellCount (keyListener w)) playerName now w
    else if Status_eqb (status (view w)) done
    then reset random settings cellCount playerName now w
    else w.
Proof.
  cbn [step onKey render r_status].
  destruct (negb (List.length (trim playerName) =? 0)%nat) eqn:E.
  - rewrite andb_true_r.
    destruct (Status_eqb (status (view w)) idle); [reflexivity|].
    destruct (Status_eqb (status (view w)) done); reflexivity.
  - rewrite andb_false_r. apply negb_false_iff in E.
    assert (M : nameMissing playerName = true)
      by (unfold nameMissing; rewrite E; apply orb_true_r).
    unfold reset. rewrite M.
    destruct (Status_eqb (status (view w)) idle); [reflexivity|].
    destruct (Status_eqb (status (view w)) done); reflexivity.
Qed.


(** ** The reaction time *)

Lemma Math_round_nonneg (x : Q) : 0 <= x -> (0 <= Math_round x)%Z.
Proof.
  intros H. unfold Math_round. change 0%Z with (Qfloor 0).
  apply Qfloor_resp_le. lra.
Qed.

(** *** The spawn time is a reading of the clock *)

Lemma spawnTime_penalty_then_spawn (amount spawnNow : Q) (w : World) :
  let w' := (let '(w', ended) := applyTimePenalty amount w in
             if ended then w' else spawnNewTarget spawnNow w') in
  spawnTimeRef (refs w') = spawnTimeRef (refs w)
  \/ spawnTimeRef (refs w') = spawnNow.
Proof.
  cbn zeta.
  destruct (applyTimePenalty_fields amount w)
    as (_ & _ & _ & _ & _ & _ & _ & _ & _ & E & _).
  destruct (applyTimePenalty amount w) as [w' ended]. cbn [fst] in E.
  destruct ended; [now left | right].
  now destruct (spawnNewTarget_frame spawnNow w')
    as (_ & _ & _ & _ & _ & _ & _ & _ & _ & S & _).
Qed.

Lemma spawnTime_registerMiss (r : Render) (spawnNow : Q) (w : World) :
  let w' := registerMiss r spawnNow w in
  spawnTimeRef (refs w') = spawnTimeRef (refs w)
  \/ spawnTimeRef (refs w') = spawnNow.
Proof.
  cbn zeta. unfold registerMiss. destruct (negb _); [now left|].
  cbn zeta.
  match goal with
  | |- context [applyTimePenalty ?a ?x] =>
      exact (spawnTime_penalty_then_spawn a spawnNow x)
  end.
Qed.

Lemma spawnTime_registerHit (r : Render) (cellIndex : Z)
    (now spawnNow : Q) (w : World) :
  let w' := registerHit r cellIndex now spawnNow w in
  spawnTimeRef (refs w') = spawnTimeRef (refs w)
  \/ spawnTimeRef (refs w') = spawnNow.
Proof.
  cbn zeta. unfold registerHit.
  destruct (negb (Status_eqb _ _)); [now left|].
  destruct (isHazard r cellIndex); [|destruct (negb _)]; cbn zeta.
  - rewrite hazard_last.
    change (spawnTimeRef (refs (hazardScore ?x)))
      with (spawnTimeRef (refs x)).
    match goal with
    | |- context [applyTimePenalty ?a ?x] =>
        exact (spawnTime_penalty_then_spawn a spawnNow x)
    end.
  - left.
    match goal with
    | |- context [applyTimePenalty ?a ?x] =>
        destruct (applyTimePenalty_fields a x)
          as (_ & _ & _ & _ & _ & _ & _ & _ & _ & E & _)
    end.
    exact E.
  - right.
    match goal with
    | |- context [spawnNewTarget spawnNow ?x] =>
        now destruct (spawnNewTarget_frame spawnNow x)
          as (_ & _ & _ & _ & _ & _ & _ & _ & _ & S & _)
    end.
Qed.

Lemma spawnTime_reset (s : Settings) (c : Z) (now : Q) (w : World) :
  let w' := reset random s c playerName now w in
  spawnTimeRef (refs w') = spawnTimeRef (refs w)
  \/ spawnTimeRef (refs w') = now.
Proof.
  cbn zeta. unfold reset. destruct (nameMissing playerName); [now left|].
  right. cbn zeta.
  destruct (pickCell random (-1)%Z [] c _) as [next p1].
  destruct (if Qlt_bool 0 _ then _ else _) as [hz p2].
  reflexivity.
Qed.

Lemma spawnTime_countdownTick (w : World) :
  spawnTimeRef (refs (countdownTick w)) = spawnTimeRef (refs w).
Proof.
  unfold countdownTick. cbn zeta. destruct (Qle_bool _ 0); [|reflexivity].
  match goal with
  | |- context [endRun ?w1] => destruct (endRun_cases w1) as [-> | ->]
  end; reflexivity.
Qed.

(** An event leaves the spawn time alone or sets it to one of its
    readings. *)
Lemma spawnTime_step (w : World) (e : Event) :
  spawnTimeRef (refs (step w e)) = spawnTimeRef (refs w)
  \/ In (spawnTimeRef (refs (step w e))) (readings e).
Proof.
  destruct e; cbn [step readings].
  - left. destruct (Status_eqb _ _); [|reflexivity].
    apply spawnTime_countdownTick.
  - destruct (Status_eqb _ _); [|now left].
    destruct (spawnTime_registerMiss (render w) spawnNow w) as [E | E];
      [now left | right; now left].
  - destruct (spawnTime_registerHit (render w) cellIndex now spawnNow w)
      as [E | E]; [now left | right; right; now left].
  - destruct (Status_eqb _ _); [now left|].
    destruct (spawnTime_reset settings cellCount now w) as [E | E];
      [now left | right; now left].
  - left. destruct (Status_eqb _ _); [|reflexivity].
    unfold resumeGame. destruct (Status_eqb _ _); reflexivity.
  - unfold onKey. destruct k.
    + destruct (_ && _); [|now left]. cbn zeta.
      match goal with
      | |- context [reset random ?s ?c playerName now w] =>
          destruct (spawnTime_reset s c now w) as [E | E]
      end; [now left | right; now left].
    + left. destruct (Status_eqb _ playing); [reflexivity|].
      destruct (Status_eqb _ paused); reflexivity.
    + left. destruct (Status_eqb _ playing); [reflexivity|].
      destruct (Status_eqb _ paused); reflexivity.
Qed.

Lemma last_cons (l : list Q) (t y : Q) : last (y :: l) t = last l y.
Proof.
  revert t y. induction l as [|z l IH]; intros t y; [reflexivity|].
  change (last (z :: l) t = last (z :: l) y).
  now rewrite (IH t z), (IH y z).
Qed.

Lemma last_append (l1 l2 : list Q) (t : Q) :
  last (l1 ++ l2) t = last l2 (last l1 t).
Proof.
  revert t. induction l1 as [|y l1 IH]; intros t; [reflexivity|].
  cbn [app]. now rewrite !last_cons, IH.
Qed.

Lemma monotonic_last (l : list Q) (t : Q) :
  monotonic t l -> t <= last l t /\ forall x, In x l -> x <= last l t.
Proof.
  revert t. induction l as [|y l IH]; intros t H.
  - split; [apply Qle_refl | intros x []].
  - destruct H as [Hy Hl]. destruct (IH y Hl) as [H1 H2].
    rewrite last_cons. split; [lra|].
    intros x [<- | Hx]; [exact H1 | now apply H2].
Qed.

Lemma monotonic_app (l1 l2 : list Q) (t : Q) :
  monotonic t (l1 ++ l2) -> monotonic t l1 /\ monotonic (last l1 t) l2.
Proof.
  revert t. induction l1 as [|y l1 IH]; intros t H; [now split|].
  destruct H as [Hy H]. destruct (IH y H) as [H1 H2].
  split; [now split|]. now rewrite last_cons.
Qed.

(** With a monotonic clock the spawn time is never after the last
    reading. *)
Lemma spawnTime_run (es : list Event) (w : World) (t : Q) :
  spawnTimeRef (refs w) <= t ->
  Clocked t es ->
  spawnTimeRef (refs (run w es))
  <= last (flat_map readings es) t.
Proof.
  unfold Clocked, run. revert w t.
  induction es as [|e es IH]; intros w t Hw H; [exact Hw|].
  cbn [fold_left flat_map] in *.
  destruct (monotonic_app _ _ _ H) as [He Hes].
  destruct (monotonic_last _ _ He) as [Ht Hin].
  rewrite last_append. apply IH; [|exact Hes].
  destruct (spawnTime_step w e) as [Eq | Eq].
  - rewrite Eq. lra.
  - now apply Hin.
Qed.


(** ** The statistics stay consistent *)

Lemma Counted_ext (w w' : World) :
  hits (view w') = hits (view w) ->
  hitsRef (refs w') = hitsRef (refs w) ->
  totalReactionMs (view w') = totalReactionMs (view w) ->
  totalReactionRef (refs w') = totalReactionRef (refs w) ->
  fastestHit (view w') = fastestHit (view w) ->
  fastestHitRef (refs w') = fastestHitRef (refs w) ->
  misses (view w') = misses (view w) ->
  missesRef (refs w') = missesRef (refs w) ->
  streak (view w') = streak (view w) ->
  maxStreakRef (refs w') = maxStreakRef (refs w) ->
  Counted w -> Counted w'.
Proof. unfold Counted. intros -> -> -> -> -> -> -> -> -> ->. trivial. Qed.

Lemma Counted_endRun (w : World) : Counted w -> Counted (endRun w).
Proof.
  destruct (endRun_cases w) as [-> | ->]; [trivial|].
  apply Counted_ext; reflexivity.
Qed.

Lemma Counted_spawnNewTarget (now : Q) (w : World) :
  Counted w -> Counted (spawnNewTarget now w).
Proof.
  destruct (spawnNewTarget_shape now w) as (n & hz & p & -> & _).
  apply Counted_ext; reflexivity.
Qed.

Lemma Counted_applyTimePenalty (amount : Q) (w : World) :
  Counted w -> Counted (fst (applyTimePenalty amount w)).
Proof.
  intros H.
  assert (Hp : Counted (penalised amount w))
    by (revert H; apply Counted_ext; reflexivity).
  destruct (applyTimePenalty_cases amount w) as [[_ ->] | [_ ->]];
    cbn [fst]; [now apply Counted_endRun | assumption].
Qed.

Lemma Counted_penalty_then_spawn (amount spawnNow : Q) (w : World) :
  Counted w ->
  Counted (let '(w', ended) := applyTimePenalty amount w in
           if ended then w' else spawnNewTarget spawnNow w').
Proof.
  intros H. pose proof (Counted_applyTimePenalty amount w H) as H'.
  destruct (applyTimePenalty amount w) as [w' ended]. cbn [fst] in H'.
  destruct ended; [assumption | now apply Counted_spawnNewTarget].
Qed.

(** A miss counted in the ref, and in the state or not. *)
Lemma Counted_missed (w w' : World) :
  hits (view w') = hits (view w) ->
  hitsRef (refs w') = hitsRef (refs w) ->
  totalReactionMs (view w') = totalReactionMs (view w) ->
  totalReactionRef (refs w') = totalReactionRef (refs w) ->
  fastestHit (view w') = fastestHit (view w) ->
  fastestHitRef (refs w') = fastestHitRef (refs w) ->
  (misses (view w') = misses (view w)
   \/ misses (view w') = misses (view w) + 1)%Z ->
  missesRef (refs w') = (missesRef (refs w) + 1)%Z ->
  streak (view w') = 0%Z ->
  maxStreakRef (refs w') = maxStreakRef (refs w) ->
  Counted w -> Counted w'.
Proof.
  unfold Counted. intros -> -> -> -> -> -> Hm -> -> ->.
  intros (H1 & H2 & H3 & H4 & H5 & H6 & H7).
  repeat split; try assumption; try apply H5; lia.
Qed.

Lemma Counted_countdownTick (w : World) :
  Counted w -> Counted (countdownTick w).
Proof.
  intros H. unfold countdownTick. cbn zeta.
  destruct (Qle_bool _ 0); [|revert H; apply Counted_ext; reflexivity].
  match goal with
  | |- Counted (setTimeLeft 0 (endRun ?w1)) =>
      assert (H1 : Counted (endRun w1))
        by (apply Counted_endRun; revert H; apply Counted_ext; reflexivity)
  end.
  revert H1. apply Counted_ext; reflexivity.
Qed.

Lemma Counted_registerMiss (r : Render) (spawnNow : Q) (w : World) :
  Counted w -> Counted (registerMiss r spawnNow w).
Proof.
  intros H. unfold registerMiss. destruct (negb _); [assumption|].
  cbn zeta. apply Counted_penalty_then_spawn.
  revert H. apply Counted_missed; try reflexivity. now right.
Qed.

Lemma Counted_tapped (reaction : Q) (w : World) :
  Counted w -> Counted (tapped reaction (streak (view w)) w).
Proof.
  intros (H1 & H2 & H3 & H4 & H5 & H6 & H7).
  destruct (tapped_fields reaction (streak (view w)) w)
    as (_ & _ & Est & Ems & _ & _ & Eh & Ehr & Et & Etr & Ef & Efr).
  destruct (tapped_frame reaction (streak (view w)) w)
    as (_ & Em & Emr & _).
  unfold Counted.
  rewrite Est, Ems, Eh, Ehr, Et, Etr, Ef, Efr, Em, Emr, H2, H3, H4.
  repeat split; try lia. discriminate.
Qed.

Lemma Counted_registerHit (cellIndex : Z) (now spawnNow : Q) (w : World) :
  Counted w -> Counted (registerHit (render w) cellIndex now spawnNow w).
Proof.
  intros H. unfold registerHit.
  destruct (negb (Status_eqb _ _)); [assumption|].
  destruct (isHazard (render w) cellIndex); [|destruct (negb _)]; cbn zeta.
  - rewrite hazard_last.
    match goal with
    | |- ?P (hazardScore ?x) =>
        cut (P x); [apply Counted_ext; reflexivity|]
    end.
    apply Counted_penalty_then_spawn.
    revert H. apply Counted_missed; try reflexivity. now left.
  - apply Counted_applyTimePenalty.
    revert H. apply Counted_missed; try reflexivity. now left.
  - apply Counted_spawnNewTarget. cbn [render r_streak].
    now apply Counted_tapped.
Qed.

Lemma Counted_cleared (w : World) :
  hits (view w) = 0%Z -> hitsRef (refs w) = 0%Z ->
  totalReactionMs (view w) = 0 -> totalReactionRef (refs w) = 0 ->
  fastestHit (view w) = None -> fastestHitRef (refs w) = None ->
  misses (view w) = 0%Z -> missesRef (refs w) = 0%Z ->
  streak (view w) = 0%Z -> maxStreakRef (refs w) = 0%Z ->
  Counted w.
Proof.
  unfold Counted. intros -> -> -> -> -> -> -> -> -> ->.
  repeat split; lia.
Qed.

Lemma Counted_reset (s : Settings) (c : Z) (now : Q) (w : World) :
  Counted w -> Counted (reset random s c playerName now w).
Proof.
  intros H. unfold reset. destruct (nameMissing playerName); [assumption|].
  cbn zeta.
  destruct (pickCell random (-1)%Z [] c _) as [next p1].
  destruct (if Qlt_bool 0 _ then _ else _) as [hz p2].
  apply Counted_cleared; reflexivity.
Qed.

Lemma Counted_mount (now : Q) : Counted (mount now).
Proof.
  unfold mount, difficultyEffect.
  destruct (pickCell random (-1)%Z [] cellCount 0) as [cell p]. cbn zeta.
  destruct (pickCell random (-1)%Z [] cellCount _) as [next p1].
  apply Counted_cleared; reflexivity.
Qed.

Lemma Counted_step (w : World) (e : Event) :
  Counted w -> Counted (step w e).
Proof.
  intros H. destruct e; cbn [step].
  - destruct (Status_eqb _ _); [now apply Counted_countdownTick | assumption].
  - destruct (Status_eqb _ _); [now apply Counted_registerMiss | assumption].
  - now apply Counted_registerHit.
  - destruct (Status_eqb _ _); [assumption | now apply Counted_reset].
  - destruct (Status_eqb _ _); [|assumption].
    unfold resumeGame. destruct (Status_eqb _ _); [|assumption].
    revert H. apply Counted_ext; reflexivity.
  - unfold onKey. destruct k.
    + destruct (_ && _); [cbn zeta; now apply Counted_reset | assumption].
    + destruct (Status_eqb _ playing);
        [revert H; apply Counted_ext; reflexivity|].
      destruct (Status_eqb _ paused); [|assumption].
      revert H. apply Counted_ext; reflexivity.
    + destruct (Status_eqb _ playing);
        [revert H; apply Counted_ext; reflexivity|].
      destruct (Status_eqb _ paused); [|assumption].
      revert H. apply Counted_ext; reflexivity.
Qed.

Lemma Counted_run (es : list Event) (w : World) :
  Counted w -> Counted (run w es).
Proof.
  revert w. unfold run.
  induction es as [|e es IH]; intros w H; cbn [fold_left]; [assumption|].
  apply IH. now apply Counted_step.
Qed.

(** ** A finished run *)

Lemma DoneLatched_Latch (w w' : World) :
  Latch w w' -> DoneLatched w -> DoneLatched w'.
Proof.
  unfold DoneLatched.
  intros [(F & _ & S) | (_ & T & _)] H; [rewrite F, S; exact H | trivial].
Qed.

Lemma DoneLatched_playing (v : Status) (w : World) :
  v <> done -> DoneLatched (setStatus v w).
Proof. unfold DoneLatched. cbn. congruence. Qed.

Lemma reset_status (s : Settings) (c : Z) (now : Q) (w : World) :
  let w' := reset random s c playerName now w in
  w' = w
  \/ (status (view w') = playing
      /\ finishedRef (refs w') = false
      /\ finished w' = finished w).
Proof.
  cbn zeta. unfold reset.
  destruct (nameMissing playerName); [now left|]. right. cbn zeta.
  destruct (pickCell random (-1)%Z [] c _) as [next p1].
  destruct (if Qlt_bool 0 _ then _ else _) as [hz p2].
  repeat split.
Qed.

Lemma mount_status (now : Q) :
  status (view (mount now)) = idle
  /\ finishedRef (refs (mount now)) = false
  /\ finished (mount now) = [].
Proof.
  unfold mount, difficultyEffect.
  destruct (pickCell random (-1)%Z [] cellCount 0) as [cell p]. cbn zeta.
  destruct (pickCell random (-1)%Z [] cellCount _) as [next p1].
  repeat split.
Qed.

Lemma DoneLatched_step (w : World) (e : Event) :
  DoneLatched w -> DoneLatched (step w e).
Proof.
  intros H. destruct e; cbn [step].
  - destruct (Status_eqb _ _); [|assumption].
    revert H. apply DoneLatched_Latch, Latch_countdownTick.
  - destruct (Status_eqb _ _); [|assumption].
    revert H. apply DoneLatched_Latch, Latch_registerMiss.
  - revert H. apply DoneLatched_Latch, Latch_registerHit.
  - destruct (Status_eqb _ _); [assumption|].
    destruct (reset_status settings cellCount now w) as [-> | (S & _)];
      [assumption|].
    unfold DoneLatched. congruence.
  - destruct (Status_eqb _ _); [|assumption].
    unfold resumeGame. destruct (Status_eqb _ _); [|assumption].
    now apply DoneLatched_playing.
  - unfold onKey. destruct k.
    + destruct (_ && _); [|assumption]. cbn zeta.
      match goal with
      | |- _ (reset random ?s ?c playerName now w) =>
          destruct (reset_status s c now w) as [-> | (S & _)]
      end; [assumption|].
      unfold DoneLatched. congruence.
    + destruct (Status_eqb _ playing); [now apply DoneLatched_playing|].
      destruct (Status_eqb _ paused); [now apply DoneLatched_playing|].
      assumption.
    + destruct (Status_eqb _ playing); [now apply DoneLatched_playing|].
      destruct (Status_eqb _ paused); [now apply DoneLatched_playing|].
      assumption.
Qed.

(** From [playing], a penalty that ends the run leaves the clock at 0. *)
Lemma DoneZero_applyTimePenalty (amount : Q) (w : World) :
  status (view w) = playing ->
  DoneZero (fst (applyTimePenalty amount w)).
Proof.
  intros Hp Hd.
  destruct (applyTimePenalty_fields amount w) as (E & _). rewrite E.
  pose proof (Math_max_ge_l 0 (timeLeftRef (refs w) - amount)) as Hge.
  destruct (applyTimePenalty_cases amount w) as [[Hz Eq] | [Hz Eq]];
    rewrite Eq in Hd; cbn [fst] in Hd.
  - lra.
  - change (status (view w) = done) in Hd. congruence.
Qed.

Lemma DoneZero_penalty_then_spawn (amount spawnNow : Q) (w : World) :
  status (view w) = playing ->
  DoneZero (let '(w', ended) := applyTimePenalty amount w in
            if ended then w' else spawnNewTarget spawnNow w').
Proof.
  intros Hp. pose proof (DoneZero_applyTimePenalty amount w Hp) as H.
  destruct (applyTimePenalty amount w) as [w' ended]. cbn [fst] in H.
  destruct ended; [assumption|].
  destruct (spawnNewTarget_frame spawnNow w') as (S1 & S2 & _).
  unfold DoneZero in *. rewrite S1, S2. exact H.
Qed.

Lemma DoneZero_step (w : World) (e : Event) :
  DoneZero w -> DoneZero (step w e).
Proof.
  intros H. destruct e; cbn [step].
  - destruct (Status_eqb _ _) eqn:Ep; [|assumption].
    apply Status_eqb_eq in Ep. unfold countdownTick. cbn zeta.
    destruct (Qle_bool _ 0).
    + intros _. reflexivity.
    + unfold DoneZero. cbn. congruence.
  - destruct (Status_eqb _ _) eqn:Ep; [|assumption].
    apply Status_eqb_eq in Ep. unfold registerMiss.
    cbn [render r_status]. rewrite Ep. cbn [Status_eqb negb]. cbn zeta.
    now apply DoneZero_penalty_then_spawn.
  - unfold registerHit. cbn [render r_status].
    destruct (Status_eqb (status (view w)) playing) eqn:Ep;
      cbn [negb]; [|assumption].
    apply Status_eqb_eq in Ep.
    destruct (isHazard (render w) cellIndex); [|destruct (negb _)];
      cbn zeta.
    + rewrite hazard_last.
      change (DoneZero (hazardScore ?x)) with (DoneZero x).
      now apply DoneZero_penalty_then_spawn.
    + now apply DoneZero_applyTimePenalty.
    + intros Hd. exfalso.
      destruct (spawnNewTarget_frame spawnNow
                  (tapped (now - spawnTimeRef (refs w))
                     (r_streak (render w)) w)) as (S1 & _).
      destruct (tapped_frame (now - spawnTimeRef (refs w))
                  (r_streak (render w)) w) as (T1 & _).
      unfold tapped in S1, T1. unfold DoneZero in Hd.
      rewrite S1, T1 in Hd. congruence.
  - destruct (Status_eqb _ _); [assumption|].
    destruct (reset_status settings cellCount now w) as [-> | (S & _)];
      [assumption|].
    unfold DoneZero. congruence.
  - destruct (Status_eqb _ _); [|assumption].
    unfold resumeGame. destruct (Status_eqb _ _); [|assumption].
    unfold DoneZero. cbn. congruence.
  - unfold onKey. destruct k.
    + destruct (_ && _); [|assumption]. cbn zeta.
      match goal with
      | |- _ (reset random ?s ?c playerName now w) =>
          destruct (reset_status s c now w) as [-> | (S & _)]
      end; [assumption|].
      unfold DoneZero. congruence.
    + destruct (Status_eqb _ playing); [unfold DoneZero; cbn; congruence|].
      destruct (Status_eqb _ paused); [unfold DoneZero; cbn; congruence|].
      assumption.
    + destruct (Status_eqb _ playing); [unfold DoneZero; cbn; congruence|].
      destruct (Status_eqb _ paused); [unfold DoneZero; cbn; congruence|].
      assumption.
Qed.

(** The invariants together, over a run of the mounted component. *)
Lemma reachable_invariants (now0 : Q) (events : list Event) :
  let w := run (mount now0) events in
  Synced w /\ Counted w /\ DoneLatched w /\ DoneZero w.
Proof.
  cbn zeta. unfold run.
  assert (H0 : Synced (mount now0) /\ Counted (mount now0)
               /\ DoneLatched (mount now0) /\ DoneZero (mount now0)).
  { destruct (mount_status now0) as (S & _).
    split; [apply Synced_mount|]. split; [apply Counted_mount|].
    unfold DoneLatched, DoneZero. split; congruence. }
  revert H0. generalize (mount now0).
  induction events as [|e es IH]; intros w H; cbn [fold_left];
    [exact H|].
  apply IH. destruct H as (H1 & H2 & H3 & H4).
  split; [now apply Synced_step|]. split; [now apply Counted_step|].
  split; [now apply DoneLatched_step | now apply DoneZero_step].
Qed.

(** ** Further properties of the run *)

(** X1.  In every state reached from the mounted component, the refs
    that [endRun] reads agree with the state on screen for the score, the
    hits, the total and the fastest reaction; the score and the hits are
    never negative, a fastest reaction is recorded exactly when there is
    a hit, and the state [misses] is never above the ref [missesRef]. *)
Theorem statistics_refs_match_state (now0 : Q) (events : list Event) :
  let w := run (mount now0) events in
  (0 <= score (view w))%Z
  /\ scoreRef (refs w) = score (view w)
  /\ (0 <= hits (view w))%Z
  /\ hitsRef (refs w) = hits (view w)
  /\ totalReactionRef (refs w) = totalReactionMs (view w)
  /\ fastestHitRef (refs w) = fastestHit (view w)
  /\ (fastestHit (view w) = None <-> hits (view w) = 0%Z)
  /\ (0 <= misses (view w) <= missesRef (refs w))%Z.
Proof.
  destruct (reachable_invariants now0 events)
    as ((S1 & S2 & _) & (C1 & C2 & C3 & C4 & C5 & C6 & _) & _).
  cbn zeta. repeat split; try assumption; try apply C5; apply C6.
Qed.

(** X2.  In every state reached from the mounted component the streak
    lies between 0 and the maximal streak recorded for the summary. *)
Theorem streak_within_maximum (now0 : Q) (events : list Event) :
  let w := run (mount now0) events in
  (0 <= streak (view w) <= maxStreakRef (refs w))%Z.
Proof.
  destruct (reachable_invariants now0 events)
    as (_ & (_ & _ & _ & _ & _ & _ & C7) & _).
  exact C7.
Qed.

(** X3.  In every state reached from the mounted component the status is
    [done] exactly when the one-shot latch is set, and a run that is
    [done] shows 0 seconds left. *)
Theorem done_iff_latched (now0 : Q) (events : list Event) :
  let w := run (mount now0) events in
  (status (view w) = done <-> finishedRef (refs w) = true)
  /\ (status (view w) = done -> timeLeft (view w) == 0).
Proof.
  destruct (reachable_invariants now0 events) as (S & _ & L & Z).
  cbn zeta. split; [split|]; [exact L | | exact Z].
  now apply Synced_latched_done.
Qed.

(** X5.  Pausing with P or Escape and resuming, with the key or with the
    Resume button, gives back exactly the state that was paused: nothing
    but the status changes in between. *)
Theorem pause_resume_round_trip (w : World) (k1 k2 : Key) (t1 t2 : Q) :
  status (view w) = playing ->
  k1 <> Space -> k2 <> Space ->
  status (view (step w (KeyDown k1 t1))) = paused
  /\ run w [KeyDown k1 t1; KeyDown k2 t2] = w
  /\ run w [KeyDown k1 t1; ClickResume] = w.
Proof.
  intros Hp H1 H2.
  destruct w as [[st tl sc sk mi hi ac hz fh tr] r n f l].
  cbn in Hp. subst st.
  destruct k1; [contradiction | |]; destruct k2; try contradiction;
    repeat split.
Qed.

(** X6.  When the reaction deadline expires while playing, the streak is
    reset to 0, the miss is counted in the state and in the ref, the
    score and the hits are untouched and the clock loses [missPenalty],
    stopping at 0.  If that leaves no time the run ends there, with the
    target, the hazard and the random stream untouched; otherwise a new
    target is spawned. *)
Theorem deadline_miss_effects (w : World) (spawnNow : Q) :
  status (view w) = playing ->
  let w' := step w (Deadline spawnNow) in
  let counted :=
    missesRef_set (missesRef (refs w) + 1)%Z
      (setMisses (misses (view w) + 1)%Z (setStreak 0%Z w)) in
  let newTime := Math_max 0 (timeLeftRef (refs w) - missPenalty settings) in
  streak (view w') = 0%Z
  /\ misses (view w') = (misses (view w) + 1)%Z
  /\ missesRef (refs w') = (missesRef (refs w) + 1)%Z
  /\ score (view w') = score (view w)
  /\ hits (view w') = hits (view w)
  /\ timeLeft (view w') = newTime
  /\ (newTime <= 0 ->
      w' = endRun (penalised (missPenalty settings) counted)
      /\ activeCell (view w') = activeCell (view w)
      /\ hazardCell (view w') = hazardCell (view w)
      /\ rngPos w' = rngPos w)
  /\ (0 < newTime ->
      w' = spawnNewTarget spawnNow (penalised (missPenalty settings) counted)
      /\ status (view w') = playing).
Proof.
  intros Hplay. cbn zeta. cbn [step].
  assert (Eq : Status_eqb (status (view w)) playing = true)
    by now apply Status_eqb_eq.
  rewrite Eq. unfold registerMiss. cbn [render r_status]. rewrite Eq.
  cbn [negb]. cbn zeta.
  set (counted := missesRef_set _ _).
  set (amount := missPenalty settings).
  pose proof (applyTimePenalty_fields amount counted) as F.
  destruct (applyTimePenalty_cases amount counted) as [[Hz E] | [Hz E]];
    rewrite E in *; cbn [fst] in F;
    destruct F as (E1 & _ & E3 & E4 & E5 & E6 & E7 & E8 & E9 & _ & E11).
  - rewrite E1, E3, E4, E5, E6, E7, E8, E9, E11.
    change (timeLeftRef (refs counted)) with (timeLeftRef (refs w)) in *.
    repeat (split; [reflexivity|]).
    split; [intros _; repeat split | intros Hpos; lra].
  - destruct (spawnNewTarget_frame spawnNow (penalised amount counted))
      as (S1 & S2 & S3 & S4 & S5 & S6 & _ & _ & _ & _ & _ & _ & _ & _ & S15 & _).
    rewrite S1, S2, S3, S4, S5, S6, S15, E1, E3, E4, E5, E6, E7.
    change (timeLeftRef (refs counted)) with (timeLeftRef (refs w)) in *.
    repeat (split; [reflexivity|]).
    split; [intros Hle; lra | intros _; split; [reflexivity | exact Hplay]].
Qed.

(** ** The summaries handed to [onFinish] *)

Lemma percentage_range (h a : Z) :
  (0 <= h <= a)%Z -> (0 < a)%Z ->
  (0 <= Math_round (inject_Z h / inject_Z a * 100) <= 100)%Z.
Proof.
  intros [H0 H1] Ha.
  assert (Haq : 0 < inject_Z a)
    by (change 0 with (inject_Z 0); rewrite <- Zlt_Qlt; exact Ha).
  assert (Hlo : 0 <= inject_Z h / inject_Z a).
  { apply Qle_shift_div_l; [exact Haq|].
    rewrite Qmult_0_l.
    change 0 with (inject_Z 0). now rewrite <- Zle_Qle. }
  assert (Hhi : inject_Z h / inject_Z a <= 1).
  { apply Qle_shift_div_r; [exact Haq|]. rewrite Qmult_1_l.
    now rewrite <- Zle_Qle. }
  generalize dependent (inject_Z h / inject_Z a). intros y Hlo Hhi.
  clear Haq. split.
  - apply Math_round_nonneg. lra.
  - unfold Math_round. apply Z.le_trans with (Qfloor (100 + (1 # 2))).
    + apply Qfloor_resp_le. lra.
    + vm_compute. discriminate.
Qed.

Lemma summary_good (w : World) : RefsGood w -> GoodSummary (summary w).
Proof.
  intros (Hs & Hh & Hm & Hx & Hf). unfold GoodSummary, summary.
  cbn [sum_score sum_hits sum_misses sum_maxStreak sum_accuracy
       sum_avgReaction sum_fastestHit].
  repeat (split; [assumption|]).
  split; [|split; [|split]].
  - destruct (0 <? hitsRef (refs w) + missesRef (refs w))%Z eqn:E.
    + apply Z.ltb_lt in E. split; [discriminate | lia].
    + apply Z.ltb_ge in E. split; [lia | reflexivity].
  - intros a.
    destruct (0 <? hitsRef (refs w) + missesRef (refs w))%Z eqn:E;
      [|discriminate].
    apply Z.ltb_lt in E. intros Ha. injection Ha as <-.
    apply percentage_range; lia.
  - destruct (0 <? hitsRef (refs w))%Z eqn:E.
    + apply Z.ltb_lt in E. split; [discriminate | lia].
    + apply Z.ltb_ge in E. split; [lia | reflexivity].
  - exact Hf.
Qed.

Lemma Reported_ext (w w' : World) :
  scoreRef (refs w') = scoreRef (refs w) ->
  hitsRef (refs w') = hitsRef (refs w) ->
  missesRef (refs w') = missesRef (refs w) ->
  maxStreakRef (refs w') = maxStreakRef (refs w) ->
  fastestHitRef (refs w') = fastestHitRef (refs w) ->
  finished w' = finished w ->
  Reported w -> Reported w'.
Proof. unfold Reported, RefsGood. intros -> -> -> -> -> ->. trivial. Qed.

Lemma Reported_endRun (w : World) : Reported w -> Reported (endRun w).
Proof.
  intros H. destruct (endRun_cases w) as [-> | ->]; [assumption|].
  destruct H as [R F]. split; [exact R|].
  cbn [finished emit]. constructor; [now apply summary_good | exact F].
Qed.

Lemma Reported_spawnNewTarget (now : Q) (w : World) :
  Reported w -> Reported (spawnNewTarget now w).
Proof.
  destruct (spawnNewTarget_shape now w) as (n & hz & p & -> & _).
  apply Reported_ext; reflexivity.
Qed.

Lemma Reported_applyTimePenalty (amount : Q) (w : World) :
  Reported w -> Reported (fst (applyTimePenalty amount w)).
Proof.
  intros H.
  assert (Hp : Reported (penalised amount w))
    by (revert H; apply Reported_ext; reflexivity).
  destruct (applyTimePenalty_cases amount w) as [[_ ->] | [_ ->]];
    cbn [fst]; [now apply Reported_endRun | assumption].
Qed.

Lemma Reported_penalty_then_spawn (amount spawnNow : Q) (w : World) :
  Reported w ->
  Reported (let '(w', ended) := applyTimePenalty amount w in
            if ended then w' else spawnNewTarget spawnNow w').
Proof.
  intros H. pose proof (Reported_applyTimePenalty amount w H) as H'.
  destruct (applyTimePenalty amount w) as [w' ended]. cbn [fst] in H'.
  destruct ended; [assumption | now apply Reported_spawnNewTarget].
Qed.

(** A miss, and a score kept at or above 0. *)
Lemma Reported_missed (w w' : World) :
  ((0 <= scoreRef (refs w))%Z -> (0 <= scoreRef (refs w'))%Z) ->
  hitsRef (refs w') = hitsRef (refs w) ->
  missesRef (refs w') = (missesRef (refs w) + 1)%Z ->
  maxStreakRef (refs w') = maxStreakRef (refs w) ->
  fastestHitRef (refs w') = fastestHitRef (refs w) ->
  finished w' = finished w ->
  Reported w -> Reported w'.
Proof.
  unfold Reported, RefsGood. intros Hs -> -> -> -> ->.
  intros ((H1 & H2 & H3 & H4 & H5) & F).
  repeat split; try assumption; try apply H5; try lia; now apply Hs.
Qed.

Lemma Reported_countdownTick (w : World) :
  Reported w -> Reported (countdownTick w).
Proof.
  intros H. unfold countdownTick. cbn zeta.
  destruct (Qle_bool _ 0); [|revert H; apply Reported_ext; reflexivity].
  match goal with
  | |- Reported (setTimeLeft 0 (endRun ?w1)) =>
      assert (H1 : Reported (endRun w1))
        by (apply Reported_endRun; revert H; apply Reported_ext;
            reflexivity)
  end.
  revert H1. apply Reported_ext; reflexivity.
Qed.

Lemma Reported_registerMiss (r : Render) (spawnNow : Q) (w : World) :
  Reported w -> Reported (registerMiss r spawnNow w).
Proof.
  intros H. unfold registerMiss. destruct (negb _); [assumption|].
  cbn zeta. apply Reported_penalty_then_spawn.
  revert H. apply Reported_missed; try reflexivity. trivial.
Qed.

Lemma Reported_tapped (reaction : Q) (s : Z) (w : World) :
  Reported w -> Reported (tapped reaction s w).
Proof.
  intros ((H1 & H2 & H3 & H4 & H5) & F).
  destruct (tapped_fields reaction s w)
    as (_ & Esr & _ & Ems & _ & _ & _ & Ehr & _ & _ & _ & Efr).
  destruct (tapped_frame reaction s w)
    as (_ & _ & Emr & _ & _ & _ & _ & Ef & _).
  unfold Reported, RefsGood. rewrite Esr, Ems, Ehr, Efr, Emr, Ef.
  repeat split; try lia; try assumption. discriminate.
Qed.

Lemma Reported_hazardScore (w : World) :
  Reported w -> Reported (hazardScore w).
Proof.
  intros ((H1 & H2) & F). split; [split; [|exact H2] | exact F].
  change (0 <= Z.max (score (view w) - 10) 0)%Z. lia.
Qed.

Lemma Reported_registerHit (r : Render) (cellIndex : Z) (now spawnNow : Q)
    (w : World) :
  Reported w -> Reported (registerHit r cellIndex now spawnNow w).
Proof.
  intros H. unfold registerHit.
  destruct (negb (Status_eqb _ _)); [assumption|].
  destruct (isHazard r cellIndex); [|destruct (negb _)]; cbn zeta.
  - rewrite hazard_last. apply Reported_hazardScore.
    apply Reported_penalty_then_spawn.
    revert H. apply Reported_missed; try reflexivity. trivial.
  - apply Reported_applyTimePenalty.
    revert H. apply Reported_missed; try reflexivity. trivial.
  - apply Reported_spawnNewTarget. now apply Reported_tapped.
Qed.

Lemma Reported_cleared (w : World) :
  scoreRef (refs w) = 0%Z -> hitsRef (refs w) = 0%Z ->
  missesRef (refs w) = 0%Z -> maxStreakRef (refs w) = 0%Z ->
  fastestHitRef (refs w) = None ->
  Forall GoodSummary (finished w) ->
  Reported w.
Proof.
  unfold Reported, RefsGood. intros -> -> -> -> -> F.
  repeat split; try lia; assumption.
Qed.

Lemma Reported_reset (s : Settings) (c : Z) (now : Q) (w : World) :
  Reported w -> Reported (reset random s c playerName now w).
Proof.
  intros H. unfold reset. destruct (nameMissing playerName); [assumption|].
  cbn zeta.
  destruct (pickCell random (-1)%Z [] c _) as [next p1].
  destruct (if Qlt_bool 0 _ then _ else _) as [hz p2].
  apply Reported_cleared; try reflexivity. apply H.
Qed.

Lemma Reported_mount (now : Q) : Reported (mount now).
Proof.
  unfold mount, difficultyEffect.
  destruct (pickCell random (-1)%Z [] cellCount 0) as [cell p]. cbn zeta.
  destruct (pickCell random (-1)%Z [] cellCount _) as [next p1].
  apply Reported_cleared; try reflexivity. constructor.
Qed.

Lemma Reported_step (w : World) (e : Event) :
  Reported w -> Reported (step w e).
Proof.
  intros H. destruct e; cbn [step].
  - destruct (Status_eqb _ _); [now apply Reported_countdownTick | assumption].
  - destruct (Status_eqb _ _); [now apply Reported_registerMiss | assumption].
  - now apply Reported_registerHit.
  - destruct (Status_eqb _ _); [assumption | now apply Reported_reset].
  - destruct (Status_eqb _ _); [|assumption].
    unfold resumeGame. destruct (Status_eqb _ _); [|assumption].
    revert H. apply Reported_ext; reflexivity.
  - unfold onKey. destruct k.
    + destruct (_ && _); [cbn zeta; now apply Reported_reset | assumption].
    + destruct (Status_eqb _ playing);
        [revert H; apply Reported_ext; reflexivity|].
      destruct (Status_eqb _ paused); [|assumption].
      revert H. apply Reported_ext; reflexivity.
    + destruct (Status_eqb _ playing);
        [revert H; apply Reported_ext; reflexivity|].
      destruct (Status_eqb _ paused); [|assumption].
      revert H. apply Reported_ext; reflexivity.
Qed.

(** X7.  Every summary the mounted component hands to [onFinish], over
    any sequence of events, has a score, hits, misses and maximal streak
    that are not negative; its accuracy is [null] exactly when there was
    no attempt and otherwise lies between 0 and 100; its average and its
    fastest reaction are [null] exactly when there was no hit. *)
Theorem summaries_well_formed (now0 : Q) (events : list Event) :
  Forall GoodSummary (finished (run (mount now0) events)).
Proof.
  assert (H : Reported (run (mount now0) events)).
  { unfold run. generalize (Reported_mount now0). generalize (mount now0).
    induction events as [|e es IH]; intros w H; cbn [fold_left];
      [exact H|].
    apply IH. now apply Reported_step. }
  apply H.
Qed.

(** ** The statistics of a summary against each other *)

Lemma round_lower (x : Q) (f : Z) :
  (f <= Math_round x)%Z -> inject_Z f - (1 # 2) <= x.
Proof.
  intros H. unfold Math_round in H. rewrite Zle_Qle in H.
  pose proof (Qfloor_le (x + (1 # 2))) as L. lra.
Qed.

Lemma round_mean (f h : Z) (t : Q) :
  (0 < h)%Z ->
  (inject_Z f - (1 # 2)) * inject_Z h <= t ->
  (f <= Math_round (t / inject_Z h))%Z.
Proof.
  intros Hh H.
  assert (Qh : 0 < inject_Z h)
    by (change 0 with (inject_Z 0); rewrite <- Zlt_Qlt; exact Hh).
  assert (L : inject_Z f - (1 # 2) <= t / inject_Z h)
    by (apply Qle_shift_div_l; assumption).
  unfold Math_round. rewrite <- (Qfloor_Z f). apply Qfloor_resp_le.
  generalize dependent (t / inject_Z h). intros; lra.
Qed.

Lemma summary_paced (w : World) : RefsPaced w -> PacedSummary (summary w).
Proof.
  intros (H0 & _ & Hm & Hf). unfold PacedSummary, summary.
  cbn [sum_maxStreak sum_hits sum_fastestHit sum_avgReaction].
  split; [exact Hm|]. intros f a Ef.
  destruct (0 <? hitsRef (refs w))%Z eqn:E; [|discriminate].
  apply Z.ltb_lt in E. intros Ha. injection Ha as <-.
  rewrite Ef in Hf. now apply round_mean.
Qed.

Lemma Paced_ext (w w' : World) :
  streak (view w') = streak (view w) ->
  hitsRef (refs w') = hitsRef (refs w) ->
  maxStreakRef (refs w') = maxStreakRef (refs w) ->
  fastestHitRef (refs w') = fastestHitRef (refs w) ->
  totalReactionRef (refs w') = totalReactionRef (refs w) ->
  finished w' = finished w ->
  Paced w -> Paced w'.
Proof. unfold Paced, RefsPaced. intros -> -> -> -> -> ->. trivial. Qed.

(** A penalty resets the streak and leaves the hits alone. *)
Lemma Paced_missed (w w' : World) :
  streak (view w') = 0%Z ->
  hitsRef (refs w') = hitsRef (refs w) ->
  maxStreakRef (refs w') = maxStreakRef (refs w) ->
  fastestHitRef (refs w') = fastestHitRef (refs w) ->
  totalReactionRef (refs w') = totalReactionRef (refs w) ->
  finished w' = finished w ->
  Paced w -> Paced w'.
Proof.
  unfold Paced, RefsPaced. intros -> -> -> -> -> ->.
  intros ((H0 & _ & H) & F). split; [|exact F].
  split; [exact H0|]. split; [exact H0 | exact H].
Qed.

Lemma Paced_endRun (w : World) : Paced w -> Paced (endRun w).
Proof.
  intros H. destruct (endRun_cases w) as [-> | ->]; [assumption|].
  destruct H as [R F]. split; [exact R|].
  cbn [finished emit]. constructor; [now apply summary_paced | exact F].
Qed.

Lemma Paced_spawnNewTarget (now : Q) (w : World) :
  Paced w -> Paced (spawnNewTarget now w).
Proof.
  destruct (spawnNewTarget_shape now w) as (n & hz & p & -> & _).
  apply Paced_ext; reflexivity.
Qed.

Lemma Paced_applyTimePenalty (amount : Q) (w : World) :
  Paced w -> Paced (fst (applyTimePenalty amount w)).
Proof.
  intros H.
  assert (Hp : Paced (penalised amount w))
    by (revert H; apply Paced_ext; reflexivity).
  destruct (applyTimePenalty_cases amount w) as [[_ ->] | [_ ->]];
    cbn [fst]; [now apply Paced_endRun | assumption].
Qed.

Lemma Paced_penalty_then_spawn (amount spawnNow : Q) (w : World) :
  Paced w ->
  Paced (let '(w', ended) := applyTimePenalty amount w in
         if ended then w' else spawnNewTarget spawnNow w').
Proof.
  intros H. pose proof (Paced_applyTimePenalty amount w H) as H'.
  destruct (applyTimePenalty amount w) as [w' ended]. cbn [fst] in H'.
  destruct ended; [assumption | now apply Paced_spawnNewTarget].
Qed.

Lemma Paced_countdownTick (w : World) : Paced w -> Paced (countdownTick w).
Proof.
  intros H. unfold countdownTick. cbn zeta.
  destruct (Qle_bool _ 0); [|revert H; apply Paced_ext; reflexivity].
  match goal with
  | |- Paced (setTimeLeft 0 (endRun ?w1)) =>
      assert (H1 : Paced (endRun w1))
        by (apply Paced_endRun; revert H; apply Paced_ext; reflexivity)
  end.
  revert H1. apply Paced_ext; reflexivity.
Qed.

Lemma Paced_registerMiss (r : Render) (spawnNow : Q) (w : World) :
  Paced w -> Paced (registerMiss r spawnNow w).
Proof.
  intros H. unfold registerMiss. destruct (negb _); [assumption|].
  cbn zeta. apply Paced_penalty_then_spawn.
  revert H. apply Paced_missed; reflexivity.
Qed.

Lemma Paced_tapped (reaction : Q) (w : World) :
  Paced w -> Paced (tapped reaction (streak (view w)) w).
Proof.
  intros ((H0 & H1 & H2 & H3) & F).
  destruct (tapped_fields reaction (streak (view w)) w)
    as (_ & _ & Est & Ems & _ & _ & _ & Ehr & _ & Etr & _ & Efr).
  destruct (tapped_frame reaction (streak (view w)) w)
    as (_ & _ & _ & _ & _ & _ & _ & Ef & _).
  unfold Paced, RefsPaced. rewrite Est, Ems, Ehr, Etr, Efr, Ef.
  split; [|exact F].
  split; [lia|]. split; [lia|]. split; [lia|].
  rewrite inject_Z_plus. change (inject_Z 1) with 1.
  destruct (fastestHitRef (refs w)) as [cur|].
  - assert (L1 : inject_Z (Z.min cur (Math_round reaction)) - (1 # 2)
                 <= reaction) by (apply round_lower; lia).
    assert (L2 : inject_Z (Z.min cur (Math_round reaction))
                 <= inject_Z cur) by (rewrite <- Zle_Qle; lia).
    assert (Qh : 0 <= inject_Z (hitsRef (refs w)))
      by (change 0 with (inject_Z 0); rewrite <- Zle_Qle; exact H0).
    assert (P : (inject_Z (Z.min cur (Math_round reaction)) - (1 # 2))
                * inject_Z (hitsRef (refs w))
                <= (inject_Z cur - (1 # 2)) * inject_Z (hitsRef (refs w))).
    { apply Qmult_le_compat_r; [lra | exact Qh]. }
    rewrite Qmult_plus_distr_r, Qmult_1_r.
    generalize dependent (inject_Z (Z.min cur (Math_round reaction))).
    intros m L1 L2 P.
    generalize dependent ((m - (1 # 2)) * inject_Z (hitsRef (refs w))).
    generalize dependent ((inject_Z cur - (1 # 2))
                          * inject_Z (hitsRef (refs w))).
    intros; lra.
  - destruct H3 as [Hz Ht]. rewrite Hz, Ht.
    assert (L1 : inject_Z (Math_round reaction) - (1 # 2) <= reaction)
      by (apply round_lower; lia).
    change (inject_Z 0) with 0.
    generalize dependent (inject_Z (Math_round reaction)). intros; lra.
Qed.

Lemma Paced_registerHit (cellIndex : Z) (now spawnNow : Q) (w : World) :
  Paced w -> Paced (registerHit (render w) cellIndex now spawnNow w).
Proof.
  intros H. unfold registerHit.
  destruct (negb (Status_eqb _ _)); [assumption|].
  destruct (isHazard (render w) cellIndex); [|destruct (negb _)]; cbn zeta.
  - rewrite hazard_last.
    match goal with
    | |- ?P (hazardScore ?x) =>
        cut (P x); [apply Paced_ext; reflexivity|]
    end.
    apply Paced_penalty_then_spawn.
    revert H. apply Paced_missed; reflexivity.
  - apply Paced_applyTimePenalty.
    revert H. apply Paced_missed; reflexivity.
  - apply Paced_spawnNewTarget. cbn [render r_streak].
    now apply Paced_tapped.
Qed.

Lemma Paced_cleared (w : World) :
  streak (view w) = 0%Z -> hitsRef (refs w) = 0%Z ->
  maxStreakRef (refs w) = 0%Z -> fastestHitRef (refs w) = None ->
  totalReactionRef (refs w) = 0 ->
  Forall PacedSummary (finished w) ->
  Paced w.
Proof.
  unfold Paced, RefsPaced. intros -> -> -> -> -> F.
  split; [|exact F]. repeat split; lia.
Qed.

Lemma Paced_reset (s : Settings) (c : Z) (now : Q) (w : World) :
  Paced w -> Paced (reset random s c playerName now w).
Proof.
  intros H. unfold reset. destruct (nameMissing playerName); [assumption|].
  cbn zeta.
  destruct (pickCell random (-1)%Z [] c _) as [next p1].
  destruct (if Qlt_bool 0 _ then _ else _) as [hz p2].
  apply Paced_cleared; try reflexivity. apply H.
Qed.

Lemma Paced_mount (now : Q) : Paced (mount now).
Proof.
  unfold mount, difficultyEffect.
  destruct (pickCell random (-1)%Z [] cellCount 0) as [cell p]. cbn zeta.
  destruct (pickCell random (-1)%Z [] cellCount _) as [next p1].
  apply Paced_cleared; try reflexivity. constructor.
Qed.

Lemma Paced_step (w : World) (e : Event) : Paced w -> Paced (step w e).
Proof.
  intros H. destruct e; cbn [step].
  - destruct (Status_eqb _ _); [now apply Paced_countdownTick | assumption].
  - destruct (Status_eqb _ _); [now apply Paced_registerMiss | assumption].
  - now apply Paced_registerHit.
  - destruct (Status_eqb _ _); [assumption | now apply Paced_reset].
  - destruct (Status_eqb _ _); [|assumption].
    unfold resumeGame. destruct (Status_eqb _ _); [|assumption].
    revert H. apply Paced_ext; reflexivity.
  - unfold onKey. destruct k.
    + destruct (_ && _); [cbn zeta; now apply Paced_reset | assumption].
    + destruct (Status_eqb _ playing);
        [revert H; apply Paced_ext; reflexivity|].
      destruct (Status_eqb _ paused); [|assumption].
      revert H. apply Paced_ext; reflexivity.
    + destruct (Status_eqb _ playing);
        [revert H; apply Paced_ext; reflexivity|].
      destruct (Status_eqb _ paused); [|assumption].
      revert H. apply Paced_ext; reflexivity.
Qed.

(** X23.  In every summary the mounted component hands to [onFinish],
    over any sequence of events, the maximal streak is at most the number
    of hits, and the fastest reaction is at most the average reaction
    whenever both are reported; in every state reached, the streak on
    screen is at most the hits on screen. *)
Theorem summary_statistics_consistent (now0 : Q) (events : list Event) :
  let w := run (mount now0) events in
  (streak (view w) <= hits (view w))%Z
  /\ Forall (fun r =>
               (sum_maxStreak r <= sum_hits r)%Z
               /\ forall f a,
                    sum_fastestHit r = Some f ->
                    sum_avgReaction r = Some a -> (f <= a)%Z)
       (finished w).
Proof.
  cbn zeta.
  assert (H : Paced (run (mount now0) events)).
  { unfold run. generalize (Paced_mount now0). generalize (mount now0).
    induction events as [|e es IH]; intros w H; cbn [fold_left];
      [exact H|].
    apply IH. now apply Paced_step. }
  destruct (reachable_invariants now0 events) as (_ & (_ & C2 & _) & _).
  destruct H as ((_ & H1 & _) & F).
  split; [rewrite <- C2; exact H1 | exact F].
Qed.

(** ** The summary against the final state *)

Lemma Emits_endRun (w0 w : World) :
  finished w = finished w0 ->
  scoreRef (refs w) = scoreRef (refs w0) ->
  score (view w) = score (view w0) ->
  Emits false w0 (endRun w).
Proof.
  intros F R S. destruct (endRun_cases w) as [-> | ->]; [now left|].
  right. split; [|split; [reflexivity | exact S]].
  cbn [finished emit]. rewrite <- F, <- R. reflexivity.
Qed.

Lemma Emits_applyTimePenalty (amount : Q) (w0 w : World) :
  finished w = finished w0 ->
  scoreRef (refs w) = scoreRef (refs w0) ->
  score (view w) = score (view w0) ->
  Emits false w0 (fst (applyTimePenalty amount w)).
Proof.
  intros F R S.
  destruct (applyTimePenalty_cases amount w) as [[_ ->] | [_ ->]];
    cbn [fst].
  - now apply Emits_endRun.
  - left. exact F.
Qed.

Lemma Emits_penalty_then_spawn (amount spawnNow : Q) (w0 w : World) :
  finished w = finished w0 ->
  scoreRef (refs w) = scoreRef (refs w0) ->
  score (view w) = score (view w0) ->
  Emits false w0 (let '(w', ended) := applyTimePenalty amount w in
                  if ended then w' else spawnNewTarget spawnNow w').
Proof.
  intros F R S.
  pose proof (Emits_applyTimePenalty amount w0 w F R S) as H'.
  destruct (applyTimePenalty_cases amount w) as [[_ E] | [_ E]];
    rewrite E in *; cbn [fst] in H'; [exact H'|].
  left. destruct (spawnNewTarget_frame spawnNow (penalised amount w))
    as (_ & _ & _ & _ & _ & _ & _ & _ & F' & _).
  rewrite F'. exact F.
Qed.

(** The updater of the hazard branch runs after the summary was handed
    over. *)
Lemma Emits_hazardScore (w0 w : World) :
  Emits false w0 w -> Emits true w0 (hazardScore w).
Proof.
  intros [F | (F & S & E)]; [now left|]. right.
  split; [exact F|]. split; [exact S|].
  change (Z.max (score (view w) - 10) 0 = Z.max (score (view w0) - 10) 0).
  now rewrite E.
Qed.

Lemma Emits_countdownTick (w : World) : Emits false w (countdownTick w).
Proof.
  unfold countdownTick. cbn zeta.
  destruct (Qle_bool _ 0); [|now left].
  match goal with
  | |- Emits _ _ (setTimeLeft 0 (endRun ?w1)) =>
      destruct (endRun_cases w1) as [-> | ->]
  end; [now left | right; repeat split].
Qed.

Lemma Emits_step (w : World) (e : Event) :
  Emits (hazardTap w e) w (step w e).
Proof.
  destruct e; cbn [step hazardTap].
  - destruct (Status_eqb _ _); [apply Emits_countdownTick | now left].
  - destruct (Status_eqb _ _); [|now left].
    unfold registerMiss. destruct (negb _); [now left|]. cbn zeta.
    now apply Emits_penalty_then_spawn.
  - unfold registerHit. destruct (negb (Status_eqb _ _)); [now left|].
    destruct (isHazard (render w) cellIndex); [|destruct (negb _)];
      cbn zeta.
    + rewrite hazard_last. apply Emits_hazardScore.
      now apply Emits_penalty_then_spawn.
    + now apply Emits_applyTimePenalty.
    + left.
      destruct (spawnNewTarget_frame spawnNow
                  (tapped (now - spawnTimeRef (refs w))
                     (r_streak (render w)) w))
        as (_ & _ & _ & _ & _ & _ & _ & _ & F & _).
      destruct (tapped_frame (now - spawnTimeRef (refs w))
                  (r_streak (render w)) w)
        as (_ & _ & _ & _ & _ & _ & _ & T & _).
      unfold tapped in F, T. rewrite F. exact T.
  - destruct (Status_eqb _ _); [now left|].
    destruct (reset_status settings cellCount now w) as [-> | (_ & _ & F)];
      now left.
  - destruct (Status_eqb _ _); [|now left].
    unfold resumeGame. destruct (Status_eqb _ _); now left.
  - unfold onKey. destruct k.
    + destruct (_ && _); [|now left]. cbn zeta.
      match goal with
      | |- _ (reset random ?s ?c playerName now w) =>
          destruct (reset_status s c now w) as [-> | (_ & _ & F)]
      end; now left.
    + destruct (Status_eqb _ playing); [now left|].
      destruct (Status_eqb _ paused); now left.
    + destruct (Status_eqb _ playing); [now left|].
      destruct (Status_eqb _ paused); now left.
Qed.

(** X8.  Each event delivered to the mounted component hands at most one
    summary to [onFinish], and only by ending the run; that summary
    carries the player name and the mode and reports the hits, the
    fastest reaction and the maximal streak of the state the event
    leaves, a miss count that is at least the one of that state, and the
    score that was on screen before the event.  The event leaves that
    score on screen, unless it is a tap on the hazard tile: the summary
    is handed over before the hazard's 10 points are taken, and the
    screen then shows the lower score. *)
Theorem summary_matches_screen (now0 : Q) (events : list Event)
    (e : Event) :
  let w := run (mount now0) events in
  let w' := step w e in
  finished w' = finished w
  \/ (exists r,
        finished w' = r :: finished w
        /\ status (view w') = done
        /\ sum_playerName r = playerName /\ sum_mode r = mode
        /\ sum_score r = score (view w)
        /\ score (view w')
           = (if hazardTap w e then Z.max (sum_score r - 10) 0
              else sum_score r)
        /\ sum_hits r = hits (view w')
        /\ sum_fastestHit r = fastestHit (view w')
        /\ (streak (view w') <= sum_maxStreak r)%Z
        /\ (misses (view w') <= sum_misses r)%Z).
Proof.
  cbn zeta.
  destruct (Emits_step (run (mount now0) events) e) as [E | (E & S & Sc)];
    [now left|].
  right.
  exists (scored (scoreRef (refs (run (mount now0) events)))
            (summary (step (run (mount now0) events) e))).
  assert (R : step (run (mount now0) events) e
              = run (mount now0) (events ++ [e])).
  { unfold run. now rewrite fold_left_app. }
  destruct (reachable_invariants now0 (events ++ [e]))
    as (_ & (_ & C2 & _ & C4 & _ & C6 & C7) & _).
  rewrite <- R in C2, C4, C6, C7.
  destruct (reachable_invariants now0 events) as ((_ & S2 & _) & _).
  cbn [scored sum_playerName sum_mode sum_score sum_hits sum_fastestHit
       sum_maxStreak sum_misses].
  rewrite S2.
  unfold summary at 2 3 4 5 6 7.
  cbn [sum_playerName sum_mode sum_score sum_hits sum_fastestHit
       sum_maxStreak sum_misses].
  split; [rewrite E, S2; reflexivity|].
  repeat split; try assumption; try apply C6; apply C7.
Qed.

(** ** The target and the hazard stay on the grid *)

Lemma Within_ext (n : Z) (w w' : World) :
  activeCell (view w') = activeCell (view w) ->
  hazardCell (view w') = hazardCell (view w) ->
  Within n w -> Within n w'.
Proof. unfold Within. intros -> ->. trivial. Qed.

Lemma Within_no_hazard (n : Z) (w w' : World) :
  activeCell (view w') = activeCell (view w) ->
  hazardCell (view w') = None ->
  Within n w -> Within n w'.
Proof.
  unfold Within. intros -> -> [H _]. split; [exact H | discriminate].
Qed.

Lemma hazardDraw_in_range (s : Settings) (c next : Z) (pos : nat) (h : Z) :
  (1 <= c)%Z ->
  fst (hazardDraw random s c next pos) = Some h -> (0 <= h < c)%Z.
Proof.
  intros Hc. unfold hazardDraw.
  destruct (Qlt_bool _ _); [|discriminate].
  pose proof (pickCell_in_range next [next] c (S pos) Hc) as Hr.
  destruct (pickCell random next [next] c (S pos)) as [x p].
  cbn [fst] in *. intros E. injection E as <-. exact Hr.
Qed.

Lemma Within_spawnNewTarget (n : Z) (now : Q) (w : World) :
  (1 <= cellCount <= n)%Z -> Within n (spawnNewTarget now w).
Proof.
  intros [Hc Hn].
  destruct (spawnNewTarget_shape now w) as (x & hz & p & -> & En & Eh).
  unfold Within. cbn. split.
  - rewrite En.
    pose proof (pickCell_in_range (activeCell (view w)) [] cellCount
                  (rngPos w) Hc). lia.
  - intros h E. rewrite Eh in E.
    apply hazardDraw_in_range in E; [lia | exact Hc].
Qed.

Lemma Within_applyTimePenalty (n : Z) (amount : Q) (w : World) :
  Within n w -> Within n (fst (applyTimePenalty amount w)).
Proof.
  destruct (applyTimePenalty_fields amount w)
    as (_ & _ & _ & _ & _ & _ & _ & E8 & E9 & _).
  now apply Within_ext.
Qed.

Lemma Within_penalty_then_spawn (n : Z) (amount spawnNow : Q) (w : World) :
  (1 <= cellCount <= n)%Z -> Within n w ->
  Within n (let '(w', ended) := applyTimePenalty amount w in
            if ended then w' else spawnNewTarget spawnNow w').
Proof.
  intros Hc H. pose proof (Within_applyTimePenalty n amount w H) as H'.
  destruct (applyTimePenalty amount w) as [w' ended]. cbn [fst] in H'.
  destruct ended; [assumption | now apply Within_spawnNewTarget].
Qed.

Lemma Within_reset (n : Z) (s : Settings) (c : Z) (now : Q) (w : World) :
  (1 <= c <= n)%Z -> Within n w ->
  Within n (reset random s c playerName now w).
Proof.
  intros [Hc Hn] H. unfold reset.
  destruct (nameMissing playerName); [assumption|].
  cbn zeta.
  pose proof (pickCell_in_range (-1) [] c
                (rngPos (clearCounters s (setStatus playing (clearRefs s w))))
                Hc) as Hr.
  destruct (pickCell random (-1)%Z [] c _) as [next p1].
  cbn [fst] in Hr.
  destruct (Qlt_bool 0 (hazardChance s)).
  - pose proof (hazardDraw_in_range s c next p1) as Hh.
    destruct (hazardDraw random s c next p1) as [hz p2]. cbn [fst] in Hh.
    unfold Within. cbn. split; [lia|]. intros h E.
    specialize (Hh h Hc E). lia.
  - unfold Within. cbn. split; [lia | discriminate].
Qed.

Lemma Within_mount (now : Q) :
  (1 <= cellCount)%Z -> Within cellCount (mount now).
Proof.
  intros Hc. unfold mount, difficultyEffect.
  destruct (pickCell random (-1)%Z [] cellCount 0) as [cell p]. cbn zeta.
  match goal with
  | |- context [pickCell random (-1)%Z [] cellCount ?q] =>
      pose proof (pickCell_in_range (-1) [] cellCount q Hc) as Hr;
      destruct (pickCell random (-1)%Z [] cellCount q) as [next p1]
  end.
  unfold Within. cbn. split; [exact Hr | discriminate].
Qed.

(** The events keep the target and the hazard among the tiles of the
    current grid and of the grid of the listener in place. *)
Lemma Within_step (n : Z) (w : World) (e : Event) :
  (1 <= cellCount <= n)%Z ->
  (1 <= l_cellCount (keyListener w) <= n)%Z ->
  Within n w -> Within n (step w e).
Proof.
  intros Hc Hl H. destruct e; cbn [step].
  - destruct (Status_eqb _ _); [|assumption].
    revert H. apply Within_ext; [|apply countdownTick_hazardCell].
    unfold countdownTick. cbn zeta. destruct (Qle_bool _ 0); [|reflexivity].
    match goal with
    | |- context [endRun ?w1] => destruct (endRun_cases w1) as [-> | ->]
    end; reflexivity.
  - destruct (Status_eqb _ _); [|assumption].
    unfold registerMiss. destruct (negb _); [assumption|]. cbn zeta.
    apply Within_penalty_then_spawn; [exact Hc|].
    revert H. apply Within_ext; reflexivity.
  - unfold registerHit. destruct (negb (Status_eqb _ _)); [assumption|].
    destruct (isHazard (render w) cellIndex); [|destruct (negb _)];
      cbn zeta.
    + rewrite hazard_last.
      match goal with
      | |- ?P (hazardScore ?x) =>
          cut (P x); [apply Within_ext; reflexivity|]
      end.
      apply Within_penalty_then_spawn; [exact Hc|].
      revert H. apply Within_no_hazard; reflexivity.
    + apply Within_applyTimePenalty.
      revert H. apply Within_ext; reflexivity.
    + now apply Within_spawnNewTarget.
  - destruct (Status_eqb _ _); [assumption | now apply Within_reset].
  - destruct (Status_eqb _ _); [|assumption].
    unfold resumeGame. destruct (Status_eqb _ _); [|assumption].
    revert H. apply Within_ext; reflexivity.
  - unfold onKey. destruct k.
    + destruct (_ && _); [|assumption]. cbn zeta.
      destruct (Status_eqb (r_status (render w)) idle);
        now apply Within_reset.
    + destruct (Status_eqb _ playing);
        [revert H; apply Within_ext; reflexivity|].
      destruct (Status_eqb _ paused); [|assumption].
      revert H. apply Within_ext; reflexivity.
    + destruct (Status_eqb _ playing);
        [revert H; apply Within_ext; reflexivity|].
      destruct (Status_eqb _ paused); [|assumption].
      revert H. apply Within_ext; reflexivity.
Qed.

Lemma Within_run (n : Z) (es : list Event) (w : World) :
  (1 <= cellCount <= n)%Z ->
  (1 <= l_cellCount (keyListener w) <= n)%Z ->
  Within n w -> Within n (run w es).
Proof.
  intros Hc. unfold run. revert w.
  induction es as [|e es IH]; intros w Hl H; cbn [fold_left]; [exact H|].
  apply IH; [now rewrite keyListener_step | now apply Within_step].
Qed.

Lemma InGrid_run (es : list Event) (w : World) :
  (1 <= cellCount)%Z -> Fresh w -> InGrid w -> InGrid (run w es).
Proof.
  intros Hc F. apply Within_run; [lia|]. rewrite F. cbn. lia.
Qed.

(** The state a change of the props leaves, and its listener. *)
Lemma propsChange_cases (w : World) :
  (status (view w) = idle
   /\ propsChange w = difficultyEffect w
   /\ keyListener (propsChange w) = keyListener w)
  \/ (status (view w) <> idle
      /\ propsChange w = listen currentProps (difficultyEffect w)
      /\ Fresh (propsChange w)).
Proof.
  unfold propsChange.
  destruct (Status_eqb (status (view w)) idle) eqn:E.
  - left. apply Status_eqb_eq in E. split; [exact E|].
    split; [reflexivity|].
    unfold difficultyEffect. cbn zeta.
    destruct (pickCell random (-1)%Z [] cellCount _) as [next p1].
    reflexivity.
  - right. split; [|split; reflexivity].
    intros D. apply Status_eqb_eq in D. congruence.
Qed.

Lemma Within_difficultyEffect (w : World) :
  (1 <= cellCount)%Z -> Within cellCount (difficultyEffect w).
Proof.
  intros Hc. unfold difficultyEffect. cbn zeta.
  match goal with
  | |- context [pickCell random (-1)%Z [] cellCount ?q] =>
      pose proof (pickCell_in_range (-1) [] cellCount q Hc) as Hr;
      destruct (pickCell random (-1)%Z [] cellCount q) as [next p1]
  end.
  unfold Within. cbn. split; [exact Hr | discriminate].
Qed.

Lemma Within_weaken (n m : Z) (w : World) :
  (n <= m)%Z -> Within n w -> Within m w.
Proof.
  intros Hn [H1 H2]. split; [lia|]. intros h E. specialize (H2 h E). lia.
Qed.

(** After a change of the props, over the events that follow. *)
Lemma Within_after_change (w : World) (es : list Event) :
  (1 <= cellCount)%Z ->
  (1 <= l_cellCount (keyListener w))%Z ->
  Within (reach w) (run (propsChange w) es).
Proof.
  intros Hc Hl. unfold reach.
  destruct (propsChange_cases w) as [(S & E & L) | (S & E & F)].
  - rewrite S. cbn [Status_eqb].
    apply Within_run; [lia | rewrite L; lia |].
    rewrite E. apply Within_weaken with cellCount; [lia|].
    now apply Within_difficultyEffect.
  - destruct (Status_eqb (status (view w)) idle) eqn:D;
      [apply Status_eqb_eq in D; congruence|].
    apply Within_run; [lia | rewrite F; cbn; lia |].
    rewrite E.
    change (Within cellCount (difficultyEffect w)).
    now apply Within_difficultyEffect.
Qed.

(** X9.  With draws in [0, 1) and at least one tile, the active target
    is a tile of the grid, and so is the hazard when there is one, in
    every state reached from the mounted component while the props stay
    as they are.  After a change of the profile or of the grid, whatever
    the state [w] then, the same holds on the new grid when [w] was not
    idle; when it was, the Space key still calls the [reset] of the
    listener registered before the change, which draws on the grid of
    that listener: the target and the hazard are then tiles of the
    larger of the two grids. *)
Theorem target_stays_on_grid (now0 : Q) (w : World)
    (events : list Event) :
  (1 <= cellCount)%Z ->
  (1 <= l_cellCount (keyListener w))%Z ->
  let w1 := run (mount now0) events in
  let w2 := run (propsChange w) events in
  let count :=
    if Status_eqb (status (view w)) idle
    then Z.max cellCount (l_cellCount (keyListener w))
    else cellCount in
  ((0 <= activeCell (view w1) < cellCount)%Z
   /\ forall h, hazardCell (view w1) = Some h -> (0 <= h < cellCount)%Z)
  /\ ((0 <= activeCell (view w2) < count)%Z
      /\ forall h, hazardCell (view w2) = Some h -> (0 <= h < count)%Z).
Proof.
  intros Hc Hl. cbn zeta. split.
  - apply InGrid_run; [exact Hc | apply Fresh_mount |].
    now apply Within_mount.
  - now apply Within_after_change.
Qed.

(** ** Which draw the selector returns *)

Lemma draw_shift (count : Z) (pos j : nat) :
  draw count (S pos) j = draw count pos (S j).
Proof. unfold draw. now rewrite Nat.add_succ_r. Qed.

Lemma draw_first (count : Z) (pos : nat) :
  Math_floor (random pos * inject_Z count) = draw count pos 0.
Proof. unfold draw. now rewrite Nat.add_0_r. Qed.

Lemma pickCell_while_accepts (disallow : list Z) (count : Z) (k : nat) :
  forall budget next pos,
    (k < budget)%nat ->
    has disallow next = true ->
    (forall j, (j < k)%nat -> has disallow (draw count pos j) = true) ->
    has disallow (draw count pos k) = false ->
    pickCell_while random budget disallow count next pos
    = (draw count pos k, (pos + k + 1)%nat).
Proof.
  induction k as [|k IH]; intros budget next pos Hk Hn Hrej Hacc;
    (destruct budget as [|b]; [lia|]); cbn [pickCell_while];
    rewrite Hn, draw_first.
  - destruct b as [|b]; cbn [pickCell_while];
      [|rewrite Hacc]; f_equal; lia.
  - rewrite (IH b (draw count pos 0) (S pos)).
    + rewrite draw_shift. f_equal. lia.
    + lia.
    + apply Hrej. lia.
    + intros j Hj. rewrite draw_shift. apply Hrej. lia.
    + now rewrite draw_shift.
Qed.

Lemma pickCell_while_exhausts (disallow : list Z) (count : Z) :
  forall budget next pos,
    has disallow next = true ->
    (forall j, (j < budget)%nat -> has disallow (draw count pos j) = true) ->
    pickCell_while random (S budget) disallow count next pos
    = (draw count pos budget, (pos + S budget)%nat).
Proof.
  induction budget as [|b IH]; intros next pos Hn Hrej;
    cbn [pickCell_while]; rewrite Hn, draw_first.
  - f_equal. lia.
  - change (pickCell_while random (S b) disallow count
              (draw count pos 0) (S pos)
            = (draw count pos (S b), (pos + S (S b))%nat)).
    rewrite IH.
    + rewrite draw_shift. f_equal. lia.
    + apply Hrej. lia.
    + intros j Hj. rewrite draw_shift. apply Hrej. lia.
Qed.

(** A rejected result means every draw of the budget was rejected. *)
Lemma pickCell_while_rejected (disallow : list Z) (count : Z) :
  forall budget next pos,
    has disallow next = true ->
    has disallow
      (fst (pickCell_while random budget disallow count next pos)) = true ->
    forall j, (j < budget)%nat -> has disallow (draw count pos j) = true.
Proof.
  induction budget as [|b IH]; intros next pos Hn Hres j Hj; [lia|].
  cbn [pickCell_while] in Hres. rewrite Hn, draw_first in Hres.
  destruct (has disallow (draw count pos 0)) eqn:E0.
  - destruct j as [|j]; [exact E0|].
    rewrite <- draw_shift. apply (IH _ _ E0 Hres). lia.
  - destruct b as [|b]; cbn [pickCell_while fst] in Hres;
      [|rewrite E0 in Hres; cbn [fst] in Hres]; congruence.
Qed.

Lemma has_previous (previous : Z) (banned : list Z) :
  has (previous :: banned) previous = true.
Proof. apply has_In. now left. Qed.

Lemma has_false_In (disallow : list Z) (x : Z) :
  has disallow x = false <-> ~ In x disallow.
Proof.
  rewrite <- has_In. destruct (has disallow x); split; congruence.
Qed.

(** X10.  [pickCell] returns the first of its draws that is neither
    [previous] nor excluded, and reads the stream no further: if the
    draws before the [k]-th (k < 40) are all rejected and the [k]-th is
    not, the result is that draw and [k + 1] draws were made. *)
Theorem pickCell_first_accepted (previous : Z) (banned : list Z)
    (count : Z) (pos k : nat) :
  (k < 40)%nat ->
  (forall j, (j < k)%nat -> In (draw count pos j) (previous :: banned)) ->
  ~ In (draw count pos k) (previous :: banned) ->
  pickCell random previous banned count pos
  = (draw count pos k, (pos + k + 1)%nat).
Proof.
  intros Hk Hrej Hacc. unfold pickCell.
  apply pickCell_while_accepts; try assumption.
  - apply has_previous.
  - intros j Hj. apply has_In. now apply Hrej.
  - now apply has_false_In.
Qed.

Lemma pickCell_repeats (previous : Z) (banned : list Z) (count : Z)
    (pos : nat) :
  In (fst (pickCell random previous banned count pos))
    (previous :: banned) ->
  forall j, (j < 40)%nat -> In (draw count pos j) (previous :: banned).
Proof.
  intros Hres j Hj. apply has_In.
  apply (pickCell_while_rejected (previous :: banned) count 40
           previous pos); try assumption.
  - apply has_previous.
  - now apply has_In.
Qed.

(** X11.  When all 40 draws are [previous] or excluded, [pickCell]
    returns the 40th of them; and whenever its result is [previous] or
    excluded, all 40 draws were. *)
Theorem pickCell_exhausted (previous : Z) (banned : list Z) (count : Z)
    (pos : nat) :
  ((forall j, (j < 40)%nat -> In (draw count pos j) (previous :: banned)) ->
   pickCell random previous banned count pos
   = (draw count pos 39, (pos + 40)%nat))
  /\ (In (fst (pickCell random previous banned count pos))
        (previous :: banned) ->
      forall j, (j < 40)%nat -> In (draw count pos j) (previous :: banned)).
Proof.
  split.
  - intros Hrej. unfold pickCell.
    apply (pickCell_while_exhausts (previous :: banned) count 39).
    + apply has_previous.
    + intros j Hj. apply has_In. apply Hrej. lia.
  - apply pickCell_repeats.
Qed.

(** X12.  A spawn moves the target to another tile unless 40 draws in a
    row land on the current one; and the hazard it places, if any, is on
    another tile than the new target unless the 40 draws that follow the
    hazard test all land on the new target. *)
Theorem spawn_avoids_repeat (now : Q) (w : World) :
  let w' := spawnNewTarget now w in
  let p := rngPos w in
  let q := snd (pickCell random (activeCell (view w)) [] cellCount p) in
  (activeCell (view w') = activeCell (view w) ->
   forall j, (j < 40)%nat -> draw cellCount p j = activeCell (view w))
  /\ (hazardCell (view w') = Some (activeCell (view w')) ->
      forall j, (j < 40)%nat ->
        draw cellCount (S q) j = activeCell (view w')).
Proof.
  cbn zeta.
  destruct (spawnNewTarget_shape now w) as (n & hz & p' & -> & En & Eh).
  cbn [view activeCell hazardCell setActiveCell setHazardCell withRng
       onView spawnTimeRef_set onRefs].
  split.
  - intros E j Hj.
    pose proof (pickCell_repeats (activeCell (view w)) [] cellCount
                  (rngPos w)) as H.
    rewrite <- En, E in H.
    destruct (H (or_introl eq_refl) j Hj) as [<- | []]. reflexivity.
  - intros E j Hj. rewrite Eh in E. unfold hazardDraw in E.
    destruct (Qlt_bool _ _); [|discriminate].
    pose proof (pickCell_repeats n [n] cellCount
                  (S (snd (pickCell random (activeCell (view w)) []
                             cellCount (rngPos w))))) as H.
    destruct (pickCell random n [n] cellCount _) as [x px].
    cbn [fst] in *. injection E as ->.
    destruct (H (or_introl eq_refl) j Hj) as [<- | [<- | []]]; reflexivity.
Qed.

(** ** The countdown *)

Lemma toFixed2_lower (x : Q) : x - (1 # 200) <= toFixed2 x.
Proof.
  unfold toFixed2. destruct (Qle_bool 0 x).
  - pose proof (Qlt_floor (x * 100 + (1 # 2))) as H.
    rewrite inject_Z_plus in H. change (inject_Z 1) with 1 in H.
    generalize dependent (inject_Z (Qfloor (x * 100 + (1 # 2)))).
    intros f H. unfold Qdiv. change (/ 100) with (1 # 100). lra.
  - pose proof (Qfloor_le (- x * 100 + (1 # 2))) as H.
    generalize dependent (inject_Z (Qfloor (- x * 100 + (1 # 2)))).
    intros f H. unfold Qdiv. change (/ 100) with (1 # 100). lra.
Qed.

(** One tick of a run that is on, whose latch is open. *)
Lemma countdownTick_cases (w : World) :
  finishedRef (refs w) = false ->
  let next := toFixed2 (timeLeft (view w) - (1 # 10)) in
  (next <= 0
   /\ countdownTick w
      = setTimeLeft 0
          (emit (summary w)
             (setStatus done
                (finishedRef_set true (timeLeftRef_set next w)))))
  \/ (0 < next
      /\ countdownTick w = setTimeLeft next (timeLeftRef_set next w)).
Proof.
  intros Hopen. cbn zeta. unfold countdownTick. cbn zeta.
  destruct (Qle_bool (toFixed2 (timeLeft (view w) - (1 # 10))) 0) eqn:E.
  - left. split; [now apply Qle_bool_iff|].
    rewrite endRun_fresh by exact Hopen. reflexivity.
  - right. split; [now apply Qle_bool_false | reflexivity].
Qed.

Lemma tick_outcome (w : World) :
  Synced w -> status (view w) = playing ->
  let w' := step w Tick in
  (status (view w') = done /\ timeLeft (view w') = 0
   /\ timeLeft (view w) <= 105 # 1000
   /\ finished w' = summary w' :: finished w)
  \/ (status (view w') = playing /\ 0 < timeLeft (view w')
      /\ timeLeft (view w) - (105 # 1000) <= timeLeft (view w')
         <= timeLeft (view w) - (95 # 1000)
      /\ finished w' = finished w
      /\ Synced w').
Proof.
  intros HS Hplay. cbn zeta.
  pose proof (Synced_step w Tick HS) as HS'.
  cbn [step] in *.
  assert (Eq : Status_eqb (status (view w)) playing = true)
    by now apply Status_eqb_eq.
  rewrite Eq in *.
  destruct HS as (_ & _ & H2).
  destruct (H2 ltac:(congruence)) as [Hopen _].
  pose proof (toFixed2_upper (timeLeft (view w) - (1 # 10))) as Hup.
  pose proof (toFixed2_lower (timeLeft (view w) - (1 # 10))) as Hlo.
  destruct (countdownTick_cases w Hopen) as [[Hz E] | [Hz E]];
    rewrite E in *.
  - left. repeat split. lra.
  - right. split; [exact Hplay|]. split; [exact Hz|].
    split; [cbn; lra|]. split; [reflexivity | exact HS'].
Qed.

Lemma ticks_when_done (n : nat) (w : World) :
  status (view w) = done -> run w (repeat Tick n) = w.
Proof.
  intros Hd. unfold run.
  induction n as [|n IH]; cbn [repeat fold_left]; [reflexivity|].
  cbn [step]. rewrite Hd. cbn [Status_eqb]. exact IH.
Qed.

Lemma ticks_end_run (n : nat) :
  forall w,
    Synced w -> status (view w) = playing ->
    timeLeft (view w) <= inject_Z (Z.of_nat (S n)) * (95 # 1000) ->
    status (view (run w (repeat Tick (S n)))) = done.
Proof.
  induction n as [|n IH]; intros w HS Hplay Ht;
    destruct (tick_outcome w HS Hplay)
      as [(Hd & _) | (Hp & Hpos & [_ Hhi] & _ & HS')].
  - exact Hd.
  - exfalso. change (inject_Z (Z.of_nat 1)) with 1 in Ht. lra.
  - change (run w (repeat Tick (S (S n))))
      with (run (step w Tick) (repeat Tick (S n))).
    now rewrite ticks_when_done.
  - change (run w (repeat Tick (S (S n))))
      with (run (step w Tick) (repeat Tick (S n))).
    apply IH; try assumption.
    rewrite Nat2Z.inj_succ, <- Z.add_1_r, inject_Z_plus in Ht.
    change (inject_Z 1) with 1 in Ht.
    generalize dependent (inject_Z (Z.of_nat (S n))). intros c Ht. lra.
Qed.

(** X13.  In a state reached from the mounted component whose status is
    [playing], a countdown tick either ends the run (status [done],
    [timeLeft] 0, one summary handed to [onFinish]), which happens only
    with at most 0.11 s left, or leaves the run playing with a positive
    [timeLeft] that is between 0.09 and 0.11 s lower, and calls
    [onFinish] not at all.  (On exact numbers the rounding to two
    decimals moves the clock by at most 0.005, which gives 0.095 and
    0.105; the bounds stated leave room for the rounding errors of the
    doubles the code computes with.) *)
Theorem tick_lowers_clock (now0 : Q) (events : list Event) :
  let w := run (mount now0) events in
  status (view w) = playing ->
  let w' := step w Tick in
  (status (view w') = done /\ timeLeft (view w') = 0
   /\ timeLeft (view w) <= 11 # 100
   /\ finished w' = summary w' :: finished w)
  \/ (status (view w') = playing /\ 0 < timeLeft (view w')
      /\ timeLeft (view w) - (11 # 100) <= timeLeft (view w')
         <= timeLeft (view w) - (9 # 100)
      /\ finished w' = finished w).
Proof.
  cbn zeta. intros Hplay.
  destruct (reachable_invariants now0 events) as (HS & _).
  destruct (tick_outcome _ HS Hplay)
    as [(H1 & H2 & H3 & H4) | (H1 & H2 & H3 & H4 & _)].
  - left. repeat split; try assumption. lra.
  - right. repeat split; try assumption; lra.
Qed.

(** X14.  Left alone, a run ends: from a state reached from the mounted
    component whose status is [playing], [n] countdown ticks (n at least
    1) with nothing in between bring the status to [done] and the clock
    to 0 as soon as [n * 0.095] covers the time left. *)
Theorem ticks_alone_end_the_run (now0 : Q) (events : list Event)
    (n : nat) :
  let w := run (mount now0) events in
  status (view w) = playing ->
  (0 < n)%nat ->
  timeLeft (view w) <= inject_Z (Z.of_nat n) * (95 # 1000) ->
  let w' := run w (repeat Tick n) in
  status (view w') = done /\ timeLeft (view w') == 0.
Proof.
  cbn zeta. intros Hplay Hn Ht.
  destruct n as [|n]; [lia|].
  destruct (reachable_invariants now0 events) as (HS & _).
  pose proof (ticks_end_run n _ HS Hplay Ht) as Hd.
  split; [exact Hd|].
  assert (R : run (run (mount now0) events) (repeat Tick (S n))
              = run (mount now0) (events ++ repeat Tick (S n))).
  { unfold run. now rewrite fold_left_app. }
  rewrite R in *.
  destruct (reachable_invariants now0 (events ++ repeat Tick (S n)))
    as (_ & _ & _ & Z).
  now apply Z.
Qed.

(** ** Points, pop-ups and the accuracy on screen *)

Lemma Math_round_mono (x y : Q) : x <= y -> (Math_round x <= Math_round y)%Z.
Proof. intros H. unfold Math_round. apply Qfloor_resp_le. lra. Qed.

Lemma speed_term_mono (r1 r2 : Q) :
  r1 <= r2 -> (1200 - r2) / 30 <= (1200 - r1) / 30.
Proof. intros H. unfold Qdiv. change (/ 30) with (1 # 30). lra. Qed.

(** X15.  A correct tap always gains at least 17 points; a slower tap
    never gains more than a faster one and a longer streak never gains
    less; a reaction that is not negative gains at most 55 points plus
    the streak bonus, and one of 1155 ms or more exactly 17 plus the
    streak bonus. *)
Theorem gained_bounds (r1 r2 : Q) (s1 s2 : Z) :
  r1 <= r2 -> (s1 <= s2)%Z ->
  (17 <= gained r2 s1)%Z
  /\ (gained r2 s1 <= gained r1 s1)%Z
  /\ (gained r1 s1 <= gained r1 s2)%Z
  /\ (0 <= r1 -> (gained r1 s1 <= 55 + Z.max 0 (s1 - 1) * 4)%Z)
  /\ (1155 <= r1 -> gained r1 s1 = (17 + Z.max 0 (s1 - 1) * 4)%Z).
Proof.
  intros Hr Hs. unfold gained. cbn zeta.
  pose proof (Math_round_mono _ _ (speed_term_mono r1 r2 Hr)) as Hm.
  split; [lia|]. split; [lia|]. split; [lia|]. split; intros H.
  - assert (Hb : (Math_round ((1200 - r1) / 30) <= 40)%Z).
    { apply Z.le_trans with (Math_round 40);
        [|vm_compute; discriminate].
      apply Math_round_mono. unfold Qdiv. change (/ 30) with (1 # 30). lra. }
    lia.
  - assert (Hb : (Math_round ((1200 - r1) / 30) <= 2)%Z).
    { apply Z.le_trans with (Math_round (3 # 2));
        [|vm_compute; discriminate].
      apply Math_round_mono. unfold Qdiv. change (/ 30) with (1 # 30). lra. }
    lia.
Qed.

(** Rows and columns of a tile on a grid of positive sides. *)
Lemma popPosition_inside (grid : Grid) (i : Z) :
  (0 < cols grid)%Z -> (0 < rows grid)%Z ->
  (0 <= i < cellCountOf grid)%Z ->
  popPosition grid i
  = ((inject_Z (i mod cols grid) + (1 # 2)) / inject_Z (cols grid) * 100,
     (inject_Z (i / cols grid) + (1 # 2)) / inject_Z (rows grid) * 100)
  /\ (0 <= i mod cols grid < cols grid)%Z
  /\ (0 <= i / cols grid < rows grid)%Z.
Proof.
  intros Hc Hr [Hi0 Hi1]. unfold popPosition, cellCountOf in *. cbn zeta.
  unfold Math_floor. rewrite <- Zdiv_Qdiv.
  rewrite Z.rem_mod_nonneg by lia.
  split; [reflexivity|]. split.
  - apply Z.mod_pos_bound. lia.
  - split; [apply Z.div_pos; lia|].
    apply Z.div_lt_upper_bound; lia.
Qed.

Lemma centre_inside (c n : Z) :
  (0 <= c < n)%Z ->
  0 < (inject_Z c + (1 # 2)) / inject_Z n * 100 < 100.
Proof.
  intros [H0 H1].
  assert (Hn : 0 < inject_Z n)
    by (change 0 with (inject_Z 0); rewrite <- Zlt_Qlt; lia).
  assert (Hc0 : 0 <= inject_Z c)
    by (change 0 with (inject_Z 0); rewrite <- Zle_Qle; lia).
  assert (Hc1 : inject_Z c + 1 <= inject_Z n).
  { change 1 with (inject_Z 1). rewrite <- inject_Z_plus, <- Zle_Qle. lia. }
  assert (Hlo : 0 < (inject_Z c + (1 # 2)) / inject_Z n).
  { apply Qlt_shift_div_l; [exact Hn|]. rewrite Qmult_0_l.
    generalize dependent (inject_Z c). intros; lra. }
  assert (Hhi : (inject_Z c + (1 # 2)) / inject_Z n < 1).
  { apply Qlt_shift_div_r; [exact Hn|]. rewrite Qmult_1_l.
    generalize dependent (inject_Z n). generalize dependent (inject_Z c).
    intros; lra. }
  generalize dependent ((inject_Z c + (1 # 2)) / inject_Z n).
  intros y Hlo Hhi. clear Hn Hc0 Hc1. lra.
Qed.

Lemma centre_injective (c d n : Z) :
  (0 < n)%Z ->
  (inject_Z c + (1 # 2)) / inject_Z n * 100
  == (inject_Z d + (1 # 2)) / inject_Z n * 100 ->
  c = d.
Proof.
  intros Hn H.
  assert (Hq : ~ inject_Z n == 0).
  { intros E. change 0 with (inject_Z 0) in E.
    rewrite inject_Z_injective in E. lia. }
  assert (E : inject_Z c + (1 # 2) == inject_Z d + (1 # 2)).
  { assert (H100 : ~ 100 == 0) by discriminate.
    assert (H' : (inject_Z c + (1 # 2)) / inject_Z n
                 == (inject_Z d + (1 # 2)) / inject_Z n)
      by (apply (proj1 (Qmult_inj_r _ _ 100 H100)); exact H).
    rewrite <- (Qmult_div_r (inject_Z c + (1 # 2)) (inject_Z n) Hq).
    rewrite H'. apply Qmult_div_r. exact Hq. }
  assert (E' : inject_Z c == inject_Z d)
    by (apply (proj1 (Qplus_inj_r _ _ (1 # 2))); exact E).
  rewrite inject_Z_injective in E'. exact E'.
Qed.

Lemma getGrid_sides (innerWidth : option Z) :
  (0 < cols (getGrid innerWidth))%Z /\ (0 < rows (getGrid innerWidth))%Z.
Proof.
  unfold getGrid. destruct innerWidth as [width|]; [|cbn; lia].
  destruct (width <=? 540)%Z; cbn; lia.
Qed.

(** X16.  On either grid [getGrid] returns, the pop-up [spawnPop] places
    for a tile of the grid lies strictly inside the arena (both
    coordinates strictly between 0 and 100 percent), and two tiles whose
    pop-ups have the same place are the same tile. *)
Theorem pop_positions (innerWidth : option Z) (i j : Z) :
  let grid := getGrid innerWidth in
  (0 <= i < cellCountOf grid)%Z ->
  (0 <= j < cellCountOf grid)%Z ->
  (0 < fst (popPosition grid i) < 100
   /\ 0 < snd (popPosition grid i) < 100)
  /\ (fst (popPosition grid i) == fst (popPosition grid j) ->
      snd (popPosition grid i) == snd (popPosition grid j) ->
      i = j).
Proof.
  cbn zeta. intros Hi Hj.
  destruct (getGrid_sides innerWidth) as [Hc Hr].
  destruct (popPosition_inside _ i Hc Hr Hi) as (Ei & Ci & Ri).
  destruct (popPosition_inside _ j Hc Hr Hj) as (Ej & Cj & Rj).
  rewrite Ei, Ej. cbn [fst snd]. split.
  - split; apply centre_inside; assumption.
  - intros Hx Hy.
    apply centre_injective in Hx; [|exact Hc].
    apply centre_injective in Hy; [|exact Hr].
    rewrite (Z.div_mod i (cols (getGrid innerWidth))) by lia.
    rewrite (Z.div_mod j (cols (getGrid innerWidth))) by lia.
    now rewrite Hx, Hy.
Qed.

Lemma ratio_antitone (h a b : Z) :
  (0 <= h)%Z -> (0 < a)%Z -> (a <= b)%Z ->
  inject_Z h / inject_Z b * 100 <= inject_Z h / inject_Z a * 100.
Proof.
  intros Hh Ha Hab.
  assert (Qa : 0 < inject_Z a)
    by (change 0 with (inject_Z 0); rewrite <- Zlt_Qlt; lia).
  assert (Qb : 0 < inject_Z b)
    by (change 0 with (inject_Z 0); rewrite <- Zlt_Qlt; lia).
  assert (Qab : inject_Z a <= inject_Z b) by (rewrite <- Zle_Qle; lia).
  assert (Qh : 0 <= inject_Z h)
    by (change 0 with (inject_Z 0); rewrite <- Zle_Qle; lia).
  assert (Hy : 0 <= inject_Z h / inject_Z a).
  { apply Qle_shift_div_l; [exact Qa|]. now rewrite Qmult_0_l. }
  assert (E : inject_Z h / inject_Z a * inject_Z a == inject_Z h).
  { rewrite Qmult_comm. apply Qmult_div_r.
    intros Z0. rewrite Z0 in Qa. now apply Qlt_irrefl in Qa. }
  assert (L : inject_Z h / inject_Z b <= inject_Z h / inject_Z a).
  { apply Qle_shift_div_r; [exact Qb|].
    rewrite <- E at 1. rewrite !(Qmult_comm (inject_Z h / inject_Z a)).
    apply Qmult_le_compat_r; assumption. }
  generalize dependent (inject_Z h / inject_Z a).
  generalize dependent (inject_Z h / inject_Z b).
  intros; lra.
Qed.

(** X17.  In every state of a run of the mounted component, the average
    reaction on screen is the one a summary taken then reports; when an
    accuracy is on screen, the summary reports one too, and it is at most
    the one on screen (both between 0 and 100); no accuracy is on screen
    only if the state counts neither a hit nor a miss. *)
Theorem screen_accuracy_not_below_reported (now0 : Q)
    (events : list Event) :
  let w := run (mount now0) events in
  avgReaction w = sum_avgReaction (summary w)
  /\ (forall b, accuracy w = Some b ->
        exists a, sum_accuracy (summary w) = Some a
                  /\ (0 <= a <= b)%Z /\ (b <= 100)%Z)
  /\ (accuracy w = None ->
        hits (view w) = 0%Z /\ misses (view w) = 0%Z).
Proof.
  cbn zeta.
  destruct (reachable_invariants now0 events)
    as (_ & (C1 & C2 & C3 & _ & _ & C6 & _) & _).
  generalize dependent (run (mount now0) events). intros w C1 C2 C3 C6.
  unfold avgReaction, accuracy, summary.
  cbn [sum_avgReaction sum_accuracy]. cbn zeta.
  rewrite C2, C3. split; [reflexivity|]. split.
  - intros b Hb.
    destruct (0 <? hits (view w) + misses (view w))%Z eqn:T;
      [|discriminate].
    apply Z.ltb_lt in T. injection Hb as <-.
    assert (T' : (0 <? hits (view w) + missesRef (refs w))%Z = true)
      by (apply Z.ltb_lt; lia).
    rewrite T'. eexists. split; [reflexivity|].
    split; [split|].
    + apply percentage_range; lia.
    + apply Math_round_mono, ratio_antitone; lia.
    + apply percentage_range; lia.
  - destruct (0 <? hits (view w) + misses (view w))%Z eqn:T;
      [discriminate|].
    apply Z.ltb_ge in T. intros _. lia.
Qed.

(** ** The pop-ups *)

Lemma sorted_snoc (l : list Z) (x : Z) :
  StronglySorted Z.lt l -> Forall (fun y => (y < x)%Z) l ->
  StronglySorted Z.lt (l ++ [x]).
Proof.
  induction 1 as [|a l S IH F]; intros B; cbn.
  - constructor; constructor.
  - inversion B as [|? ? Ba Bl]; subst. constructor; [now apply IH|].
    apply Forall_app. split; [exact F|]. constructor; [exact Ba|constructor].
Qed.

Lemma sorted_filter (f : Pop -> bool) (l : list Pop) :
  StronglySorted Z.lt (map pop_id l) ->
  StronglySorted Z.lt (map pop_id (filter f l)).
Proof.
  induction l as [|p l IH]; cbn; intros S; [constructor|].
  inversion S as [|? ? S' F]; subst.
  destruct (f p); cbn; [|now apply IH].
  constructor; [now apply IH|].
  rewrite Forall_forall in *. intros y Hy.
  apply F. apply in_map_iff in Hy. destruct Hy as (q & <- & Hq).
  apply in_map. apply filter_In in Hq. apply Hq.
Qed.

Lemma sorted_NoDup (l : list Z) : StronglySorted Z.lt l -> NoDup l.
Proof.
  induction 1 as [|a l S IH F]; constructor; [|exact IH].
  intros Hin. rewrite Forall_forall in F. specialize (F a Hin). lia.
Qed.

Lemma PopsOrdered_step (st : PopState) (e : PopEvent) :
  PopsOrdered st -> PopsOrdered (popStep st e).
Proof.
  intros (B & S & F). destruct e as [grid cellIdx text|id|]; cbn [popStep].
  - unfold spawnPop. destruct (popPosition grid cellIdx) as [x y].
    split; [|split]; cbn [pops popIdRef].
    + lia.
    + rewrite map_app. cbn [map pop_id]. apply sorted_snoc; [exact S|].
      rewrite Forall_forall in *. intros y' Hy.
      apply in_map_iff in Hy. destruct Hy as (q & <- & Hq).
      specialize (F q Hq). cbn beta in F. lia.
    + apply Forall_app. split.
      * rewrite Forall_forall in *. intros q Hq. specialize (F q Hq).
        cbn beta in F. cbn beta. lia.
      * constructor; [|constructor]. cbn [pop_id]. lia.
  - split; [|split]; cbn [popTimeout pops popIdRef].
    + exact B.
    + now apply sorted_filter.
    + rewrite Forall_forall in *. intros q Hq.
      apply filter_In in Hq. now apply F.
  - split; [|split]; cbn [clearPops pops popIdRef];
      [exact B | constructor | constructor].
Qed.

Lemma PopsOrdered_run (es : list PopEvent) (st : PopState) :
  PopsOrdered st -> PopsOrdered (popRun st es).
Proof.
  unfold popRun. revert st.
  induction es as [|e es IH]; intros st H; cbn [fold_left]; [exact H|].
  apply IH. now apply PopsOrdered_step.
Qed.

Lemma filter_all (A : Type) (f : A -> bool) (l : list A) :
  (forall x, In x l -> f x = true) -> filter f l = l.
Proof.
  induction l as [|a l IH]; cbn; intros H; [reflexivity|].
  rewrite (H a (or_introl eq_refl)). f_equal. apply IH.
  intros x Hx. apply H. now right.
Qed.

Lemma filter_one (id : Z) (l1 l2 : list Pop) (p : Pop) :
  pop_id p = id ->
  NoDup (map pop_id (l1 ++ p :: l2)) ->
  filter (fun q => negb (pop_id q =? id)%Z) (l1 ++ p :: l2) = l1 ++ l2.
Proof.
  intros E N. rewrite filter_app. cbn [filter]. rewrite E, Z.eqb_refl.
  cbn [negb].
  rewrite map_app in N. cbn [map] in N.
  pose proof (NoDup_remove_2 _ _ _ N) as Hn.
  rewrite !filter_all; [reflexivity| |]; intros q Hq;
    apply negb_true_iff, Z.eqb_neq; intros Eq; apply Hn, in_or_app;
    [right|left]; rewrite E, <- Eq; now apply in_map.
Qed.

(** X21.  Over any sequence of pop-ups spawned, timed out and cleared,
    the pop-ups on screen carry positive ids that increase along the
    list, so that no two share an id; the timeout of a pop-up on screen
    removes that pop-up and no other, keeping the order of the rest, and
    the timeout of an id that is not on screen changes nothing. *)
Theorem pop_ids_distinct (events : list PopEvent) :
  let st := popRun noPops events in
  StronglySorted Z.lt (map pop_id (pops st))
  /\ NoDup (map pop_id (pops st))
  /\ Forall (fun p => (0 < pop_id p <= popIdRef st)%Z) (pops st)
  /\ (forall l1 p l2,
        pops st = l1 ++ p :: l2 ->
        pops (popTimeout (pop_id p) st) = l1 ++ l2)
  /\ (forall id,
        ~ In id (map pop_id (pops st)) -> popTimeout id st = st).
Proof.
  cbn zeta.
  assert (H : PopsOrdered (popRun noPops events)).
  { apply PopsOrdered_run. split; [cbn; lia|]. split; constructor. }
  destruct H as (B & S & F).
  generalize dependent (popRun noPops events). intros st B S F.
  pose proof (sorted_NoDup _ S) as N.
  split; [exact S|]. split; [exact N|]. split; [exact F|]. split.
  - intros l1 p l2 E. unfold popTimeout. cbn [pops]. rewrite E in N |- *.
    now apply filter_one.
  - intros id Hid. unfold popTimeout. destruct st as [c l]. cbn [pops popIdRef] in *.
    f_equal. apply filter_all. intros q Hq.
    apply negb_true_iff, Z.eqb_neq. intros Eq. apply Hid.
    rewrite <- Eq. now apply in_map.
Qed.

(** ** A change of profile or of grid *)

Lemma invariants_run (es : list Event) (w : World) :
  Synced w /\ Counted w /\ DoneLatched w /\ DoneZero w ->
  Synced (run w es) /\ Counted (run w es)
  /\ DoneLatched (run w es) /\ DoneZero (run w es).
Proof.
  unfold run. revert w.
  induction es as [|e es IH]; intros w H; cbn [fold_left]; [exact H|].
  apply IH. destruct H as (H1 & H2 & H3 & H4).
  split; [now apply Synced_step|]. split; [now apply Counted_step|].
  split; [now apply DoneLatched_step | now apply DoneZero_step].
Qed.

Lemma difficultyEffect_fields (w : World) :
  let w' := difficultyEffect w in
  status (view w') = idle
  /\ timeLeft (view w') = startTime settings
  /\ timeLeftRef (refs w') = startTime settings
  /\ score (view w') = 0%Z /\ scoreRef (refs w') = 0%Z
  /\ streak (view w') = 0%Z /\ maxStreakRef (refs w') = 0%Z
  /\ hits (view w') = 0%Z /\ hitsRef (refs w') = 0%Z
  /\ misses (view w') = 0%Z /\ missesRef (refs w') = 0%Z
  /\ fastestHit (view w') = None /\ fastestHitRef (refs w') = None
  /\ totalReactionMs (view w') = 0 /\ totalReactionRef (refs w') = 0
  /\ hazardCell (view w') = None
  /\ finishedRef (refs w') = false
  /\ spawnTimeRef (refs w') = spawnTimeRef (refs w)
  /\ finished w' = finished w
  /\ activeCell (view w')
     = fst (pickCell random (-1)%Z [] cellCount (rngPos w)).
Proof.
  cbn zeta. unfold difficultyEffect. cbn zeta.
  change (rngPos (clearCounters settings
                    (setStatus idle (clearRefs settings w))))
    with (rngPos w).
  destruct (pickCell random (-1)%Z [] cellCount (rngPos w)) as [next p1].
  repeat split.
Qed.

(** The invariants that do not depend on the props hold after the
    effect, whatever the state before. *)
Lemma invariants_propsChange (w : World) :
  Synced (propsChange w) /\ Counted (propsChange w)
  /\ DoneLatched (propsChange w) /\ DoneZero (propsChange w).
Proof.
  assert (I0 : Synced (difficultyEffect w) /\ Counted (difficultyEffect w)
               /\ DoneLatched (difficultyEffect w)
               /\ DoneZero (difficultyEffect w)).
  { destruct (difficultyEffect_fields w)
      as (F1 & F2 & F3 & F4 & F5 & F6 & F7 & F8 & F9 & F10 & F11 & F12
          & F13 & F14 & F15 & F16 & F17 & F18 & F19 & F20).
    split; [apply Synced_difficultyEffect|].
    split; [now apply Counted_cleared|].
    unfold DoneLatched, DoneZero. rewrite F1. split; discriminate. }
  destruct (propsChange_cases w) as [(_ & -> & _) | (_ & -> & _)];
    exact I0.
Qed.

(** X22.  When the profile or the grid changes, whatever the state of
    the component then (a run in progress included), the effect leaves it
    idle with the clock at the new [startTime], every counter and
    statistic at zero, no hazard, the latch open and a fresh target on
    the new grid, and hands no summary to [onFinish]: the run in progress
    is dropped.  Over the events that follow, the refs agree again with
    the state they mirror and the status is [done] exactly when the latch
    is set.  The key listener is registered anew only when the status
    changed: when the component was idle already the listener of before
    stays, the Space key starts the next run with the profile and on the
    grid of that listener, and the target is a tile of the larger of the
    two grids; otherwise it is a tile of the new grid. *)
Theorem profile_change_abandons_run (w : World) (events : list Event)
    (now : Q) :
  (1 <= cellCount)%Z ->
  (1 <= l_cellCount (keyListener w))%Z ->
  let w0 := propsChange w in
  let w' := run w0 events in
  (status (view w0) = idle
   /\ timeLeft (view w0) = startTime settings
   /\ score (view w0) = 0%Z /\ streak (view w0) = 0%Z
   /\ hits (view w0) = 0%Z /\ misses (view w0) = 0%Z
   /\ fastestHit (view w0) = None /\ totalReactionMs (view w0) = 0
   /\ hazardCell (view w0) = None
   /\ finishedRef (refs w0) = false
   /\ (0 <= activeCell (view w0) < cellCount)%Z
   /\ finished w0 = finished w)
  /\ (scoreRef (refs w') = score (view w')
      /\ hitsRef (refs w') = hits (view w')
      /\ (0 <= misses (view w') <= missesRef (refs w'))%Z
      /\ (0 <= streak (view w') <= maxStreakRef (refs w'))%Z
      /\ (status (view w') = done <-> finishedRef (refs w') = true)
      /\ (0 <= activeCell (view w') < reach w)%Z)
  /\ (status (view w) <> idle ->
      keyListener w0 = currentProps
      /\ step w0 (KeyDown Space now)
         = reset random settings cellCount playerName now w0)
  /\ (status (view w) = idle ->
      keyListener w0 = keyListener w
      /\ step w0 (KeyDown Space now)
         = reset random (l_settings (keyListener w))
             (l_cellCount (keyListener w)) playerName now w0).
Proof.
  intros Hc Hl. cbn zeta.
  assert (V : view (propsChange w) = view (difficultyEffect w)
              /\ refs (propsChange w) = refs (difficultyEffect w)
              /\ finished (propsChange w) = finished (difficultyEffect w)).
  { destruct (propsChange_cases w) as [(_ & -> & _) | (_ & -> & _)];
      repeat split. }
  destruct V as (V1 & V2 & V3).
  destruct (difficultyEffect_fields w)
    as (F1 & F2 & F3 & F4 & F5 & F6 & F7 & F8 & F9 & F10 & F11 & F12 & F13
        & F14 & F15 & F16 & F17 & F18 & F19 & F20).
  pose proof (pickCell_in_range (-1) [] cellCount (rngPos w) Hc) as Hr.
  rewrite <- F20 in Hr.
  split; [|split; [|split]].
  - rewrite V1, V2, V3. repeat split; try assumption; apply Hr.
  - destruct (invariants_run events _ (invariants_propsChange w))
      as (S & C & L & _).
    pose proof (Within_after_change w events Hc Hl) as G.
    generalize dependent (run (propsChange w) events).
    intros w' S C L G.
    destruct S as (_ & S2 & S3).
    destruct C as (_ & C2 & _ & _ & _ & C6 & C7).
    split; [exact S2|]. split; [exact C2|]. split; [exact C6|].
    split; [exact C7|]. split; [|exact (proj1 G)].
    split; [apply L|].
    intros Hf.
    destruct (Status_eqb (status (view w')) done) eqn:E.
    + now apply Status_eqb_eq in E.
    + exfalso. assert (N : status (view w') <> done).
      { intros D. apply Status_eqb_eq in D. congruence. }
      destruct (S3 N) as [Hopen _]. congruence.
  - intros N.
    destruct (propsChange_cases w) as [(S & _) | (_ & _ & F)];
      [congruence|].
    split; [exact F|].
    rewrite space_key, V1, F1, F. reflexivity.
  - intros I.
    destruct (propsChange_cases w) as [(_ & _ & L) | (S & _)];
      [|congruence].
    split; [exact L|].
    rewrite space_key, V1, F1, L. reflexivity.
Qed.

(** ** Only a correct tap rewards *)

Lemma Unrewarded_same (w w' : World) :
  score (view w') = score (view w) ->
  hits (view w') = hits (view w) ->
  streak (view w') = streak (view w) ->
  Unrewarded w w'.
Proof. unfold Unrewarded. intros -> -> ->. repeat split; lia. Qed.

Lemma penalty_lowers (amount : Q) (w : World) :
  0 <= amount -> 0 <= timeLeft (view w) ->
  timeLeftRef (refs w) = timeLeft (view w) ->
  Math_max 0 (timeLeftRef (refs w) - amount) <= timeLeft (view w).
Proof. intros Ha H0 ->. apply Math_max_lub; lra. Qed.

Lemma reset_unrewarded (s : Settings) (c : Z) (now : Q) (w : World) :
  Synced w -> Counted w ->
  Unrewarded w (reset random s c playerName now w).
Proof.
  intros (S1 & _) (C1 & _ & _ & _ & _ & _ & C7).
  destruct (nameMissing playerName) eqn:N.
  - unfold reset. rewrite N. apply Unrewarded_same; reflexivity.
  - destruct (reset_fields s c now w N)
      as (_ & _ & (E1 & E2 & E3 & _) & _).
    unfold Unrewarded. rewrite E1, E2, E3. repeat split; lia.
Qed.

Lemma registerMiss_rewards (spawnNow : Q) (w : World) :
  status (view w) = playing ->
  let w' := registerMiss (render w) spawnNow w in
  score (view w') = score (view w)
  /\ hits (view w') = hits (view w)
  /\ streak (view w') = 0%Z
  /\ timeLeft (view w')
     = Math_max 0 (timeLeftRef (refs w) - missPenalty settings).
Proof.
  intros Hplay. cbn zeta.
  assert (Eq : Status_eqb (status (view w)) playing = true)
    by now apply Status_eqb_eq.
  unfold registerMiss. cbn [render r_status]. rewrite Eq.
  cbn [negb]. cbn zeta.
  set (counted := missesRef_set _ _).
  set (amount := missPenalty settings).
  pose proof (applyTimePenalty_fields amount counted) as F.
  destruct (applyTimePenalty_cases amount counted) as [[Hz E] | [Hz E]];
    rewrite E in *; cbn [fst] in F;
    destruct F as (E1 & _ & E3 & E4 & _ & _ & E7 & _).
  - rewrite E1, E3, E4, E7. repeat split.
  - destruct (spawnNewTarget_frame spawnNow (penalised amount counted))
      as (_ & S2 & S3 & S4 & _ & S6 & _).
    rewrite S2, S3, S4, S6, E1, E3, E4, E7. repeat split.
Qed.

Lemma step_rewards (w : World) (e : Event) :
  GoodProfile -> Synced w -> Counted w -> TimeInv w ->
  let w' := step w e in
  (isCorrectTap w e \/ Unrewarded w w')
  /\ (isCorrectTap w e \/ isRestart e
      \/ timeLeft (view w') <= timeLeft (view w)).
Proof.
  intros G S C T. cbn zeta.
  pose proof S as (S1 & _ & S3).
  pose proof C as (C1 & _ & _ & _ & _ & _ & C7).
  destruct T as ((T0 & _) & _).
  assert (Hsame : (isCorrectTap w e \/ Unrewarded w w)
                  /\ (isCorrectTap w e \/ isRestart e
                      \/ timeLeft (view w) <= timeLeft (view w))).
  { split; [right; apply Unrewarded_same; reflexivity|].
    right; right. apply Qle_refl. }
  assert (Hpaused : forall v,
            (isCorrectTap w e \/ Unrewarded w (setStatus v w))
            /\ (isCorrectTap w e \/ isRestart e
                \/ timeLeft (view (setStatus v w)) <= timeLeft (view w))).
  { intros v. split; [right; apply Unrewarded_same; reflexivity|].
    right; right. apply Qle_refl. }
  assert (Hsync : status (view w) = playing ->
                  timeLeftRef (refs w) = timeLeft (view w)).
  { intros Hp. apply S3. congruence. }
  destruct e as [|spawnNow|cellIndex now spawnNow|now| |k now];
    cbn [step].
  - (* the countdown *)
    destruct (Status_eqb (status (view w)) playing) eqn:Ep; [|exact Hsame].
    apply Status_eqb_eq in Ep.
    destruct (S3 ltac:(congruence)) as [Hopen _].
    pose proof (toFixed2_upper (timeLeft (view w) - (1 # 10))) as Hup.
    destruct (countdownTick_cases w Hopen) as [[Hz E] | [Hz E]];
      rewrite E; (split; [right; apply Unrewarded_same; reflexivity|]);
      right; right; simp_world; lra.
  - (* the deadline *)
    destruct (Status_eqb (status (view w)) playing) eqn:Ep; [|exact Hsame].
    apply Status_eqb_eq in Ep.
    destruct (registerMiss_rewards spawnNow w Ep) as (E1 & E2 & E3 & E4).
    split.
    + right. unfold Unrewarded. rewrite E1, E2, E3. repeat split; lia.
    + right; right. rewrite E4.
      apply penalty_lowers; [apply G | exact T0 | now apply Hsync].
  - (* a tap *)
    destruct (Status_eqb (status (view w)) playing) eqn:Ep.
    2:{ unfold registerHit. cbn [render r_status]. rewrite Ep.
        exact Hsame. }
    apply Status_eqb_eq in Ep.
    assert (Hdec : hazardCell (view w) = Some cellIndex
                   \/ hazardCell (view w) <> Some cellIndex).
    { destruct (hazardCell (view w)) as [h|]; [|right; discriminate].
      destruct (Z.eq_dec h cellIndex) as [-> | N]; [now left|].
      right. congruence. }
    destruct Hdec as [Hh | Hh].
    + destruct (hazard_tap_effects w cellIndex now spawnNow Ep Hh)
        as (E1 & E2 & _ & _ & E5 & E6 & _).
      cbn [step] in E1, E2, E5, E6. split.
      * right. unfold Unrewarded. rewrite E1, E2, E5.
        repeat split; lia.
      * right; right. rewrite E6.
        apply penalty_lowers; [|exact T0 | now apply Hsync].
        pose proof (good_miss G). lra.
    + destruct (Z.eq_dec cellIndex (activeCell (view w))) as [Ha | Ha].
      * split; left; repeat split; assumption.
      * destruct (wrong_tap_effects w cellIndex now spawnNow Ep Hh Ha)
          as (E1 & _ & _ & E4 & _ & _ & E7 & E8 & _).
        cbn [step] in E1, E4, E7, E8. split.
        -- right. unfold Unrewarded. rewrite E1, E7, E8.
           repeat split; lia.
        -- right; right. rewrite E4.
           apply penalty_lowers; [apply G | exact T0 | now apply Hsync].
  - (* a start button *)
    destruct (Status_eqb (status (view w)) playing); [exact Hsame|].
    split; [right; now apply reset_unrewarded | right; left; exact I].
  - (* the resume button *)
    destruct (Status_eqb (status (view w)) paused); [|exact Hsame].
    unfold resumeGame. destruct (Status_eqb _ paused);
      [apply Hpaused | exact Hsame].
  - (* a key *)
    unfold onKey. destruct k.
    + destruct (_ && _); [|exact Hsame]. cbn zeta.
      split; [right; now apply reset_unrewarded | right; left; exact I].
    + destruct (Status_eqb _ playing); [apply Hpaused|].
      destruct (Status_eqb _ paused); [apply Hpaused | exact Hsame].
    + destruct (Status_eqb _ playing); [apply Hpaused|].
      destruct (Status_eqb _ paused); [apply Hpaused | exact Hsame].
Qed.

End GameBoard.

(** ** The three profiles *)

Lemma settingsFor_cases (difficulty : string) :
  settingsFor difficulty = DIFFICULTY.normal
  \/ settingsFor difficulty = DIFFICULTY.hard
  \/ settingsFor difficulty = DIFFICULTY.extreme.
Proof.
  unfold settingsFor, DIFFICULTY.lookup.
  destruct (String.eqb difficulty "normal"); [now left|].
  destruct (String.eqb difficulty "hard"); [now right; left|].
  destruct (String.eqb difficulty "extreme"); [now right; right|now left].
Qed.

Lemma settingsFor_good (difficulty : string) :
  GoodProfile (settingsFor difficulty).
Proof.
  destruct (settingsFor_cases difficulty) as [-> | [-> | ->]];
    constructor; unfold wrongPenalty; simpl; lra.
Qed.

(** C1.  For each profile of the table and every sequence of events
    delivered to the mounted component (ticks, deadline expiries, taps of
    any tile, starts, pauses and resumes), [timeLeft] stays within
    [0, timeRewardCap]; so it does when handlers are then called with
    stale closures.  In any state, a penalty leaves [timeLeft] at
    [max(0, ...)], which is not below 0, and a correct tap leaves it at a
    value clamped into [0, timeRewardCap]. *)
Theorem timeLeft_within_bounds (difficulty : string) (random : nat -> Q)
    (cellCount : Z) (playerName mode : JsString) (now : Q)
    (events : list Event) (stale : list Call) (any : World)
    (amount reaction : Q) (streak : Z) :
  let s := settingsFor difficulty in
  let w := run random s cellCount playerName mode
             (mount random s cellCount now) events in
  let w' := calls random s cellCount playerName mode w stale in
  0 <= timeLeft (view w) <= timeRewardCap s
  /\ 0 <= timeLeft (view w') <= timeRewardCap s
  /\ 0 <= timeLeft
             (view (fst (applyTimePenalty playerName mode amount any)))
  /\ 0 <= timeLeft (view (tapped s reaction streak any)) <= timeRewardCap s.
Proof.
  intros s w w'.
  pose proof (settingsFor_good difficulty) as G. fold s in G.
  assert (Hw : TimeInv s w).
  { apply TimeInv_run;
      [assumption | apply Fresh_mount | now apply TimeInv_mount]. }
  assert (Hw' : TimeInv s w') by now apply TimeInv_calls.
  split; [apply Hw|]. split; [apply Hw'|]. split.
  - destruct (applyTimePenalty_fields playerName mode amount any) as (E & _).
    rewrite E. apply Math_max_ge_l.
  - destruct (tapped_fields s reaction streak any)
      as (_ & _ & _ & _ & E & _).
    rewrite E. apply clamp_range. pose proof (good_start _ G). lra.
Qed.

(** [pickCell_result] with every draw 0.5, [previous = 3], nothing
    excluded and 25 tiles. *)
Lemma pickCell_result_witness :
  let res := pickCell (fun _ => 1 # 2) 3 [] 25 0 in
  (0 < snd res <= 0 + 40)%nat
  /\ fst res = Math_floor ((1 # 2) * inject_Z 25)
  /\ (0 <= fst res < 25)%Z
  /\ (~ In (fst res) [3%Z]
      \/ (snd res = (0 + 40)%nat /\ In (fst res) [3%Z]))
  /\ ((forall b, In b [] -> b = 3%Z) -> In (fst res) [3%Z] -> fst res = 3%Z).
Proof.
  apply (pickCell_result (fun _ => 1 # 2)).
  - intros n. split; [discriminate | reflexivity].
  - lia.
Defined.

(** C7, as stated, fails: with [previous = 0], excluded set {1} and two
    cells, a stream whose draws all land on cell 1 uses up the 40 draws
    and the selector returns 1, which is excluded and is not [previous]. *)
Lemma pickCell_returns_excluded :
  pickCell (fun _ => 1 # 2) 0 [1%Z] 2 0 = (1%Z, 40%nat)
  /\ In 1%Z [1%Z] /\ 1%Z <> 0%Z.
Proof. split; [vm_compute; reflexivity | split; [now left | discriminate]]. Qed.

(** C6.  For each profile of the table the reaction deadline is
    [max(paceFloor, paceBase - score * paceScoreFactor - streak *
    paceStreakFactor)]; it is never below [paceFloor], and a larger score
    or a larger streak never lengthens it. *)
Theorem difficultyWindow_formula (difficulty : string)
    (score1 streak1 score2 streak2 : Z) :
  (score1 <= score2)%Z ->
  (streak1 <= streak2)%Z ->
  let s := settingsFor difficulty in
  difficultyWindow s score1 streak1
    == Qmax (paceFloor s)
         (paceBase s - inject_Z score1 * paceScoreFactor s
          - inject_Z streak1 * paceStreakFactor s)
  /\ paceFloor s <= difficultyWindow s score1 streak1
  /\ difficultyWindow s score2 streak1 <= difficultyWindow s score1 streak1
  /\ difficultyWindow s score1 streak2 <= difficultyWindow s score1 streak1
  /\ difficultyWindow s score2 streak2 <= difficultyWindow s score1 streak1.
Proof.
  intros Hs Ht s.
  destruct (settingsFor_good difficulty) as [_ _ _ Hf Hg]. fold s in Hf, Hg.
  split; [reflexivity|].
  split; [apply difficultyWindow_floor|].
  repeat split; apply difficultyWindow_antitone; auto; lia.
Qed.

(** [difficultyWindow_formula] on the hard profile, scores 10 and 40,
    streaks 2 and 5. *)
Lemma difficultyWindow_formula_witness :
  let s := settingsFor "hard" in
  difficultyWindow s 10 2 == Qmax (paceFloor s)
         (paceBase s - inject_Z 10 * paceScoreFactor s
          - inject_Z 2 * paceStreakFactor s)
  /\ paceFloor s <= difficultyWindow s 10 2
  /\ difficultyWindow s 40 2 <= difficultyWindow s 10 2
  /\ difficultyWindow s 10 5 <= difficultyWindow s 10 2
  /\ difficultyWindow s 40 5 <= difficultyWindow s 10 2.
Proof. apply (difficultyWindow_formula "hard" 10 2 40 5); lia. Defined.

(** C3 (amended).  In a state reached from the mounted component, on a
    tap of the active tile that is not also the hazard tile while
    playing, with reaction [r] and streak [s]: the score grows by
    [15 + max(2, round((1200 - r)/30)) + max(0, s - 1) * 4], [timeLeft]
    becomes [clamp(timeLeft + max(minGain, max(rewardFloor, 1.25 -
    r/rewardSlope - s * rewardStreakFactor) + rewardBonus), 0,
    timeRewardCap)], the streak and the hits grow by 1.  On the normal
    profile, with [r = 300], [s = 0] and [timeLeft = 30], that is 45
    points and [timeLeft = 29827/940] (31.7308...), which is 31.73 once
    rounded to hundredths. *)
Theorem correct_tap_reward (random : nat -> Q) (settings : Settings)
    (cellCount : Z) (playerName mode : JsString) (now0 : Q)
    (events : list Event) (cellIndex : Z) (now spawnNow : Q) :
  let w := run random settings cellCount playerName mode
             (mount random settings cellCount now0) events in
  status (view w) = playing ->
  cellIndex = activeCell (view w) ->
  hazardCell (view w) <> Some cellIndex ->
  let reaction := now - spawnTimeRef (refs w) in
  let s := streak (view w) in
  let w' := step random settings cellCount playerName mode w
              (Tap cellIndex now spawnNow) in
  score (view w')
  = (score (view w)
     + (15 + Z.max 2 (Math_round ((1200 - reaction) / 30))
        + Z.max 0 (s - 1) * 4))%Z
  /\ timeLeft (view w')
     = clamp
         (timeLeft (view w)
          + Math_max (minGain settings)
              (Math_max (rewardFloor settings)
                 ((125 # 100) - reaction / rewardSlope settings
                  - inject_Z s * rewardStreakFactor settings)
               + rewardBonus settings))
         0 (timeRewardCap settings)
  /\ streak (view w') = (s + 1)%Z
  /\ hits (view w') = (hits (view w) + 1)%Z
  /\ (settings = DIFFICULTY.normal ->
      timeLeft (view w) == 30 -> s = 0%Z -> reaction == 300 ->
      score (view w') = (score (view w) + 45)%Z
      /\ timeLeft (view w') == 29827 # 940
      /\ toFixed2 (timeLeft (view w')) == 3173 # 100).
Proof.
  intros w Hplay Hidx Hhz reaction s w'.
  destruct (correct_tap_general random settings cellCount playerName mode
              now0 events cellIndex now spawnNow Hplay Hidx Hhz)
    as (Hsc & Htl & Hst & Hh).
  fold w reaction s w' in Hsc, Htl, Hst, Hh.
  split; [exact Hsc|]. split; [exact Htl|].
  split; [exact Hst|]. split; [exact Hh|].
  intros Hn Ht Hs Hr. rewrite Hsc, Htl, Hs, Hn.
  cbn [minGain rewardFloor rewardSlope rewardStreakFactor rewardBonus
       timeRewardCap DIFFICULTY.normal].
  rewrite Ht, Hr. repeat split; reflexivity.
Qed.

(** [correct_tap_reward] on the normal profile: a run started at time
    1000, the target (tile 12) tapped at 1300. *)
Lemma correct_tap_reward_witness :
  let w := run Sample.random DIFFICULTY.normal 25 Sample.playerName
             Sample.mode (mount Sample.random DIFFICULTY.normal 25 0)
             [ClickStart 1000] in
  let w' := step Sample.random DIFFICULTY.normal 25 Sample.playerName
              Sample.mode w (Tap 12 1300 1301) in
  (status (view w) = playing /\ 12%Z = activeCell (view w)
   /\ hazardCell (view w) <> Some 12%Z)
  /\ score (view w') = (score (view w) + 45)%Z
  /\ timeLeft (view w') == 29827 # 940
  /\ toFixed2 (timeLeft (view w')) == 3173 # 100.
Proof.
  intros w w'.
  assert (Hplay : status (view w) = playing) by (vm_compute; reflexivity).
  assert (Hidx : 12%Z = activeCell (view w)) by (vm_compute; reflexivity).
  assert (Hhz : hazardCell (view w) <> Some 12%Z) by (vm_compute; discriminate).
  split; [now repeat split|].
  apply (correct_tap_reward Sample.random DIFFICULTY.normal 25
           Sample.playerName Sample.mode 0 [ClickStart 1000] 12 1300 1301
           Hplay Hidx Hhz);
    vm_compute; reflexivity.
Defined.

(** C3, as stated, fails in two places.  On the normal profile the first
    correct tap at 300 ms with streak 0 leaves [timeLeft] at 29827/940,
    above 31.73; in binary64 arithmetic it is above 31.73 as well.  And a
    tap of the active tile is scored as a hazard tap
    when the hazard tile is the same tile, which the selector allows once
    its 40 draws are used up: on the hard profile with every draw 0, the
    run starts with both on tile 0, and the tap gains no point and costs
    5.5 seconds. *)
Lemma correct_tap_not_as_stated :
  let w := run Sample.random DIFFICULTY.normal 25 Sample.playerName
             Sample.mode (mount Sample.random DIFFICULTY.normal 25 0)
             [ClickStart 1000] in
  let w' := step Sample.random DIFFICULTY.normal 25 Sample.playerName
              Sample.mode w (Tap 12 1300 1301) in
  let h := run Sample.zeros DIFFICULTY.hard 25 Sample.playerName
             Sample.mode (mount Sample.zeros DIFFICULTY.hard 25 0)
             [ClickStart 1000] in
  let h' := step Sample.zeros DIFFICULTY.hard 25 Sample.playerName
              Sample.mode h (Tap 0 1300 1301) in
  (status (view w) = playing /\ activeCell (view w) = 12%Z
   /\ streak (view w) = 0%Z /\ timeLeft (view w) == 30
   /\ 1300 - spawnTimeRef (refs w) == 300
   /\ timeLeft (view w') == 29827 # 940
   /\ 3173 # 100 < timeLeft (view w')
   /\ Binary64.exceeds_31_73 Binary64.normalFirstTap = true)
  /\ (status (view h) = playing /\ activeCell (view h) = 0%Z
      /\ hazardCell (view h) = Some 0%Z
      /\ score (view h') = score (view h)
      /\ streak (view h') = 0%Z
      /\ timeLeft (view h') == 195 # 10).
Proof. vm_compute. repeat split; congruence. Qed.

(** C4, evaluated.  On the normal profile, a run just started with the
    target on tile 12 and no hazard: a tap of tile 6 resets the streak,
    takes 1.4 s off the clock, leaves the target, the score, the hits and
    the spawn time alone, and counts the miss in [missesRef] (the count of
    the summary) but not in the state [misses], which stays 0; the
    deadline expiry, on the same state, counts it in both. *)
Theorem wrong_tap_misses_not_counted :
  let w := run Sample.random DIFFICULTY.normal 25 Sample.playerName
             Sample.mode (mount Sample.random DIFFICULTY.normal 25 0)
             [ClickStart 1000] in
  let w' := step Sample.random DIFFICULTY.normal 25 Sample.playerName
              Sample.mode w (Tap 6 1300 1301) in
  let m := step Sample.random DIFFICULTY.normal 25 Sample.playerName
             Sample.mode w (Deadline 2900) in
  (status (view w) = playing /\ activeCell (view w) = 12%Z
   /\ hazardCell (view w) = None /\ misses (view w) = 0%Z
   /\ missesRef (refs w) = 0%Z)
  /\ (misses (view w') = 0%Z /\ missesRef (refs w') = 1%Z)
  /\ (misses (view m) = 1%Z /\ missesRef (refs m) = 1%Z)
  /\ (streak (view w') = 0%Z /\ timeLeft (view w') == 286 # 10
      /\ status (view w') = playing /\ activeCell (view w') = 12%Z
      /\ hazardCell (view w') = None /\ score (view w') = score (view w)
      /\ hits (view w') = hits (view w)
      /\ spawnTimeRef (refs w') = spawnTimeRef (refs w)).
Proof. vm_compute. repeat split; congruence. Qed.

(** C5, evaluated.  On the hard profile, with score 45, the target on
    tile 5 and the hazard on tile 10: a tap of tile 10 brings the score
    to 35, resets the streak, takes 5.5 s off the clock and spawns a new
    target with no hazard, and counts the miss in [missesRef] but not in
    the state [misses], which stays 0. *)
Theorem hazard_tap_misses_not_counted :
  let w := run Sample.script DIFFICULTY.hard 25 Sample.playerName
             Sample.mode (mount Sample.script DIFFICULTY.hard 25 0)
             [ClickStart 1000; Tap 12 1300 1301] in
  let w' := step Sample.script DIFFICULTY.hard 25 Sample.playerName
              Sample.mode w (Tap 10 1800 1801) in
  (status (view w) = playing /\ activeCell (view w) = 5%Z
   /\ hazardCell (view w) = Some 10%Z /\ score (view w) = 45%Z
   /\ misses (view w) = 0%Z /\ missesRef (refs w) = 0%Z)
  /\ (misses (view w') = 0%Z /\ missesRef (refs w') = 1%Z)
  /\ (score (view w') = 35%Z /\ streak (view w') = 0%Z
      /\ timeLeft (view w') + (55 # 10) == timeLeft (view w)
      /\ status (view w') = playing /\ activeCell (view w') = 7%Z
      /\ hazardCell (view w') = None
      /\ spawnTimeRef (refs w') = 1801).
Proof. vm_compute. repeat split; congruence. Qed.

Lemma hazardChance_positive (difficulty : string) :
  0 < hazardChance (settingsFor difficulty) ->
  difficulty = "hard"%string \/ difficulty = "extreme"%string.
Proof.
  unfold settingsFor, DIFFICULTY.lookup.
  destruct (String.eqb difficulty "normal"); [cbn; lra|].
  destruct (String.eqb difficulty "hard") eqn:Eh;
    [intros _; left; now apply String.eqb_eq|].
  destruct (String.eqb difficulty "extreme") eqn:Ee;
    [intros _; right; now apply String.eqb_eq|].
  cbn. lra.
Qed.

(** As long as the props stay those of the mount: on the normal
    profile, whatever the draws of [Math.random()] in [0, 1) and whatever
    events are delivered, [hazardCell] is [null] at run start, after
    every spawn, in every state reached.  Only the names [hard] and
    [extreme] select a profile whose [hazardChance] is positive. *)
Lemma normal_profile_no_hazard (random : nat -> Q) (cellCount : Z)
    (playerName mode : JsString) (now0 now : Q) (events : list Event)
    (difficulty : string) :
  (forall n, 0 <= random n < 1) ->
  let w := run random DIFFICULTY.normal cellCount playerName mode
             (mount random DIFFICULTY.normal cellCount now0) events in
  hazardCell (view w) = None
  /\ hazardCell (view (spawnNewTarget random DIFFICULTY.normal cellCount
                         now w)) = None
  /\ hazardCell (view (reset random DIFFICULTY.normal cellCount playerName
                         now w)) = None
  /\ (difficulty <> "hard"%string -> difficulty <> "extreme"%string ->
      hazardChance (settingsFor difficulty) == 0).
Proof.
  intros Hr w.
  assert (Hn : hazardChance DIFFICULTY.normal <= 0) by (cbn; lra).
  assert (Hw : hazardCell (view w) = None).
  { apply run_no_hazard;
      [assumption | assumption | apply Fresh_mount | apply mount_no_hazard]. }
  split; [exact Hw|].
  split; [now apply spawnNewTarget_no_hazard|].
  split; [now apply reset_no_hazard|].
  intros Hh He.
  destruct (Qlt_le_dec 0 (hazardChance (settingsFor difficulty))) as [Hp|Hp].
  - destruct (hazardChance_positive difficulty Hp); contradiction.
  - destruct (settingsFor_cases difficulty) as [E | [E | E]];
      rewrite E in Hp |- *;
      [reflexivity | exfalso; apply Hp; reflexivity ..].
Qed.

(** C10 (defect).  On 25 tiles the component is mounted on [normal], a
    run is started and paused, the player selects [hard] and then
    [normal] again, and presses Space.  The key listener is registered
    again only when the status or the player name changes: selecting
    [hard] ends the paused run and registers a listener whose [reset] is
    the one of the [hard] render; selecting [normal] then finds the
    component idle, so that listener stays.  The Space key starts a run
    under the [normal] profile with the [reset] of [hard]: the clock
    starts at the 25 seconds of [hard] instead of 30, and the hazard
    draw of [hard] fires and puts a hazard on tile 7.  The Start button
    calls the [reset] of the current render and leaves no hazard. *)
Theorem stale_listener_spawns_hazard :
  let onNormal :=
    run Sample.seventh DIFFICULTY.normal 25 Sample.playerName Sample.mode in
  let paused_run :=
    onNormal (mount Sample.seventh DIFFICULTY.normal 25 0)
      [ClickStart 1000; KeyDown KeyP 2000] in
  let hard_selected :=
    propsChange Sample.seventh DIFFICULTY.hard 25 paused_run in
  let normal_selected :=
    propsChange Sample.seventh DIFFICULTY.normal 25 hard_selected in
  let w := onNormal normal_selected [KeyDown Space 3000] in
  (forall n, 0 <= Sample.seventh n < 1)
  /\ hazardChance DIFFICULTY.normal == 0
  /\ status (view paused_run) = paused
  /\ status (view hard_selected) = idle
  /\ keyListener hard_selected = currentProps DIFFICULTY.hard 25
  /\ status (view normal_selected) = idle
  /\ timeLeft (view normal_selected) = 30
  /\ hazardCell (view normal_selected) = None
  /\ keyListener normal_selected = currentProps DIFFICULTY.hard 25
  /\ status (view w) = playing
  /\ activeCell (view w) = 12%Z
  /\ hazardCell (view w) = Some 7%Z
  /\ timeLeft (view w) = 25
  /\ onNormal normal_selected [ClickStart 3000]
     = reset Sample.seventh DIFFICULTY.normal 25 Sample.playerName 3000
         normal_selected
  /\ hazardCell (view (onNormal normal_selected [ClickStart 3000])) = None.
Proof.
  intros onNormal paused_run hard_selected normal_selected w.
  split.
  { intros n. do 8 (destruct n as [|n];
      [split; [discriminate | reflexivity]|]).
    destruct n; split; try discriminate; reflexivity. }
  vm_compute. repeat split.
Qed.

(** [summary_emitted_once] on a run just started: [endRun], a tick, a
    deadline expiry and [endRun] again, then a tick and [endRun]. *)
Lemma summary_emitted_once_witness :
  let w := run Sample.random DIFFICULTY.normal 25 Sample.playerName
             Sample.mode (mount Sample.random DIFFICULTY.normal 25 0)
             [ClickStart 1000] in
  let endRun := endRun Sample.playerName Sample.mode in
  let calls := calls Sample.random DIFFICULTY.normal 25 Sample.playerName
                 Sample.mode in
  let w1 := calls w [CallEndRun; CallTick; CallMiss (render w) 1200;
                     CallEndRun] in
  let w2 := calls w1 [CallTick; CallEndRun] in
  finishedRef (refs w) = false
  /\ ((finishedRef (refs w1) = false /\ finished w1 = finished w)
      \/ (finishedRef (refs w1) = true /\ status (view w1) = done
          /\ exists r, finished w1 = r :: finished w))
  /\ (finishedRef (refs w1) = true ->
      endRun w1 = w1 /\ finished w2 = finished w1
      /\ finishedRef (refs w2) = true)
  /\ (toFixed2 (timeLeft (view w) - (1 # 10)) <= 0 ->
      Finalised w (countdownTick Sample.playerName Sample.mode w))
  /\ (Math_max 0 (timeLeftRef (refs w) - 40) <= 0 ->
      Finalised w
        (fst (applyTimePenalty Sample.playerName Sample.mode 40 w)))
  /\ (nameMissing Sample.playerName = false ->
      finishedRef
        (refs (reset Sample.random DIFFICULTY.normal 25 Sample.playerName
                 5000 w2)) = false).
Proof.
  intros w endRun calls w1 w2.
  assert (Hopen : finishedRef (refs w) = false) by (vm_compute; reflexivity).
  split; [exact Hopen|].
  exact (summary_emitted_once Sample.random DIFFICULTY.normal 25
           Sample.playerName Sample.mode w
           [CallEndRun; CallTick; CallMiss (render w) 1200; CallEndRun]
           [CallTick; CallEndRun] 40 5000 Hopen).
Defined.




(** ** The rewards, the deadline and the time bar on the three profiles *)

Lemma settingsFor_rewards (difficulty : string) :
  let s := settingsFor difficulty in
  0 < rewardSlope s /\ 0 <= rewardStreakFactor s
  /\ rewardFloor s <= 125 # 100
  /\ minGain s < rewardFloor s + rewardBonus s
  /\ 0 < startTime s /\ paceFloor s <= paceBase s /\ 0 < paceFloor s.
Proof.
  cbn zeta.
  destruct (settingsFor_cases difficulty) as [-> | [-> | ->]];
    cbn; repeat split; lra.
Qed.

Lemma quotient_mono (r1 r2 c : Q) : 0 < c -> r1 <= r2 -> r1 / c <= r2 / c.
Proof.
  intros Hc Hr. unfold Qdiv. apply Qmult_le_compat_r; [exact Hr|].
  apply Qlt_le_weak, Qinv_lt_0_compat, Hc.
Qed.

(** X18.  On each profile of the table the seconds a correct tap adds
    before the clamp are [max(rewardFloor, 1.25 - reaction / rewardSlope
    - streak * rewardStreakFactor) + rewardBonus]: the lower bound
    [minGain] is never the larger operand, the reward being at least
    [rewardFloor + rewardBonus], which exceeds [minGain].  A slower tap or
    a longer streak never adds more, and with a reaction and a streak
    that are not negative the reward is at most [1.25 + rewardBonus]. *)
Theorem timeGain_bounds (difficulty : string) (r1 r2 : Q) (s1 s2 : Z) :
  r1 <= r2 ->
  (s1 <= s2)%Z ->
  let s := settingsFor difficulty in
  timeGain s r1 s1
    == Math_max (rewardFloor s)
         ((125 # 100) - r1 / rewardSlope s
          - inject_Z s1 * rewardStreakFactor s) + rewardBonus s
  /\ minGain s < rewardFloor s + rewardBonus s
  /\ rewardFloor s + rewardBonus s <= timeGain s r2 s2
  /\ timeGain s r2 s2 <= timeGain s r1 s1
  /\ (0 <= r1 -> (0 <= s1)%Z ->
      timeGain s r1 s1 <= (125 # 100) + rewardBonus s).
Proof.
  intros Hr Hs s.
  destruct (settingsFor_rewards difficulty)
    as (Hslope & Hfac & Hfloor & Hmin & _). fold s in Hslope, Hfac, Hfloor, Hmin.
  assert (Hq : r1 / rewardSlope s <= r2 / rewardSlope s)
    by now apply quotient_mono.
  assert (Ht : inject_Z s1 * rewardStreakFactor s
               <= inject_Z s2 * rewardStreakFactor s).
  { apply Qmult_le_compat_r; [|exact Hfac]. now rewrite <- Zle_Qle. }
  assert (Hq0 : 0 <= r1 -> 0 <= r1 / rewardSlope s).
  { intros H0. apply Qle_shift_div_l; [exact Hslope|].
    now rewrite Qmult_0_l. }
  assert (Ht0 : (0 <= s1)%Z -> 0 <= inject_Z s1 * rewardStreakFactor s).
  { intros H0. apply Qmult_le_0_compat; [|exact Hfac].
    change 0 with (inject_Z 0). now rewrite <- Zle_Qle. }
  unfold timeGain.
  generalize dependent (r1 / rewardSlope s).
  generalize dependent (r2 / rewardSlope s).
  generalize dependent (inject_Z s1 * rewardStreakFactor s).
  generalize dependent (inject_Z s2 * rewardStreakFactor s).
  intros t2 t1 Ht Ht0 q2 q1 Hq Hq0.
  set (a1 := Math_max (rewardFloor s) ((125 # 100) - q1 - t1)).
  set (a2 := Math_max (rewardFloor s) ((125 # 100) - q2 - t2)).
  assert (A1 : rewardFloor s <= a1) by apply Math_max_ge_l.
  assert (A2 : rewardFloor s <= a2) by apply Math_max_ge_l.
  assert (A21 : a2 <= a1) by (apply Math_max_mono_r; lra).
  assert (A1u : 0 <= q1 -> 0 <= t1 -> a1 <= 125 # 100)
    by (intros; apply Math_max_lub; lra).
  assert (E1 : Math_max (minGain s) (a1 + rewardBonus s)
               == a1 + rewardBonus s).
  { destruct (Math_max_cases (minGain s) (a1 + rewardBonus s))
      as [[_ E]|[L _]]; [exact E | lra]. }
  assert (E2 : Math_max (minGain s) (a2 + rewardBonus s)
               == a2 + rewardBonus s).
  { destruct (Math_max_cases (minGain s) (a2 + rewardBonus s))
      as [[_ E]|[L _]]; [exact E | lra]. }
  rewrite E1, E2.
  split; [reflexivity|]. split; [exact Hmin|]. split; [lra|].
  split; [lra|]. intros H0 H1. specialize (A1u (Hq0 H0) (Ht0 H1)). lra.
Qed.

(** X19.  In every state of a run of the mounted component on a profile
    of the table, the deadline given to the miss timer lies between
    [paceFloor] and [paceBase] (so it is positive), and it is [paceFloor]
    exactly when the score and the streak have used up the difference. *)
Theorem deadline_within_pace (difficulty : string) (random : nat -> Q)
    (cellCount : Z) (playerName mode : JS.JsString) (now0 : Q)
    (events : list Event) :
  let s := settingsFor difficulty in
  let w := run random s cellCount playerName mode
             (mount random s cellCount now0) events in
  let window := difficultyWindow s (score (view w)) (streak (view w)) in
  0 < window
  /\ paceFloor s <= window <= paceBase s
  /\ (window == paceFloor s
      <-> paceBase s - paceFloor s
          <= inject_Z (score (view w)) * paceScoreFactor s
             + inject_Z (streak (view w)) * paceStreakFactor s).
Proof.
  intros s w window.
  destruct (settingsFor_good difficulty) as [_ _ _ Hf Hg]. fold s in Hf, Hg.
  destruct (settingsFor_rewards difficulty)
    as (_ & _ & _ & _ & _ & Hpace & Hpos). fold s in Hpace, Hpos.
  destruct (reachable_invariants random s cellCount playerName mode
              now0 events) as ((S1 & _) & (_ & _ & _ & _ & _ & _ & C7) & _).
  fold w in S1, C7.
  assert (Q1 : 0 <= inject_Z (score (view w)) * paceScoreFactor s).
  { apply Qmult_le_0_compat; [|exact Hf].
    change 0 with (inject_Z 0). now rewrite <- Zle_Qle. }
  assert (Q2 : 0 <= inject_Z (streak (view w)) * paceStreakFactor s).
  { apply Qmult_le_0_compat; [|exact Hg].
    change 0 with (inject_Z 0). rewrite <- Zle_Qle. apply C7. }
  unfold window, difficultyWindow.
  generalize dependent (inject_Z (score (view w)) * paceScoreFactor s).
  generalize dependent (inject_Z (streak (view w)) * paceStreakFactor s).
  intros g Q2 f Q1.
  destruct (Math_max_cases (paceFloor s) (paceBase s - f - g))
    as [[L ->]|[L ->]]; (split; [lra|]); (split; [lra|]); split; lra.
Qed.

(** X20.  In every state of a run of the mounted component on a profile
    of the table, the width of the time bar lies between 0 and 100
    percent; the bar is full whenever it is drawn as banked time
    ([timeLeft] above [startTime]), and otherwise its width is [timeLeft]
    as a percentage of [startTime]. *)
Theorem timebar_within_bounds (difficulty : string) (random : nat -> Q)
    (cellCount : Z) (playerName mode : JS.JsString) (now0 : Q)
    (events : list Event) :
  let s := settingsFor difficulty in
  let w := run random s cellCount playerName mode
             (mount random s cellCount now0) events in
  0 <= timebarWidth s w <= 100
  /\ (timebarBanked s w = true -> timebarWidth s w == 100)
  /\ (timebarBanked s w = false ->
      timebarWidth s w == timeLeft (view w) / startTime s * 100).
Proof.
  intros s w.
  destruct (settingsFor_rewards difficulty)
    as (_ & _ & _ & _ & Hstart & _). fold s in Hstart.
  assert (T : TimeInv s w).
  { apply TimeInv_run;
      [apply settingsFor_good | apply Fresh_mount | apply TimeInv_mount].
    apply settingsFor_good. }
  destruct T as ((T0 & _) & _).
  assert (R0 : 0 <= timeLeft (view w) / startTime s).
  { apply Qle_shift_div_l; [exact Hstart|]. now rewrite Qmult_0_l. }
  assert (R1 : startTime s < timeLeft (view w)
               -> 1 < timeLeft (view w) / startTime s).
  { intros H. apply Qlt_shift_div_l; [exact Hstart|].
    now rewrite Qmult_1_l. }
  assert (R2 : timeLeft (view w) <= startTime s
               -> timeLeft (view w) / startTime s <= 1).
  { intros H. apply Qle_shift_div_r; [exact Hstart|].
    now rewrite Qmult_1_l. }
  unfold timebarWidth, timebarBanked.
  destruct (Qlt_bool (startTime s) (timeLeft (view w))) eqn:B.
  - apply Qlt_bool_iff in B. specialize (R1 B).
    generalize dependent (timeLeft (view w) / startTime s).
    intros y R0 R1 _.
    destruct (Math_min_cases 100 (y * 100)) as [[L ->]|[L ->]].
    + split; [lra|]. split; [reflexivity | discriminate].
    + exfalso. lra.
  - assert (B' : timeLeft (view w) <= startTime s).
    { apply Qnot_lt_le. intros H. apply Qlt_bool_iff in H. congruence. }
    specialize (R2 B').
    generalize dependent (timeLeft (view w) / startTime s).
    intros y R0 _ R2.
    destruct (Math_min_cases 100 (y * 100)) as [[L ->]|[L ->]].
    + exfalso. lra.
    + split; [lra|]. split; [discriminate | reflexivity].
Qed.

(** X28.  Only a correct tap rewards.  On a profile of the table, for
    every state of a run of the mounted component and every event: unless
    the event is a correct tap (a tap, while playing, of the target when
    it is not also the hazard), the score, the hits and the streak do not
    go up; unless it is a correct tap or a restart, the clock does not go
    up; and a correct tap adds one hit, one to the streak and at least 17
    points. *)
Theorem only_correct_taps_reward (difficulty : string) (random : nat -> Q)
    (cellCount : Z) (playerName mode : JS.JsString) (now0 : Q)
    (events : list Event) (e : Event) :
  let s := settingsFor difficulty in
  let w := run random s cellCount playerName mode
             (mount random s cellCount now0) events in
  let w' := step random s cellCount playerName mode w e in
  (isCorrectTap w e
   \/ ((score (view w') <= score (view w))%Z
       /\ (hits (view w') <= hits (view w))%Z
       /\ (streak (view w') <= streak (view w))%Z))
  /\ (isCorrectTap w e \/ isRestart e
      \/ timeLeft (view w') <= timeLeft (view w))
  /\ (isCorrectTap w e ->
      hits (view w') = (hits (view w) + 1)%Z
      /\ streak (view w') = (streak (view w) + 1)%Z
      /\ (score (view w) + 17 <= score (view w'))%Z).
Proof.
  intros s w w'.
  pose proof (settingsFor_good difficulty) as G. fold s in G.
  destruct (reachable_invariants random s cellCount playerName mode
              now0 events) as (S & C & _).
  fold w in S, C.
  assert (T : TimeInv s w).
  { apply TimeInv_run;
      [exact G | apply Fresh_mount | now apply TimeInv_mount]. }
  destruct (step_rewards random s cellCount playerName mode w e G S C T)
    as [H1 H2].
  fold w' in H1, H2.
  split; [exact H1|]. split; [exact H2|].
  destruct e as [|spawnNow|cellIndex now spawnNow|now| |k now];
    cbn [isCorrectTap]; try contradiction.
  intros (Hp & Ha & Hh).
  destruct (correct_tap_general random s cellCount playerName mode now0
              events cellIndex now spawnNow Hp Ha Hh)
    as (E1 & _ & E3 & E4).
  fold w in E1, E3, E4. fold w' in E1, E3, E4.
  split; [exact E4|]. split; [exact E3|]. rewrite E1. lia.
Qed.

(** ** The further properties on sample runs *)

(** [pause_resume_round_trip] on a run just started: P then Escape, and P
    then the Resume button. *)
Lemma pause_resume_round_trip_witness :
  let w := run Sample.random DIFFICULTY.normal 25 Sample.playerName
             Sample.mode (mount Sample.random DIFFICULTY.normal 25 0)
             [ClickStart 1000] in
  let run := run Sample.random DIFFICULTY.normal 25 Sample.playerName
               Sample.mode in
  status (view w) = playing
  /\ status (view (run w [KeyDown KeyP 1500])) = paused
  /\ run w [KeyDown KeyP 1500; KeyDown Escape 1800] = w
  /\ run w [KeyDown KeyP 1500; ClickResume] = w.
Proof.
  intros w run.
  assert (Hp : status (view w) = playing) by (vm_compute; reflexivity).
  split; [exact Hp|].
  apply (pause_resume_round_trip Sample.random DIFFICULTY.normal 25
           Sample.playerName Sample.mode w KeyP Escape 1500 1800 Hp);
    discriminate.
Defined.

(** [deadline_miss_effects] on a run just started: the clock goes from
    30 to 26 and the run goes on. *)
Lemma deadline_miss_effects_witness :
  let w := run Sample.random DIFFICULTY.normal 25 Sample.playerName
             Sample.mode (mount Sample.random DIFFICULTY.normal 25 0)
             [ClickStart 1000] in
  let w' := step Sample.random DIFFICULTY.normal 25 Sample.playerName
              Sample.mode w (Deadline 3000) in
  status (view w) = playing
  /\ streak (view w') = 0%Z
  /\ misses (view w') = 1%Z
  /\ missesRef (refs w') = 1%Z
  /\ score (view w') = 0%Z
  /\ timeLeft (view w') == 26
  /\ status (view w') = playing.
Proof.
  intros w w'.
  assert (Hp : status (view w) = playing) by (vm_compute; reflexivity).
  split; [exact Hp|].
  destruct (deadline_miss_effects Sample.random DIFFICULTY.normal 25
              Sample.playerName Sample.mode w 3000 Hp)
    as (E1 & E2 & E3 & E4 & _ & E6 & _ & E8).
  fold w' in E1, E2, E3, E4, E6, E8.
  split; [exact E1|]. split; [rewrite E2; vm_compute; reflexivity|].
  split; [rewrite E3; vm_compute; reflexivity|].
  split; [rewrite E4; vm_compute; reflexivity|].
  split; [rewrite E6; vm_compute; reflexivity|].
  apply E8. vm_compute. reflexivity.
Defined.

(** [target_stays_on_grid] on the hard profile with 25 tiles: from the
    mount, and after the grid went from 16 tiles to 25 while the
    component was idle; the Space key then draws on the 16 tiles. *)
Lemma target_stays_on_grid_witness :
  let events := [KeyDown Space 1000; Tap 12 1300 1301; Deadline 3000] in
  let w := mount Sample.script DIFFICULTY.hard 16 0 in
  let w1 := run Sample.script DIFFICULTY.hard 25 Sample.playerName
              Sample.mode (mount Sample.script DIFFICULTY.hard 25 0)
              events in
  let w2 := run Sample.script DIFFICULTY.hard 25 Sample.playerName
              Sample.mode (propsChange Sample.script DIFFICULTY.hard 25 w)
              events in
  (forall n, 0 <= Sample.script n < 1) /\ (1 <= 25)%Z
  /\ (1 <= l_cellCount (keyListener w))%Z
  /\ status (view w) = idle /\ l_cellCount (keyListener w) = 16%Z
  /\ (0 <= activeCell (view w1) < 25)%Z
  /\ (0 <= activeCell (view w2) < 25)%Z
  /\ forall h, hazardCell (view w2) = Some h -> (0 <= h < 25)%Z.
Proof.
  intros events w w1 w2.
  assert (Hr : forall n, 0 <= Sample.script n < 1).
  { intros n. do 7 (destruct n as [|n];
      [split; [discriminate | reflexivity]|]).
    destruct n; split; try discriminate; reflexivity. }
  assert (Hc : (1 <= 25)%Z) by lia.
  assert (Hl : (1 <= l_cellCount (keyListener w))%Z)
    by (vm_compute; discriminate).
  destruct (target_stays_on_grid Sample.script DIFFICULTY.hard 25
              Sample.playerName Sample.mode Hr 0 w events Hc Hl)
    as ((A1 & _) & (A2 & H2)).
  split; [exact Hr|]. split; [exact Hc|]. split; [exact Hl|].
  split; [vm_compute; reflexivity|]. split; [vm_compute; reflexivity|].
  split; [exact A1|]. split; [exact A2 | exact H2].
Defined.

(** [pickCell_first_accepted] with every draw 0.5 on 25 tiles, previous
    tile 3: the first draw, tile 12, is accepted. *)
Lemma pickCell_first_accepted_witness :
  (0 < 40)%nat
  /\ ~ In (draw Sample.random 25 0 0) [3%Z]
  /\ pickCell Sample.random 3 [] 25 0 = (12%Z, 1%nat).
Proof.
  assert (Hk : (0 < 40)%nat) by lia.
  assert (Hn : ~ In (draw Sample.random 25 0 0) [3%Z]).
  { intros [H | []]. vm_compute in H. discriminate. }
  split; [exact Hk|]. split; [exact Hn|].
  rewrite (pickCell_first_accepted Sample.random 3 [] 25 0 0 Hk
             ltac:(intros j Hj; lia) Hn).
  vm_compute. reflexivity.
Defined.

(** [tick_lowers_clock] on a run just started: the clock goes from 30 to
    29.9. *)
Lemma tick_lowers_clock_witness :
  let w := run Sample.random DIFFICULTY.normal 25 Sample.playerName
             Sample.mode (mount Sample.random DIFFICULTY.normal 25 0)
             [ClickStart 1000] in
  let w' := step Sample.random DIFFICULTY.normal 25 Sample.playerName
              Sample.mode w Tick in
  status (view w) = playing
  /\ status (view w') = playing
  /\ timeLeft (view w') == 299 # 10
  /\ ((status (view w') = done /\ timeLeft (view w') = 0
       /\ timeLeft (view w) <= 11 # 100
       /\ finished w' = summary Sample.playerName Sample.mode w'
                        :: finished w)
      \/ (status (view w') = playing /\ 0 < timeLeft (view w')
          /\ timeLeft (view w) - (11 # 100) <= timeLeft (view w')
             <= timeLeft (view w) - (9 # 100)
          /\ finished w' = finished w)).
Proof.
  intros w w'.
  assert (Hp : status (view w) = playing) by (vm_compute; reflexivity).
  split; [exact Hp|]. split; [vm_compute; reflexivity|].
  split; [vm_compute; reflexivity|].
  exact (tick_lowers_clock Sample.random DIFFICULTY.normal 25
           Sample.playerName Sample.mode 0 [ClickStart 1000] Hp).
Defined.

(** [ticks_alone_end_the_run] on a run just started and brought down to
    2 s by seven missed deadlines: 22 ticks end it. *)
Lemma ticks_alone_end_the_run_witness :
  let events := [ClickStart 1000; Deadline 2000; Deadline 3000;
                 Deadline 4000; Deadline 5000; Deadline 6000;
                 Deadline 7000; Deadline 8000] in
  let w := run Sample.random DIFFICULTY.normal 25 Sample.playerName
             Sample.mode (mount Sample.random DIFFICULTY.normal 25 0)
             events in
  let w' := run Sample.random DIFFICULTY.normal 25 Sample.playerName
              Sample.mode w (repeat Tick 22) in
  status (view w) = playing
  /\ timeLeft (view w) == 2
  /\ status (view w') = done /\ timeLeft (view w') == 0.
Proof.
  intros events w w'.
  assert (Hp : status (view w) = playing) by (vm_compute; reflexivity).
  assert (Ht : timeLeft (view w) == 2) by (vm_compute; reflexivity).
  split; [exact Hp|]. split; [exact Ht|].
  apply (ticks_alone_end_the_run Sample.random DIFFICULTY.normal 25
           Sample.playerName Sample.mode 0 events 22 Hp); [lia|].
  apply Qle_trans with 2; [apply Qle_lteq; right; exact Ht|].
  vm_compute. discriminate.
Defined.

(** [gained_bounds] on reactions of 300 and 1200 ms, streaks 0 and 3. *)
Lemma gained_bounds_witness :
  300 <= 1200 /\ (0 <= 3)%Z
  /\ (17 <= gained 1200 0)%Z
  /\ (gained 1200 0 <= gained 300 0)%Z
  /\ (gained 300 0 <= gained 300 3)%Z
  /\ (0 <= 300 -> (gained 300 0 <= 55 + Z.max 0 (0 - 1) * 4)%Z)
  /\ (1155 <= 300 -> gained 300 0 = (17 + Z.max 0 (0 - 1) * 4)%Z).
Proof.
  assert (Hr : 300 <= 1200) by (vm_compute; discriminate).
  assert (Hs : (0 <= 3)%Z) by lia.
  split; [exact Hr|]. split; [exact Hs|].
  exact (gained_bounds 300 1200 0 3 Hr Hs).
Defined.

(** [pop_positions] on the 4 x 4 grid of a narrow window, tiles 5 and
    10. *)
Lemma pop_positions_witness :
  let grid := getGrid (Some 390%Z) in
  (0 <= 5 < cellCountOf grid)%Z /\ (0 <= 10 < cellCountOf grid)%Z
  /\ (0 < fst (popPosition grid 5) < 100
      /\ 0 < snd (popPosition grid 5) < 100)
  /\ (fst (popPosition grid 5) == fst (popPosition grid 10) ->
      snd (popPosition grid 5) == snd (popPosition grid 10) ->
      5%Z = 10%Z).
Proof.
  intros grid.
  assert (H5 : (0 <= 5 < cellCountOf grid)%Z)
    by (vm_compute; split; [discriminate | reflexivity]).
  assert (H10 : (0 <= 10 < cellCountOf grid)%Z)
    by (vm_compute; split; [discriminate | reflexivity]).
  split; [exact H5|]. split; [exact H10|].
  exact (pop_positions (Some 390%Z) 5 10 H5 H10).
Defined.

(** [timeGain_bounds] on the normal profile, reactions of 300 and 600 ms,
    streaks 0 and 4. *)
Lemma timeGain_bounds_witness :
  let s := settingsFor "normal" in
  300 <= 600 /\ (0 <= 4)%Z
  /\ timeGain s 300 0
       == Math_max (rewardFloor s)
            ((125 # 100) - 300 / rewardSlope s
             - inject_Z 0 * rewardStreakFactor s) + rewardBonus s
  /\ minGain s < rewardFloor s + rewardBonus s
  /\ rewardFloor s + rewardBonus s <= timeGain s 600 4
  /\ timeGain s 600 4 <= timeGain s 300 0
  /\ (0 <= 300 -> (0 <= 0)%Z ->
      timeGain s 300 0 <= (125 # 100) + rewardBonus s).
Proof.
  intros s.
  assert (Hr : 300 <= 600) by (vm_compute; discriminate).
  assert (Hs : (0 <= 4)%Z) by lia.
  split; [exact Hr|]. split; [exact Hs|].
  exact (timeGain_bounds "normal" 300 600 0 4 Hr Hs).
Defined.

(** [profile_change_abandons_run] when the profile becomes hard during a
    run on the normal profile with a hit: the score of 45 is dropped, no
    summary is handed over, and the listener is the one of the new
    render. *)
Lemma profile_change_abandons_run_witness :
  let w := run Sample.random DIFFICULTY.normal 25 Sample.playerName
             Sample.mode (mount Sample.random DIFFICULTY.normal 25 0)
             [ClickStart 1000; Tap 12 1300 1301] in
  let w0 := propsChange Sample.random DIFFICULTY.hard 25 w in
  (forall n, 0 <= Sample.random n < 1) /\ (1 <= 25)%Z
  /\ (1 <= l_cellCount (keyListener w))%Z
  /\ status (view w) = playing /\ score (view w) = 45%Z
  /\ status (view w0) = idle
  /\ timeLeft (view w0) = 25
  /\ score (view w0) = 0%Z
  /\ finishedRef (refs w0) = false
  /\ finished w0 = []
  /\ keyListener w0 = currentProps DIFFICULTY.hard 25.
Proof.
  intros w w0.
  assert (Hr : forall n, 0 <= Sample.random n < 1)
    by (intros n; split; [discriminate | reflexivity]).
  assert (Hc : (1 <= 25)%Z) by lia.
  assert (Hl : (1 <= l_cellCount (keyListener w))%Z)
    by (vm_compute; discriminate).
  assert (Hp : status (view w) = playing) by (vm_compute; reflexivity).
  destruct (profile_change_abandons_run Sample.random DIFFICULTY.hard 25
              Sample.playerName Sample.mode Hr w [] 2000 Hc Hl)
    as ((E1 & E2 & E3 & _ & _ & _ & _ & _ & _ & E10 & _ & E12) & _ & L & _).
  fold w0 in E1, E2, E3, E10, E12, L.
  split; [exact Hr|]. split; [exact Hc|]. split; [exact Hl|].
  split; [exact Hp|]. split; [vm_compute; reflexivity|].
  split; [exact E1|]. split; [exact E2|]. split; [exact E3|].
  split; [exact E10|]. split; [rewrite E12; vm_compute; reflexivity|].
  apply L. rewrite Hp. discriminate.
Defined.

(** ** The personal best *)

Lemma digitOf_spec (d : Z) :
  (0 <= d < 10)%Z ->
  App.isDigit (App.digitOf d) = true
  /\ (Z.of_N (App.digitOf d) - 48 = d)%Z.
Proof.
  intros H. unfold App.isDigit, App.digitOf. split.
  - apply andb_true_iff. split; apply N.leb_le; lia.
  - lia.
Qed.

Lemma valueOf_snoc (l : JS.JsString) (c : N) :
  App.valueOf (l ++ [c]) = (App.valueOf l * 10 + (Z.of_N c - 48))%Z.
Proof. unfold App.valueOf. now rewrite fold_left_app. Qed.

Lemma digits_spec (fuel : nat) (n : Z) :
  (0 <= n < 2 ^ Z.of_nat (S fuel))%Z ->
  Forall (fun c => App.isDigit c = true) (App.digits (S fuel) n)
  /\ App.valueOf (App.digits (S fuel) n) = n
  /\ App.digits (S fuel) n <> [].
Proof.
  revert n. induction fuel as [|fuel IH]; intros n Hn.
  - change (2 ^ Z.of_nat 1)%Z with 2%Z in Hn.
    cbn [App.digits]. destruct (Z.ltb_spec n 10); [|lia].
    destruct (digitOf_spec n ltac:(lia)) as [D V].
    split; [constructor; [exact D | constructor]|].
    split; [|discriminate]. unfold App.valueOf. cbn [fold_left]. lia.
  - change (App.digits (S (S fuel)) n)
      with (if (n <? 10)%Z then [App.digitOf n]
            else App.digits (S fuel) (n / 10)
                 ++ [App.digitOf (n mod 10)]).
    destruct (Z.ltb_spec n 10) as [L | L].
    + destruct (digitOf_spec n ltac:(lia)) as [D V].
      split; [constructor; [exact D | constructor]|].
      split; [|discriminate]. unfold App.valueOf. cbn [fold_left]. lia.
    + assert (Hq : (0 <= n / 10 < 2 ^ Z.of_nat (S fuel))%Z).
      { split; [apply Z.div_pos; lia|].
        apply Z.div_lt_upper_bound; [lia|].
        rewrite (Nat2Z.inj_succ (S fuel)), Z.pow_succ_r in Hn by lia.
        lia. }
      destruct (IH _ Hq) as (F & V & N).
      pose proof (Z.mod_pos_bound n 10 ltac:(lia)) as Hm.
      destruct (digitOf_spec (n mod 10) Hm) as [D Vd].
      split; [|split].
      * apply Forall_app. split; [exact F|]. constructor; [exact D|constructor].
      * rewrite valueOf_snoc, V, Vd.
        pose proof (Z.div_mod n 10 ltac:(lia)). lia.
      * intros E. apply app_eq_nil in E. destruct E as [_ E]. discriminate.
Qed.

Lemma digitPrefix_all (l rest : JS.JsString) :
  Forall (fun c => App.isDigit c = true) l ->
  match rest with
  | c :: _ => App.isDigit c = false
  | [] => True
  end ->
  App.digitPrefix (l ++ rest) = l.
Proof.
  intros F R. induction F as [|c l Hc F IH]; cbn [app App.digitPrefix].
  - destruct rest as [|c rest]; [reflexivity|].
    cbn [App.digitPrefix]. now rewrite R.
  - now rewrite Hc, IH.
Qed.

Lemma digit_not_space (c : N) :
  App.isDigit c = true ->
  JS.isWhiteSpace c = false /\ (c =? 43)%N = false /\ (c =? 45)%N = false.
Proof.
  unfold App.isDigit, JS.isWhiteSpace. intros H.
  apply andb_true_iff in H. destruct H as [H1 H2].
  apply N.leb_le in H1. apply N.leb_le in H2.
  repeat match goal with
         | |- context [(?a <=? ?b)%N] => destruct (N.leb_spec a b); try lia
         | |- context [(?a =? ?b)%N] => destruct (N.eqb_spec a b); try lia
         end.
Qed.

Lemma Number_toString_digits (m : Z) :
  (0 <= m)%Z ->
  let text := App.digits (S (Z.to_nat (Z.log2 m))) m in
  Forall (fun c => App.isDigit c = true) text
  /\ App.valueOf text = m /\ text <> [].
Proof.
  intros Hm. apply digits_spec. split; [exact Hm|].
  rewrite Nat2Z.inj_succ, Z2Nat.id by apply Z.log2_nonneg.
  destruct (Z.eq_dec m 0) as [-> | Hz]; [cbn; lia|].
  apply Z.log2_spec. lia.
Qed.

Lemma parseInt10_numeral (text rest : JS.JsString) :
  Forall (fun c => App.isDigit c = true) text ->
  text <> [] ->
  match rest with
  | c :: _ => App.isDigit c = false
  | [] => True
  end ->
  App.parseInt10 (text ++ rest) = App.ofInteger (App.valueOf text)
  /\ App.parseInt10 (45%N :: text ++ rest)
     = App.ofInteger (- App.valueOf text).
Proof.
  intros F N R.
  pose proof (digitPrefix_all text rest F R) as P.
  destruct text as [|c text]; [contradiction|].
  inversion F as [|? ? Hc _]; subst.
  destruct (digit_not_space c Hc) as (W & P43 & P45).
  unfold App.parseInt10. split.
  - cbn [app JS.trimStart]. rewrite W, P43, P45. cbn [orb].
    assert (S1 : match (c :: text ++ rest) with
                 | 45%N :: _ => (-1)%Z
                 | _ => 1%Z
                 end = 1%Z).
    { apply N.eqb_neq in P45.
      destruct c as [|p]; [reflexivity|].
      do 6 (destruct p as [p|p|]; try reflexivity). contradiction. }
    rewrite S1. cbn [app] in P. rewrite P. f_equal; lia.
  - cbn [JS.trimStart]. change (JS.isWhiteSpace 45) with false.
    cbn iota. change ((45 =? 43)%N || (45 =? 45)%N) with true. cbn iota.
    rewrite P. f_equal; lia.
Qed.

Lemma isSafe_spec (n : Z) :
  App.isSafe n = true <-> (Z.abs n <= App.MAX_SAFE_INTEGER)%Z.
Proof. unfold App.isSafe. apply Z.leb_le. Qed.

(** What [String] writes for a safe integer, read back. *)
Lemma parseInt10_written (n : Z) :
  (Z.abs n <= App.MAX_SAFE_INTEGER)%Z ->
  exists text,
    App.Number_toString n = Some text
    /\ text <> []
    /\ App.parseInt10 text = App.Int n
    /\ forall c rest,
         App.isDigit c = false ->
         App.parseInt10 (text ++ c :: rest) = App.Int n.
Proof.
  intros Hn. pose proof (proj2 (isSafe_spec n) Hn) as Hs.
  destruct (Number_toString_digits (Z.abs n) (Z.abs_nonneg n))
    as (F & V & N).
  assert (O : forall v, v = n -> App.ofInteger v = App.Int n).
  { intros v ->. unfold App.ofInteger. now rewrite Hs. }
  unfold App.Number_toString. rewrite Hs. cbn zeta.
  destruct (Z.ltb_spec n 0) as [L | L];
    eexists; (split; [reflexivity|]).
  - split; [discriminate|]. split.
    + destruct (parseInt10_numeral _ [] F N I) as [_ E].
      rewrite app_nil_r in E. rewrite E, V. apply O. lia.
    + intros c rest Hc.
      destruct (parseInt10_numeral _ (c :: rest) F N Hc) as [_ E].
      cbn [app]. rewrite E, V. apply O. lia.
  - split; [exact N|]. split.
    + destruct (parseInt10_numeral _ [] F N I) as [E _].
      rewrite app_nil_r in E. rewrite E, V. apply O. lia.
    + intros c rest Hc.
      destruct (parseInt10_numeral _ (c :: rest) F N Hc) as [E _].
      rewrite E, V. apply O. lia.
Qed.

(** X24.  Reading back what [String] wrote gives the same integer:
    [parseInt(String(n), 10)] is [n] for every integer [n] of magnitude
    at most [Number.MAX_SAFE_INTEGER] (beyond, not every integer is a
    number, and from 10^21 on [String] writes an exponent), also when
    the stored text goes on after the digits with a code unit that is
    not a digit. *)
Theorem parseInt_reads_back (n : Z) :
  (Z.abs n <= App.MAX_SAFE_INTEGER)%Z ->
  exists text,
    App.Number_toString n = Some text
    /\ App.parseInt10 text = App.Int n
    /\ forall c rest,
         App.isDigit c = false ->
         App.parseInt10 (text ++ c :: rest) = App.Int n.
Proof.
  intros Hn. destruct (parseInt10_written n Hn) as (text & E & _ & P & Q).
  exists text. repeat split; assumption.
Qed.

Lemma getItem_setItem (key value : JS.JsString) (storage : App.Storage) :
  App.getItem key (App.setItem key value storage) = Some value
  /\ forall k, k <> key ->
       App.getItem k (App.setItem key value storage) = App.getItem k storage.
Proof.
  unfold App.getItem, App.setItem. split.
  - destruct (list_eq_dec N.eq_dec key key); [reflexivity | contradiction].
  - intros k Hk. destruct (list_eq_dec N.eq_dec k key);
      [contradiction | reflexivity].
Qed.

Lemma readPersonalBest_written (score : Z) (text : JS.JsString)
    (storage : App.Storage) :
  (Z.abs score <= App.MAX_SAFE_INTEGER)%Z ->
  App.Number_toString score = Some text ->
  App.readPersonalBest (App.setItem App.PB_KEY text storage)
  = App.Int score.
Proof.
  intros Hs Ht. unfold App.readPersonalBest.
  destruct (getItem_setItem App.PB_KEY text storage) as [-> _].
  destruct (parseInt10_written score Hs) as (text' & E & N & P & _).
  rewrite Ht in E. injection E as <-.
  destruct text as [|c rest]; [contradiction|].
  exact P.
Qed.

(** What [updatePersonalBest] returns and leaves for a safe score: the
    score replaces what is stored exactly when the stored number is
    below it. *)
Lemma updatePersonalBest_cases (score : Z) (storage : App.Storage) :
  (Z.abs score <= App.MAX_SAFE_INTEGER)%Z ->
  let current := App.readPersonalBest storage in
  (App.below current score = true
   /\ exists text,
        App.Number_toString score = Some text
        /\ App.updatePersonalBest score storage
           = Some (App.Int score, App.setItem App.PB_KEY text storage)
        /\ App.readPersonalBest (App.setItem App.PB_KEY text storage)
           = App.Int score)
  \/ (App.below current score = false
      /\ App.updatePersonalBest score storage = Some (current, storage)).
Proof.
  intros Hs. cbn zeta.
  destruct (parseInt10_written score Hs) as (text & E & _).
  pose proof E as E0.
  unfold App.updatePersonalBest. rewrite E. cbn zeta.
  destruct (App.below (App.readPersonalBest storage) score) eqn:B.
  - left. split; [reflexivity|]. exists text.
    split; [reflexivity|]. split; [reflexivity|].
    apply readPersonalBest_written; [exact Hs|].
    unfold App.Number_toString. exact E0.
  - right. split; reflexivity.
Qed.

(** X25.  [updatePersonalBest(score)], for a score of magnitude at most
    [Number.MAX_SAFE_INTEGER], touches no key but its own.  When the
    stored text reads as such an integer (a missing or empty entry reads
    as 0), it returns the larger of that integer and the score, a later
    [readPersonalBest] returns the same, and the storage is written only
    when the score is strictly larger.  When the stored text does not
    start with a number, it returns [NaN] and leaves the storage as it
    is: such an entry is never replaced; neither is a stored number of
    2^53 or more, while one of -2^53 or less is replaced by the score. *)
Theorem personal_best_update (score : Z) (storage : App.Storage) :
  (Z.abs score <= App.MAX_SAFE_INTEGER)%Z ->
  exists best storage',
    App.updatePersonalBest score storage = Some (best, storage')
    /\ (forall k, k <> App.PB_KEY ->
          App.getItem k storage' = App.getItem k storage)
    /\ match App.readPersonalBest storage with
       | App.Int c =>
           best = App.Int (Z.max c score)
           /\ App.readPersonalBest storage' = App.Int (Z.max c score)
           /\ ((score <= c)%Z -> storage' = storage)
       | App.NaN => best = App.NaN /\ storage' = storage
       | App.Huge false => best = App.Huge false /\ storage' = storage
       | App.Huge true =>
           best = App.Int score
           /\ App.readPersonalBest storage' = App.Int score
       end
    /\ (App.getItem App.PB_KEY storage = None
        \/ App.getItem App.PB_KEY storage = Some [] ->
        App.readPersonalBest storage = App.Int 0%Z).
Proof.
  intros Hs.
  assert (Hempty : App.getItem App.PB_KEY storage = None
                   \/ App.getItem App.PB_KEY storage = Some [] ->
                   App.readPersonalBest storage = App.Int 0%Z).
  { unfold App.readPersonalBest. intros [-> | ->]; reflexivity. }
  destruct (updatePersonalBest_cases score storage Hs)
    as [(B & text & T & U & R) | (B & U)].
  - exists (App.Int score), (App.setItem App.PB_KEY text storage).
    split; [exact U|]. split; [intros k Hk; now apply getItem_setItem|].
    split; [|exact Hempty].
    destruct (App.readPersonalBest storage) as [|c|[|]];
      cbn [App.below] in B; try discriminate.
    + apply Z.ltb_lt in B. rewrite Z.max_r by lia.
      repeat split; try assumption. lia.
    + split; [reflexivity | exact R].
  - exists (App.readPersonalBest storage), storage.
    split; [exact U|]. split; [reflexivity|].
    split; [|exact Hempty].
    destruct (App.readPersonalBest storage) as [|c|[|]] eqn:E;
      cbn [App.below] in B; try discriminate.
    + split; reflexivity.
    + apply Z.ltb_ge in B. rewrite Z.max_l by lia.
      repeat split; reflexivity.
    + split; reflexivity.
Qed.

(** X26.  Over the runs of a session the stored best is the maximum:
    with scores of magnitude at most [Number.MAX_SAFE_INTEGER], when the
    stored text reads as the integer [c], after [updatePersonalBest] on
    each score in turn [readPersonalBest] returns the largest of [c] and
    the scores; when it does not read as a number the storage stays as
    it is, whatever the scores. *)
Theorem personal_best_is_maximum (scores : list Z)
    (storage : App.Storage) :
  Forall (fun score => (Z.abs score <= App.MAX_SAFE_INTEGER)%Z) scores ->
  exists storage',
    App.afterRuns scores storage = Some storage'
    /\ match App.readPersonalBest storage with
       | App.Int c =>
           App.readPersonalBest storage'
           = App.Int (fold_left Z.max scores c)
       | App.NaN => storage' = storage
       | App.Huge _ => True
       end.
Proof.
  intros F. revert storage.
  induction F as [|score scores Hs F IH]; intros storage;
    cbn [App.afterRuns fold_left].
  - exists storage. split; [reflexivity|].
    destruct (App.readPersonalBest storage); trivial.
  - destruct (updatePersonalBest_cases score storage Hs)
      as [(B & text & T & U & R) | (B & U)]; rewrite U.
    + destruct (IH (App.setItem App.PB_KEY text storage))
        as (storage' & A & M).
      exists storage'. split; [exact A|]. rewrite R in M.
      destruct (App.readPersonalBest storage) as [|c|[|]];
        cbn [App.below] in B; try discriminate; [|exact I].
      apply Z.ltb_lt in B. rewrite Z.max_r by lia. exact M.
    + destruct (IH storage) as (storage' & A & M).
      exists storage'. split; [exact A|].
      destruct (App.readPersonalBest storage) as [|c|[|]];
        cbn [App.below] in B; try discriminate; try exact M.
      apply Z.ltb_ge in B. rewrite Z.max_l by lia. exact M.
Qed.

(** The badge conditions with the best [updatePersonalBest] returns for
    a score that is not below the one on screen, and with one from
    before the run. *)
Lemma badge_conditions (reported : Z) (storage : App.Storage) (w : World) :
  (Z.abs reported <= App.MAX_SAFE_INTEGER)%Z ->
  (score (view w) <= reported)%Z ->
  exists best storage',
    App.updatePersonalBest reported storage = Some (best, storage')
    /\ isNewBest best w = false
    /\ isFirstBest best w = false.
Proof.
  intros Hs Hle. unfold isNewBest, isFirstBest.
  destruct (updatePersonalBest_cases reported storage Hs)
    as [(B & text & T & U & R) | (B & U)]; rewrite U;
    eexists; eexists; (split; [reflexivity|]).
  - cbn [App.below App.strictEq]. split.
    + destruct (Z.ltb_spec reported (score (view w))); [lia|].
      now rewrite !andb_false_r.
    + destruct (Z.ltb_spec 0 (score (view w)));
        [|now rewrite !andb_false_r].
      destruct (Z.eqb_spec reported 0); [lia|].
      now rewrite andb_false_r.
  - destruct (App.readPersonalBest storage) as [|c|[|]];
      cbn [App.below App.above App.strictEq] in *; try discriminate.
    + split; now rewrite andb_false_r.
    + apply Z.ltb_ge in B. split.
      * destruct (Z.ltb_spec c (score (view w))); [lia|].
        now rewrite !andb_false_r.
      * destruct (Z.ltb_spec 0 (score (view w)));
          [|now rewrite !andb_false_r].
        destruct (Z.eqb_spec c 0); [lia|].
        now rewrite andb_false_r.
    + split; now rewrite !andb_false_r.
Qed.

Lemma cons_not_self (A : Type) (x : A) (l : list A) : l <> x :: l.
Proof.
  intros E. apply (f_equal (@List.length A)) in E. cbn in E. lia.
Qed.

(** X27.  When an event ends a run of the mounted component and hands
    the summary [r] to [handleFinish], the score of [r] is the score
    that was on screen before the event, which is not below the score
    the Run Complete overlay shows (a hazard tap that ends the run takes
    its 10 points after the summary was handed over).  With the personal
    best [handleFinish] then sets ([updatePersonalBest] of the score of
    [r], a safe integer, whatever the storage holds) neither badge
    condition of the overlay holds; both can hold with a best from
    before the run. *)
Theorem badge_not_shown_after_update (random : nat -> Q)
    (settings : Settings) (cellCount : Z) (playerName mode : JS.JsString)
    (now0 : Q) (events : list Event) (e : Event) (storage : App.Storage)
    (r : RunSummary) :
  let w := run random settings cellCount playerName mode
             (mount random settings cellCount now0) events in
  let w' := step random settings cellCount playerName mode w e in
  finished w' = r :: finished w ->
  (sum_score r <= App.MAX_SAFE_INTEGER)%Z ->
  exists best storage',
    App.updatePersonalBest (sum_score r) storage = Some (best, storage')
    /\ status (view w') = done
    /\ sum_score r = score (view w)
    /\ (0 <= score (view w') <= sum_score r)%Z
    /\ isNewBest best w' = false
    /\ isFirstBest best w' = false
    /\ (forall c, (0 < c < score (view w'))%Z ->
          isNewBest (App.Int c) w' = true)
    /\ ((0 < score (view w'))%Z -> isFirstBest (App.Int 0%Z) w' = true).
Proof.
  intros w w' Hr Hsafe.
  destruct (Emits_step random settings cellCount playerName mode w e)
    as [E | (E & D & Sc)]; fold w' in E.
  { rewrite E in Hr. now apply cons_not_self in Hr. }
  fold w' in D, Sc. rewrite E in Hr. injection Hr as Hr.
  destruct (reachable_invariants random settings cellCount playerName mode
              now0 events) as ((S1 & S2 & _) & _).
  fold w in S1, S2.
  assert (Es : sum_score r = score (view w)).
  { rewrite <- Hr. cbn [scored sum_score]. exact S2. }
  assert (Hle : (0 <= score (view w') <= sum_score r)%Z).
  { rewrite Es, Sc. destruct (hazardTap w e); lia. }
  destruct (badge_conditions (sum_score r) storage w' ltac:(lia)
              ltac:(lia)) as (best & storage' & U & B1 & B2).
  exists best, storage'. split; [exact U|]. split; [exact D|].
  split; [exact Es|]. split; [exact Hle|]. split; [exact B1|].
  split; [exact B2|]. unfold isNewBest, isFirstBest. rewrite D.
  cbn [Status_eqb App.above App.below App.strictEq andb Z.eqb]. split.
  - intros c [L1 L2]. apply andb_true_iff. split; now apply Z.ltb_lt.
  - intros L. now apply Z.ltb_lt.
Qed.

(** [parseInt_reads_back] on 45. *)
Lemma parseInt_reads_back_witness :
  (Z.abs 45 <= App.MAX_SAFE_INTEGER)%Z
  /\ exists text,
       App.Number_toString 45 = Some text
       /\ App.parseInt10 text = App.Int 45.
Proof.
  assert (H : (Z.abs 45 <= App.MAX_SAFE_INTEGER)%Z)
    by (vm_compute; discriminate).
  split; [exact H|].
  destruct (parseInt_reads_back 45 H) as (text & E & P & _).
  exists text. split; [exact E | exact P].
Defined.

(** [personal_best_update] on a score of 45 with nothing stored. *)
Lemma personal_best_update_witness :
  (Z.abs 45 <= App.MAX_SAFE_INTEGER)%Z
  /\ exists best storage',
       App.updatePersonalBest 45 (fun _ => None) = Some (best, storage')
       /\ best = App.Int 45
       /\ App.readPersonalBest storage' = App.Int 45.
Proof.
  assert (H : (Z.abs 45 <= App.MAX_SAFE_INTEGER)%Z)
    by (vm_compute; discriminate).
  split; [exact H|].
  destruct (personal_best_update 45 (fun _ => None) H)
    as (best & storage' & U & _ & M & _).
  change (App.readPersonalBest (fun _ => None)) with (App.Int 0) in M.
  destruct M as (M1 & M2 & _).
  exists best, storage'. split; [exact U|]. split; [exact M1 | exact M2].
Defined.

(** [personal_best_is_maximum] on runs of 45, 120 and 80 points with
    nothing stored. *)
Lemma personal_best_is_maximum_witness :
  Forall (fun score => (Z.abs score <= App.MAX_SAFE_INTEGER)%Z)
    [45; 120; 80]%Z
  /\ exists storage',
       App.afterRuns [45; 120; 80]%Z (fun _ => None) = Some storage'
       /\ App.readPersonalBest storage' = App.Int 120.
Proof.
  assert (H : Forall (fun score => (Z.abs score <= App.MAX_SAFE_INTEGER)%Z)
                [45; 120; 80]%Z)
    by (repeat constructor; vm_compute; discriminate).
  split; [exact H|].
  destruct (personal_best_is_maximum [45; 120; 80]%Z (fun _ => None) H)
    as (storage' & A & M).
  change (App.readPersonalBest (fun _ => None)) with (App.Int 0) in M.
  exists storage'. split; [exact A | exact M].
Defined.

(** [badge_not_shown_after_update] on the hard profile, with nothing
    stored: a hit for 45 points puts a hazard on tile 10, fourteen taps
    of a wrong tile bring the clock under the hazard's penalty, and the
    tap of the hazard ends the run.  The summary reports 45, the screen
    shows 35, the best becomes 45 and no badge condition holds, while
    the best of before the run, 0, would have shown the first-score
    badge. *)
Lemma badge_not_shown_after_update_witness :
  let events := [ClickStart 1000; Tap 12 1300 1301]
                ++ repeat (Tap 6 1400 1401) 14 in
  let w := run Sample.script DIFFICULTY.hard 25 Sample.playerName
             Sample.mode (mount Sample.script DIFFICULTY.hard 25 0)
             events in
  let w' := step Sample.script DIFFICULTY.hard 25 Sample.playerName
              Sample.mode w (Tap 10 1500 1501) in
  exists r best storage',
    finished w' = r :: finished w
    /\ (sum_score r <= App.MAX_SAFE_INTEGER)%Z
    /\ hazardCell (view w) = Some 10%Z
    /\ App.updatePersonalBest (sum_score r) (fun _ => None)
       = Some (best, storage')
    /\ status (view w') = done
    /\ sum_score r = 45%Z
    /\ score (view w') = 35%Z
    /\ isNewBest best w' = false
    /\ isFirstBest best w' = false
    /\ isFirstBest (App.Int 0%Z) w' = true.
Proof.
  intros events w w'.
  exists (scored 45%Z (summary Sample.playerName Sample.mode w')).
  assert (Hr : finished w'
               = scored 45%Z (summary Sample.playerName Sample.mode w')
                 :: finished w) by (vm_compute; reflexivity).
  assert (Hs : (sum_score (scored 45%Z
                             (summary Sample.playerName Sample.mode w'))
                <= App.MAX_SAFE_INTEGER)%Z) by (vm_compute; discriminate).
  assert (Hw : score (view w') = 35%Z) by (vm_compute; reflexivity).
  destruct (badge_not_shown_after_update Sample.script DIFFICULTY.hard 25
              Sample.playerName Sample.mode 0 events (Tap 10 1500 1501)
              (fun _ => None) _ Hr Hs)
    as (best & storage' & U & D & _ & _ & B1 & B2 & _ & B4).
  fold w w' in D, B1, B2, B4.
  exists best, storage'.
  split; [exact Hr|]. split; [exact Hs|].
  split; [vm_compute; reflexivity|]. split; [exact U|].
  split; [exact D|]. split; [reflexivity|]. split; [exact Hw|].
  split; [exact B1|]. split; [exact B2|].
  apply B4. rewrite Hw. reflexivity.
Defined.
